(** * Smart-locker API server: validation cache, deposit protocol, weight sessions

    A shallow embedding of the request handlers of the Express server
    (tracking-number validation, courier deposit with one-time locker tokens,
    locker controller log events, differential weight sessions) together with
    the properties of its specification.

    Conventions of the embedding:
    - JavaScript strings are modelled as 7-bit ASCII text ([string]);
    - JavaScript numbers that hold weights are IEEE binary64 values ([float]);
    - a MongoDB collection is the list of its documents in natural order,
      [findOne] returns the first document that satisfies the query;
    - [new Date()], [crypto.randomBytes] and the external tracking provider
      are inputs of the handlers ([now], [rnd], [provider]);
    - a handler returns its HTTP response together with the store it leaves. *)

From Stdlib Require Import ZArith Ascii String Floats Uint63.
From stdpp Require Import base option list strings gmap.

Set Warnings "-inexact-float".
Local Open Scope string_scope.

(* ================================================================== *)
(** * JavaScript strings *)
(* ================================================================== *)

Module JsString.

Definition code (c : ascii) : nat := nat_of_ascii c.

Definition is_digit (c : ascii) : bool :=
  (48 <=? code c)%nat && (code c <=? 57)%nat.

Definition is_upper (c : ascii) : bool :=
  (65 <=? code c)%nat && (code c <=? 90)%nat.

Definition is_lower (c : ascii) : bool :=
  (97 <=? code c)%nat && (code c <=? 122)%nat.

(** ASCII letters and digits, either case. *)
Definition is_alnum (c : ascii) : bool :=
  is_digit c || is_upper c || is_lower c.

(** [String.prototype.toUpperCase] on one ASCII code unit. *)
Definition upper_char (c : ascii) : ascii :=
  if is_lower c then ascii_of_nat (code c - 32) else c.

(** [String.prototype.toUpperCase] on ASCII text ([ascii_text] below):
    the letters a to z become A to Z and every other character is kept.
    Beyond ASCII the JavaScript function maps further letters, some to
    two characters; such strings are outside the embedding. *)
Fixpoint toUpperCase (s : string) : string :=
  match s with
  | EmptyString => EmptyString
  | String c s' => String (upper_char c) (toUpperCase s')
  end.

(** White space and line terminators removed by [trim], as far as
    ASCII has them: TAB, LF, VT, FF, CR and SPACE.  ([trim] also removes
    the no-break space and the other Unicode spaces, which ASCII text
    does not contain.) *)
Definition is_white_space (c : ascii) : bool :=
  ((9 <=? code c)%nat && (code c <=? 13)%nat) || (code c =? 32)%nat.

Fixpoint trimStart (s : string) : string :=
  match s with
  | EmptyString => EmptyString
  | String c s' => if is_white_space c then trimStart s' else s
  end.

(** [trimEnd]: a character is kept when it is not white space or when
    something remains after it. *)
Fixpoint trimEnd (s : string) : string :=
  match s with
  | EmptyString => EmptyString
  | String c s' =>
      match trimEnd s' with
      | EmptyString => if is_white_space c then EmptyString else String c EmptyString
      | t => String c t
      end
  end.

(** [String.prototype.trim]. *)
Definition trim (s : string) : string := trimEnd (trimStart s).

Fixpoint all_chars (p : ascii -> bool) (s : string) : bool :=
  match s with
  | EmptyString => true
  | String c s' => p c && all_chars p s'
  end.

(** The strings the embedding stands for: text of 7-bit ASCII
    characters. *)
Definition ascii_text (s : string) : bool :=
  all_chars (fun c => (code c <? 128)%nat) s.

Definition is_empty (s : string) : bool :=
  match s with EmptyString => true | _ => false end.

(** Truthiness of a string value: only the empty string is falsy. *)
Definition truthy (s : string) : bool := negb (is_empty s).

End JsString.

(* ================================================================== *)
(** * Regular expressions (the fragment used by the server) *)
(* ================================================================== *)

Module Regex.
Import JsString.

Inductive regex : Type :=
| Eps
| Chr (c : ascii)                  (* a literal character           *)
| Cls (p : ascii -> bool)          (* a class: [\d], [[A-Z0-9]]     *)
| Seq (r1 r2 : regex)              (* r1 r2                         *)
| Alt (r1 r2 : regex)              (* r1|r2                         *)
| Rep (r : regex) (lo hi : nat).   (* r{lo,hi}                      *)

(** A literal word. *)
Fixpoint Lit (w : string) : regex :=
  match w with
  | EmptyString => Eps
  | String c w' => Seq (Chr c) (Lit w')
  end.

(** [Canonicalize] of the ECMAScript matcher: with the [i] flag every
    character is compared through its upper-case form. *)
Definition canon (ignoreCase : bool) (c : ascii) : ascii :=
  if ignoreCase then upper_char c else c.

(** Backtracking matcher in continuation-passing style: [matchK i r s k]
    holds when some prefix of [s] matches [r] and the continuation [k]
    accepts what is left. *)
Fixpoint matchK (i : bool) (r : regex) (s : string) (k : string -> bool)
  {struct r} : bool :=
  match r with
  | Eps => k s
  | Chr a =>
      match s with
      | String c s' => Ascii.eqb (canon i a) (canon i c) && k s'
      | EmptyString => false
      end
  | Cls p =>
      match s with
      | String c s' => p (canon i c) && k s'
      | EmptyString => false
      end
  | Seq r1 r2 => matchK i r1 s (fun s' => matchK i r2 s' k)
  | Alt r1 r2 => matchK i r1 s k || matchK i r2 s k
  | Rep r0 lo hi =>
      (fix rep (n lo : nat) (s : string) {struct n} : bool :=
         match n with
         | O => (lo =? 0)%nat && k s
         | S n' =>
             ((lo =? 0)%nat && k s)
             || matchK i r0 s (fun s' => rep n' (pred lo) s')
         end) hi lo s
  end.

(** [/^r$/.test(s)] (flag [i] when [ignoreCase]). *)
Definition test (ignoreCase : bool) (r : regex) (s : string) : bool :=
  matchK ignoreCase r s is_empty.

(** The classes of the server's patterns. *)
Definition digit : regex := Cls is_digit.
Definition AZ09 : regex := Cls (fun c => is_upper c || is_digit c).

End Regex.

(* ================================================================== *)
(** * Carrier detector *)
(* ================================================================== *)

Module Detector.
Import JsString Regex.

Record detection : Type := Detection
  { detected : bool; courierType : option string }.

(** [/^(JNE|CGK)[A-Z0-9]{7,12}$/i] *)
Definition re_jne : regex := Seq (Alt (Lit "JNE") (Lit "CGK")) (Rep AZ09 7 12).
(** [/^(JT|JX)\d{10,14}$/i] *)
Definition re_jnt : regex := Seq (Alt (Lit "JT") (Lit "JX")) (Rep digit 10 14).
(** [/^TSA[A-Z0-9]{7,12}$/i] *)
Definition re_tsa : regex := Seq (Lit "TSA") (Rep AZ09 7 12).
(** [/^[A-Z0-9]{10,15}$/i] *)
Definition re_alnum_10_15 : regex := Rep AZ09 10 15.
(** [/^\d{12}$/i] *)
Definition re_sicepat : regex := Rep digit 12 12.
(** [/^(NLIDAP|NV)\d{8,12}$/i] *)
Definition re_ninja : regex := Seq (Alt (Lit "NLIDAP") (Lit "NV")) (Rep digit 8 12).
(** [/^RR\d{9}ID$/i] *)
Definition re_pos_rr : regex := Seq (Lit "RR") (Seq (Rep digit 9 9) (Lit "ID")).
(** [/^\d{13}$/i] *)
Definition re_pos_13 : regex := Rep digit 13 13.

Definition detectCourierType (resi : string) : detection :=
  if negb (truthy resi) || (String.length resi <? 8)%nat then Detection false None
  else if test true re_jne resi then Detection true (Some "jne")
  else if test true re_jnt resi then Detection true (Some "jnt")
  else if test true re_tsa resi
          || (test true re_alnum_10_15 resi && (10 <=? String.length resi)%nat)
       then Detection true (Some "anteraja")
  else if test true re_sicepat resi then Detection true (Some "sicepat")
  else if test true re_ninja resi then Detection true (Some "ninja")
  else if test true re_pos_rr resi || test true re_pos_13 resi
       then Detection true (Some "pos")
  else Detection false None.

End Detector.


(* ================================================================== *)
(** * Numbers: weights as binary64 values *)
(* ================================================================== *)

Module JsNumber.

(** [Math.abs(a - b)]. *)
Definition abs_diff (a b : float) : float := PrimFloat.abs (PrimFloat.sub a b).

(** The integer [n] for which [n / 1000 - v] is closest to zero, the
    larger one on a tie, where [v = m * 2^e] (step 10.a of
    [Number.prototype.toFixed]). *)
Definition scaled_digits (m : positive) (e : Z) : Z :=
  match e with
  | Zneg p => (2 * 1000 * Z.pos m + 2 ^ Z.pos p) / 2 ^ (Z.pos p + 1)
  | _ => 1000 * Z.pos m * 2 ^ e
  end%Z.

(** [parseFloat(x.toFixed(3))]: [toFixed(3)] prints the decimal expansion
    of [n / 1000] for the integer [n] above, [parseFloat] reads it back
    as the nearest binary64 value.  Below [2^53] the integer [n] is a
    binary64 value and the division is correctly rounded; from there on
    the spacing of binary64 values exceeds 0.001 and reading the digits
    back returns [x] itself (as it does when [toFixed] switches to the
    exponent form at 1e21, and for NaN and the infinities).  The sign is
    printed apart from the digits; both zeros print as 0.000. *)
Definition toFixed3 (x : float) : float :=
  match Prim2SF x with
  | S754_finite s m e =>
      let n := scaled_digits m e in
      if (n <? 2 ^ 53)%Z then
        let q := PrimFloat.div (PrimFloat.of_uint63 (Uint63.of_Z n)) 1000%float in
        if s then PrimFloat.opp q else q
      else x
  | S754_zero _ => 0%float
  | _ => x
  end.

(** [parseFloat(x)] on a number [x]: the number is printed and read
    back, which gives [x] again except that [-0] prints as 0 and comes
    back as [+0]. *)
Definition parseFloat (x : float) : float :=
  if PrimFloat.eqb x 0%float then 0%float else x.

End JsNumber.

(* ================================================================== *)
(** * The store: Mongoose documents and collections *)
(* ================================================================== *)

(** All clock reads of one request are the single instant [now]. *)
Definition Date : Type := Z.

(** Six random bytes, as [crypto.randomBytes(6)] returns them. *)
Record Bytes6 : Type := mkBytes6
  { byte0 : ascii; byte1 : ascii; byte2 : ascii;
    byte3 : ascii; byte4 : ascii; byte5 : ascii }.

(** The [extra] member of a log entry ([Schema.Types.Mixed]). *)
Inductive Extra : Type :=
| ExtraNull
| ExtraSource (source : string)
| ExtraDepositToken (source requestId : string) (weight : option float)
| ExtraWeight (initialWeight finalWeight packageWeight : float) (readingsCount : nat)
| ExtraRaw (payload : string).

Module LogEntry.
Record t : Type := mk
  { event : string; lockerId : string; resi : option string;
    timestamp : Date; extra : Extra }.
End LogEntry.

Module Shipment.
(** Fields of [shipmentSchema] that the handlers below read or write. *)
Record t : Type := mk
  { resi : string;
    lockerId : string;
    customerId : string;
    courierId : string;
    courierPlate : string;
    courierName : string;
    weight : option float;
    weightRecordedAt : option Date;
    status : string;
    logs : list LogEntry.t;
    deliveredToLockerAt : option Date;
    pickedUpAt : option Date }.

Definition with_weight (w : option float) (at_ : option Date) (s : t) : t :=
  mk (resi s) (lockerId s) (customerId s) (courierId s) (courierPlate s)
     (courierName s) w at_ (status s) (logs s) (deliveredToLockerAt s)
     (pickedUpAt s).

Definition with_status (st : string) (s : t) : t :=
  mk (resi s) (lockerId s) (customerId s) (courierId s) (courierPlate s)
     (courierName s) (weight s) (weightRecordedAt s) st (logs s)
     (deliveredToLockerAt s) (pickedUpAt s).

Definition with_deliveredToLockerAt (d : Date) (s : t) : t :=
  mk (resi s) (lockerId s) (customerId s) (courierId s) (courierPlate s)
     (courierName s) (weight s) (weightRecordedAt s) (status s) (logs s)
     (Some d) (pickedUpAt s).

Definition with_pickedUpAt (d : Date) (s : t) : t :=
  mk (resi s) (lockerId s) (customerId s) (courierId s) (courierPlate s)
     (courierName s) (weight s) (weightRecordedAt s) (status s) (logs s)
     (deliveredToLockerAt s) (Some d).

(** [shipment.logs.push(entry)]. *)
Definition push_log (entry : LogEntry.t) (s : t) : t :=
  mk (resi s) (lockerId s) (customerId s) (courierId s) (courierPlate s)
     (courierName s) (weight s) (weightRecordedAt s) (status s)
     (logs s ++ [entry]) (deliveredToLockerAt s) (pickedUpAt s).
End Shipment.

Module HistoryEntry.
Record t : Type := mk
  { courierId : string; courierName : string; courierPlate : string;
    resi : string; deliveredAt : Date; usedToken : option string }.
End HistoryEntry.

Module Command.
Record t : Type := mk
  { type : string; resi : string; source : string; createdAt : Date;
    customerId : option string }.
End Command.

Module DebugInfo.
Record t : Type := mk
  { enabled : bool;
    resi : option string;
    scanAtClient : option Date;
    scanAtBackend : option Date;
    commandSentAt : option Date;
    espLogAt : option Date;
    lastEvent : option string }.

(** The empty object of [locker.debugInfo || {}]. *)
Definition empty : t := mk false None None None None None None.
End DebugInfo.

Module Locker.
(** Fields of [lockerSchema] that the handlers below read or write. *)
Record t : Type := mk
  { lockerId : string;
    lockerToken : option string;
    customerId : option string;
    courierHistory : list HistoryEntry.t;
    debugInfo : option DebugInfo.t;
    pendingResi : list string;
    command : option Command.t;
    isActive : bool;
    status : string;
    tokenUpdatedAt : option Date }.

Definition with_debugInfo (d : option DebugInfo.t) (l : t) : t :=
  mk (lockerId l) (lockerToken l) (customerId l) (courierHistory l) d
     (pendingResi l) (command l) (isActive l) (status l) (tokenUpdatedAt l).

Definition with_pendingResi (p : list string) (l : t) : t :=
  mk (lockerId l) (lockerToken l) (customerId l) (courierHistory l)
     (debugInfo l) p (command l) (isActive l) (status l) (tokenUpdatedAt l).

Definition with_command (c : option Command.t) (l : t) : t :=
  mk (lockerId l) (lockerToken l) (customerId l) (courierHistory l)
     (debugInfo l) (pendingResi l) c (isActive l) (status l)
     (tokenUpdatedAt l).

(** [locker.courierHistory.push(entry)]. *)
Definition push_history (h : HistoryEntry.t) (l : t) : t :=
  mk (lockerId l) (lockerToken l) (customerId l) (courierHistory l ++ [h])
     (debugInfo l) (pendingResi l) (command l) (isActive l) (status l)
     (tokenUpdatedAt l).

(** [locker.lockerToken = tok; locker.tokenUpdatedAt = now]. *)
Definition with_token (tok : string) (now : Date) (l : t) : t :=
  mk (lockerId l) (Some tok) (customerId l) (courierHistory l)
     (debugInfo l) (pendingResi l) (command l) (isActive l) (status l)
     (Some now).
End Locker.

Module BinderData.
(** [binderbyteData]: the provider's summary (opaque here) and the time
    of validation. *)
Record t : Type := mk { summary : string; validatedAt : option Date }.
End BinderData.

Module CustomerTracking.
(** Every document the server writes with [validated: true] carries a
    [courierType]; the field is a plain string here. *)
Record t : Type := mk
  { resi : string;
    courierType : string;
    customerId : string;
    note : string;
    validated : bool;
    validationAttempted : bool;
    binderbyteData : option BinderData.t;
    assignedLockerId : option string;
    lockerAssignedAt : option Date;
    jneNumber : option string;
    createdAt : Date }.
End CustomerTracking.

(** The three collections.  The [couriers] collection is only written by
    [updateCourierActivity] and [recalcCourierState] (activity stamps) and
    decides nothing below; it is left out. *)
Record Db : Type := mkDb
  { lockers : list Locker.t;
    shipments : list Shipment.t;
    trackings : list CustomerTracking.t }.

Section Collections.
Context {A : Type}.

(** [Model.findOne(query)]: the first matching document and its place. *)
Fixpoint findOne (q : A → bool) (docs : list A) : option (nat * A) :=
  match docs with
  | [] => None
  | d :: rest =>
      if q d then Some (0, d)
      else match findOne q rest with
           | Some (i, d') => Some (S i, d')
           | None => None
           end
  end.

(** [doc.save()] for the document found at place [i]. *)
Definition save (i : nat) (d : A) (docs : list A) : list A := <[i := d]> docs.

(** [Model.create(doc)]. *)
Definition create (d : A) (docs : list A) : list A := docs ++ [d].
End Collections.

Definition set_lockers (ls : list Locker.t) (db : Db) : Db :=
  mkDb ls (shipments db) (trackings db).
Definition set_shipments (ss : list Shipment.t) (db : Db) : Db :=
  mkDb (lockers db) ss (trackings db).
Definition set_trackings (ts : list CustomerTracking.t) (db : Db) : Db :=
  mkDb (lockers db) (shipments db) ts.

(* ================================================================== *)
(** * Locker tokens *)
(* ================================================================== *)

Module Token.
Import JsString.

Definition hex_digit (n : nat) : ascii :=
  match String.get n "0123456789abcdef" with
  | Some c => c
  | None => "0"%char
  end.

(** Two lower-case hexadecimal digits per byte ([toString("hex")]). *)
Definition hex_byte (b : ascii) : string :=
  String (hex_digit (code b / 16)) (String (hex_digit (code b mod 16)) "").

Definition hex (r : Bytes6) : string :=
  hex_byte (byte0 r) +:+ hex_byte (byte1 r) +:+ hex_byte (byte2 r)
  +:+ hex_byte (byte3 r) +:+ hex_byte (byte4 r) +:+ hex_byte (byte5 r).

(** [randomToken(prefix)], the random bytes being [rnd]. *)
Definition randomToken (prefix : string) (rnd : Bytes6) : string :=
  prefix +:+ "-" +:+ hex rnd.

(** The token check of the deposit handlers: the request passes when
    [!locker.lockerToken || locker.lockerToken !== lockerToken.trim()]
    is false. *)
Definition token_matches (stored : option string) (presented : string) : bool :=
  match stored with
  | Some t => truthy t && String.eqb t (trim presented)
  | None => false
  end.
End Token.

(* ================================================================== *)
(** * Deposit protocol *)
(* ================================================================== *)

Module Deposit.
Import JsString Token.

Inductive Response : Type :=
| MissingFields                                          (* 400 *)
| LockerNotFound                                         (* 404 *)
| TokenInvalid                                           (* 400, legacy 403 *)
| WrongLocker (expectedLockerId scannedLockerId : string) (* 400 *)
| ShipmentNotFound                                       (* 404 *)
| InvalidState (currentStatus : string)                  (* 400 *)
| NotPending (pendingResi : list string)                 (* 403 *)
| NoPendingForPlate                                      (* 404 *)
| DepositOk (lockerId resi customerId : string)
            (weight : option float) (oldToken newToken : option string). (* 200 *)

Definition is_ok (r : Response) : bool :=
  match r with DepositOk _ _ _ _ _ _ => true | _ => false end.

Definition by_lockerId (id : string) (l : Locker.t) : bool :=
  String.eqb (Locker.lockerId l) id.

Definition by_resi (resi : string) (s : Shipment.t) : bool :=
  String.eqb (Shipment.resi s) resi.

Definition by_resi_and_locker (resi lockerId : string) (s : Shipment.t) : bool :=
  String.eqb (Shipment.resi s) resi && String.eqb (Shipment.lockerId s) lockerId.

(** [list.includes(resi)]. *)
Definition includes (resi : string) (l : list string) : bool :=
  existsb (String.eqb resi) l.

(** [if (!locker.pendingResi.includes(resi)) locker.pendingResi.push(resi)]. *)
Definition auto_fix (resi : string) (l : Locker.t) : Locker.t :=
  if includes resi (Locker.pendingResi l) then l
  else Locker.with_pendingResi (Locker.pendingResi l ++ [resi]) l.

(** [locker.pendingResi = locker.pendingResi.filter((r) => r !== resi)]. *)
Definition remove_pending (resi : string) (l : Locker.t) : Locker.t :=
  Locker.with_pendingResi
    (List.filter (fun r => negb (String.eqb r resi)) (Locker.pendingResi l)) l.

(** [x || dflt] on a string. *)
Definition or_default (x dflt : string) : string :=
  if truthy x then x else dflt.

(** Truthiness of a number: zero and NaN are falsy. *)
Definition num_truthy (w : float) : bool :=
  negb (PrimFloat.is_nan w) && negb (PrimFloat.eqb w 0%float).

(* ---------------- POST /api/courier/deposit-resi ---------------- *)

Module ResiReq.
(** A member that is absent from the body reads as the empty string. *)
Record t : Type := mk
  { lockerId : string; lockerToken : string; resi : string;
    debug : bool; scanAtClient : option Date }.
End ResiReq.

Definition mark_scan (req : ResiReq.t) (now : Date) (l : Locker.t) : Locker.t :=
  let d := default DebugInfo.empty (Locker.debugInfo l) in
  Locker.with_debugInfo
    (Some (DebugInfo.mk true (Some (ResiReq.resi req))
             (match ResiReq.scanAtClient req with
              | Some c => Some c
              | None => DebugInfo.scanAtClient d
              end)
             (Some now) (DebugInfo.commandSentAt d) (DebugInfo.espLogAt d)
             (DebugInfo.lastEvent d))) l.

Definition deposit_resi (now : Date) (rnd : Bytes6) (req : ResiReq.t) (db : Db)
  : Response * Db :=
  let lockerId := ResiReq.lockerId req in
  let lockerToken := ResiReq.lockerToken req in
  let resi := ResiReq.resi req in
  if negb (truthy lockerId) || negb (truthy lockerToken) || negb (truthy resi)
  then (MissingFields, db)
  else
    match findOne (by_lockerId lockerId) (lockers db) with
    | None => (LockerNotFound, db)
    | Some (i, found) =>
        let locker := if ResiReq.debug req then mark_scan req now found else found in
        if negb (token_matches (Locker.lockerToken locker) lockerToken)
        then (TokenInvalid, db)
        else
          match findOne (by_resi_and_locker resi lockerId) (shipments db) with
          | None =>
              match findOne (by_resi resi) (shipments db) with
              | Some (_, other) => (WrongLocker (Shipment.lockerId other) lockerId, db)
              | None => (ShipmentNotFound, db)
              end
          | Some (j, shipment) =>
              if negb (String.eqb (Shipment.status shipment) "pending_locker")
              then (InvalidState (Shipment.status shipment), db)
              else
                let locker := auto_fix resi locker in
                let shipment :=
                  Shipment.push_log
                    (LogEntry.mk "delivered_to_locker" lockerId (Some resi) now
                       (ExtraSource "courier_deposit_resi"))
                    (Shipment.with_deliveredToLockerAt now
                       (Shipment.with_status "delivered_to_locker" shipment)) in
                let db := set_shipments (save j shipment (shipments db)) db in
                let locker :=
                  Locker.with_command
                    (Some (Command.mk "open" resi "courier_resi" now
                             (Some (Shipment.customerId shipment)))) locker in
                let locker := remove_pending resi locker in
                let oldToken := Locker.lockerToken locker in
                let locker :=
                  Locker.push_history
                    (HistoryEntry.mk (Shipment.courierId shipment)
                       (Shipment.courierName shipment)
                       (Shipment.courierPlate shipment) resi now oldToken) locker in
                let locker :=
                  Locker.with_token (randomToken ("LK-" +:+ lockerId) rnd) now locker in
                let db := set_lockers (save i locker (lockers db)) db in
                (DepositOk lockerId resi (Shipment.customerId shipment) None None None,
                 db)
          end
    end.

(* ---------------- POST /api/courier/deposit-token --------------- *)

Module TokenReq.
(** [requestId] is the identifier the handler draws for its logs. *)
Record t : Type := mk
  { lockerId : string; lockerToken : string; resi : string;
    weight : option float; requestId : string }.
End TokenReq.

(** [weight && !isNaN(weight) && weight > 0]. *)
Definition weight_usable (w : option float) : bool :=
  match w with
  | Some x => num_truthy x && negb (PrimFloat.is_nan x) && PrimFloat.ltb 0%float x
  | None => false
  end.

(** [x || null] on a number. *)
Definition num_or_null (w : option float) : option float :=
  match w with
  | Some x => if num_truthy x then Some x else None
  | None => None
  end.

Definition deposit_token (now : Date) (rnd : Bytes6) (req : TokenReq.t) (db : Db)
  : Response * Db :=
  let lockerId := TokenReq.lockerId req in
  let lockerToken := TokenReq.lockerToken req in
  let resi := TokenReq.resi req in
  let weight := TokenReq.weight req in
  if negb (truthy lockerId) || negb (truthy lockerToken) || negb (truthy resi)
  then (MissingFields, db)
  else
    match findOne (by_lockerId lockerId) (lockers db) with
    | None => (LockerNotFound, db)
    | Some (i, locker) =>
        if negb (token_matches (Locker.lockerToken locker) lockerToken)
        then (TokenInvalid, db)
        else
          match findOne (by_resi_and_locker resi lockerId) (shipments db) with
          | None =>
              match findOne (by_resi resi) (shipments db) with
              | Some (_, other) => (WrongLocker (Shipment.lockerId other) lockerId, db)
              | None => (ShipmentNotFound, db)
              end
          | Some (j, shipment) =>
              if negb (String.eqb (Shipment.status shipment) "pending_locker")
              then (InvalidState (Shipment.status shipment), db)
              else
                let locker := auto_fix resi locker in
                let shipment :=
                  match weight with
                  | Some w =>
                      if weight_usable weight
                      then Shipment.with_weight (Some (JsNumber.toFixed3 w)) (Some now) shipment
                      else shipment
                  | None => shipment
                  end in
                let shipment :=
                  Shipment.push_log
                    (LogEntry.mk "delivered_to_locker" lockerId (Some resi) now
                       (ExtraDepositToken "courier_deposit_token"
                          (TokenReq.requestId req) (num_or_null weight)))
                    (Shipment.with_deliveredToLockerAt now
                       (Shipment.with_status "delivered_to_locker" shipment)) in
                let db := set_shipments (save j shipment (shipments db)) db in
                let locker :=
                  Locker.push_history
                    (HistoryEntry.mk (Shipment.courierId shipment)
                       (or_default (Shipment.courierName shipment) "Unknown")
                       (Shipment.courierPlate shipment) resi now (Some lockerToken))
                    locker in
                let locker :=
                  Locker.with_command
                    (Some (Command.mk "open" resi "courier_token" now
                             (Some (Shipment.customerId shipment)))) locker in
                let locker := remove_pending resi locker in
                let oldToken := Locker.lockerToken locker in
                let locker :=
                  Locker.with_token (randomToken ("LK-" +:+ lockerId) rnd) now locker in
                let db := set_lockers (save i locker (lockers db)) db in
                (DepositOk lockerId resi (Shipment.customerId shipment)
                   (num_or_null (Shipment.weight shipment))
                   oldToken (Locker.lockerToken locker),
                 db)
          end
    end.

(* ---------------- POST /api/courier/deposit (plate) ------------- *)

Definition by_token (tok : string) (l : Locker.t) : bool :=
  match Locker.lockerToken l with
  | Some t => String.eqb t tok
  | None => false
  end.

Definition pending_for_plate (plate lockerId : string) (s : Shipment.t) : bool :=
  String.eqb (Shipment.courierPlate s) plate
  && String.eqb (Shipment.status s) "pending_locker"
  && String.eqb (Shipment.lockerId s) lockerId.

Definition deposit_plate (now : Date) (rnd : Bytes6)
    (lockerToken plate : string) (db : Db) : Response * Db :=
  if negb (truthy lockerToken) || negb (truthy plate) then (MissingFields, db)
  else
    let normalizedPlate := toUpperCase (trim plate) in
    match findOne (by_token (trim lockerToken)) (lockers db) with
    | None => (LockerNotFound, db)
    | Some (i, locker) =>
        match findOne (pending_for_plate normalizedPlate (Locker.lockerId locker))
                (shipments db) with
        | None => (NoPendingForPlate, db)
        | Some (j, shipment) =>
            let resi := Shipment.resi shipment in
            let shipment :=
              Shipment.push_log
                (LogEntry.mk "delivered_to_locker" (Locker.lockerId locker)
                   (Some resi) now (ExtraSource "courier_deposit_plate"))
                (Shipment.with_deliveredToLockerAt now
                   (Shipment.with_status "delivered_to_locker" shipment)) in
            let db := set_shipments (save j shipment (shipments db)) db in
            let locker :=
              Locker.push_history
                (HistoryEntry.mk (Shipment.courierId shipment)
                   (or_default (Shipment.courierName shipment) "Unknown")
                   normalizedPlate resi now (Some lockerToken)) locker in
            let locker := remove_pending resi locker in
            let locker :=
              Locker.with_command
                (Some (Command.mk "open" resi "courier" now None)) locker in
            let oldToken := Locker.lockerToken locker in
            let locker :=
              Locker.with_token
                (randomToken ("LK-" +:+ Locker.lockerId locker) rnd) now locker in
            let db := set_lockers (save i locker (lockers db)) db in
            (DepositOk (Locker.lockerId locker) resi "" None
               oldToken (Locker.lockerToken locker),
             db)
        end
    end.

(* ---------------- POST /api/locker/:lockerId/deposit ------------ *)

(** [getLocker(lockerId)]: the locker, created with a random token when
    the collection has none of that id. *)
Definition getLocker (rnd : Bytes6) (lockerId : string) (db : Db)
  : nat * Locker.t * Db :=
  match findOne (by_lockerId lockerId) (lockers db) with
  | Some (i, l) => (i, l, db)
  | None =>
      let l := Locker.mk lockerId (Some (randomToken ("LK-" +:+ lockerId) rnd))
                 None [] None [] None true "unknown" None in
      (length (lockers db), l, set_lockers (create l (lockers db)) db)
  end.

(** The legacy deposit ("mode lama"); [rnd0] serves [getLocker], [rnd]
    the rotation. *)
Definition locker_deposit (now : Date) (rnd0 rnd : Bytes6)
    (lockerId token resi : string) (db : Db) : Response * Db :=
  if negb (truthy token) || negb (truthy resi) then (MissingFields, db)
  else
    let '(i, locker, db) := getLocker rnd0 lockerId db in
    if negb (from_option (String.eqb token) false (Locker.lockerToken locker))
    then (TokenInvalid, db)
    else if negb (includes resi (Locker.pendingResi locker))
    then (NotPending (Locker.pendingResi locker), db)
    else
      match findOne (by_resi resi) (shipments db) with
      | None => (ShipmentNotFound, db)
      | Some (j, shipment) =>
          let shipment :=
            Shipment.push_log
              (LogEntry.mk "delivered_to_locker" lockerId (Some resi) now
                 (ExtraSource "locker_deposit_legacy"))
              (Shipment.with_deliveredToLockerAt now
                 (Shipment.with_status "delivered_to_locker" shipment)) in
          let db := set_shipments (save j shipment (shipments db)) db in
          let locker :=
            Locker.push_history
              (HistoryEntry.mk (Shipment.courierId shipment)
                 (or_default (Shipment.courierName shipment) "Unknown")
                 (Shipment.courierPlate shipment) resi now (Some token)) locker in
          let locker := remove_pending resi locker in
          let locker :=
            Locker.with_command
              (Some (Command.mk "open" resi "courier" now None)) locker in
          let oldToken := Locker.lockerToken locker in
          let locker :=
            Locker.with_token (randomToken ("LK-" +:+ lockerId) rnd) now locker in
          let db := set_lockers (save i locker (lockers db)) db in
          (DepositOk lockerId resi "" None oldToken (Locker.lockerToken locker), db)
      end.

End Deposit.

(* ================================================================== *)
(** * Controller log events: POST /api/locker/:lockerId/log *)
(* ================================================================== *)

Module LockerLog.
Import JsString Deposit.

Module Req.
(** [resi] and [extra] are [None] when absent (or falsy). *)
Record t : Type := mk
  { event : string; resi : option string; extra : option string }.
End Req.

(** [pushDebugPhase(locker, "esp_log", { resi })]. *)
Definition pushDebugPhase_esp_log (resi : option string) (now : Date)
    (d : DebugInfo.t) : DebugInfo.t :=
  DebugInfo.mk (DebugInfo.enabled d) resi (DebugInfo.scanAtClient d)
    (DebugInfo.scanAtBackend d) (DebugInfo.commandSentAt d) (Some now)
    (Some "esp_log").

(** The timing trace written when the controller reports an opening. *)
Definition debug_trace (now : Date) (lockerId : string) (req : Req.t) (db : Db) : Db :=
  if includes (Req.event req) ["locker_opened"; "opened_by_courier"] then
    match findOne (by_lockerId lockerId) (lockers db) with
    | Some (i, locker) =>
        match Locker.debugInfo locker with
        | Some d =>
            if DebugInfo.enabled d && bool_decide (is_Some (DebugInfo.scanAtBackend d))
            then set_lockers
                   (save i (Locker.with_debugInfo
                              (Some (pushDebugPhase_esp_log (Req.resi req) now d))
                              locker) (lockers db)) db
            else db
        | None => db
        end
    | None => db
    end
  else db.

(** The status transitions driven by controller events. *)
Definition apply_event (event : string) (now : Date) (s : Shipment.t) : Shipment.t :=
  let s :=
    if String.eqb event "locker_closed"
       && String.eqb (Shipment.status s) "delivered_to_locker"
    then Shipment.with_status "ready_for_pickup" s else s in
  if String.eqb event "opened_by_customer"
  then Shipment.with_status "completed" (Shipment.with_pickedUpAt now s)
  else s.

Definition locker_log (now : Date) (lockerId : string) (req : Req.t) (db : Db)
  : LogEntry.t * Db :=
  let shipment :=
    match Req.resi req with
    | Some r => findOne (by_resi r) (shipments db)
    | None => None
    end in
  let logEntry :=
    LogEntry.mk (Req.event req) lockerId (Req.resi req) now
      (match Req.extra req with Some e => ExtraRaw e | None => ExtraNull end) in
  let db := debug_trace now lockerId req db in
  match shipment with
  | Some (j, s) =>
      let s := apply_event (Req.event req) now (Shipment.push_log logEntry s) in
      (logEntry, set_shipments (save j s (shipments db)) db)
  | None => (logEntry, db)
  end.

End LockerLog.

(* ================================================================== *)
(** * Weight sessions *)
(* ================================================================== *)

Module Weight.
Import JsString Deposit.

Module Reading.
Record t : Type := mk { weight : float; timestamp : Date }.
End Reading.

Module Session.
(** [sessionId] is [`${lockerId}-${Date.now()}`], kept as its two parts. *)
Record t : Type := mk
  { sessionId : string * Date;
    resi : string;
    startedAt : Date;
    readings : list Reading.t;
    active : bool }.

Definition deactivate (s : t) : t :=
  mk (sessionId s) (resi s) (startedAt s) (readings s) false.

Definition push_reading (r : Reading.t) (s : t) : t :=
  mk (sessionId s) (resi s) (startedAt s) (readings s ++ [r]) (active s).
End Session.

(** The process state: the in-memory [weightSessions] map and the store. *)
Record State : Type := mkState
  { weightSessions : gmap string Session.t; db : Db }.

Inductive Response : Type :=
| ResiRequired                                           (* 400 *)
| SessionStarted (sessionId : string * Date) (resi : string) (* 200 *)
| InvalidWeight                                          (* 400 *)
| NoActiveSession                                        (* 404 *)
| ReadingRecorded (readingNumber : nat) (weight : float) (* 200 *)
| InsufficientReadings                                   (* 400 *)
| ShipmentMissing                                        (* 404 *)
| AlreadyRecorded (resi : string) (weight : float)
                  (weightRecordedAt : option Date)       (* 200 *)
| WeightRecorded (resi : string) (weight : float)
                 (initialWeight finalWeight : float)
                 (readingsCount : nat)                   (* 200 *)
| InternalError.                                         (* 500 *)

(** HTTP success ([res.json] without an error status). *)
Definition is_success (r : Response) : bool :=
  match r with
  | SessionStarted _ _ | ReadingRecorded _ _
  | AlreadyRecorded _ _ _ | WeightRecorded _ _ _ _ _ => true
  | _ => false
  end.

(** POST /api/locker/:lockerId/weight/start *)
Definition weight_start (now : Date) (lockerId resi : string) (st : State)
  : Response * State :=
  if negb (truthy resi) then (ResiRequired, st)
  else
    let sessionId := (lockerId, now) in
    let clean := toUpperCase (trim resi) in
    (SessionStarted sessionId clean,
     mkState (<[lockerId := Session.mk sessionId clean now [] true]>
                (weightSessions st)) (db st)).

(** POST /api/locker/:lockerId/weight/reading *)
Definition weight_reading (now : Date) (lockerId : string) (weight : float)
    (st : State) : Response * State :=
  let weightValue := JsNumber.parseFloat weight in
  if PrimFloat.is_nan weightValue || PrimFloat.ltb weightValue 0%float
     || PrimFloat.ltb 50%float weightValue
  then (InvalidWeight, st)
  else
    match weightSessions st !! lockerId with
    | Some session =>
        if negb (Session.active session) then (NoActiveSession, st)
        else
          let session :=
            Session.push_reading (Reading.mk weightValue now) session in
          (ReadingRecorded (length (Session.readings session)) weightValue,
           mkState (<[lockerId := session]> (weightSessions st)) (db st))
    | None => (NoActiveSession, st)
    end.

(** [session.readings[0].weight] and
    [session.readings[session.readings.length - 1].weight]. *)
Definition first_last (readings : list Reading.t) : option (float * float) :=
  match readings !! 0, readings !! (length readings - 1) with
  | Some a, Some b => Some (Reading.weight a, Reading.weight b)
  | _, _ => None
  end.

(** [parseFloat(Math.abs(initialWeight - finalWeight).toFixed(3))]. *)
Definition packageWeight (initialWeight finalWeight : float) : float :=
  JsNumber.toFixed3 (JsNumber.abs_diff initialWeight finalWeight).

(** POST /api/locker/:lockerId/weight/finalize *)
Definition weight_finalize (now : Date) (lockerId : string) (st : State)
  : Response * State :=
  match weightSessions st !! lockerId with
  | None => (NoActiveSession, st)
  | Some session =>
      if negb (Session.active session) then (NoActiveSession, st)
      else if (length (Session.readings session) <? 2)%nat
      then (InsufficientReadings, st)
      else
        match first_last (Session.readings session) with
        | Some (initialWeight, finalWeight) =>
            let packageWeight := packageWeight initialWeight finalWeight in
            let closed := <[lockerId := Session.deactivate session]> (weightSessions st) in
            match findOne (by_resi (Session.resi session)) (shipments (db st)) with
            | None => (ShipmentMissing, mkState closed (db st))
            | Some (j, shipment) =>
                match Shipment.weight shipment with
                | Some w =>
                    (AlreadyRecorded (Shipment.resi shipment) w
                       (Shipment.weightRecordedAt shipment),
                     mkState closed (db st))
                | None =>
                    let shipment :=
                      Shipment.push_log
                        (LogEntry.mk "weight_recorded_differential" lockerId
                           (Some (Shipment.resi shipment)) now
                           (ExtraWeight initialWeight finalWeight packageWeight
                              (length (Session.readings session))))
                        (Shipment.with_weight (Some packageWeight) (Some now) shipment) in
                    (WeightRecorded (Shipment.resi shipment) packageWeight
                       initialWeight finalWeight (length (Session.readings session)),
                     mkState closed
                       (set_shipments (save j shipment (shipments (db st))) (db st)))
                end
            end
        | None => (InternalError, st)
        end
  end.

End Weight.

(* ================================================================== *)
(** * Validation: POST /api/customer/manual-resi *)
(* ================================================================== *)

Module Binderbyte.
Record Payload : Type := mkPayload
  { summary : option string; detail : string; history : string }.

(** One call of the tracking provider: the request parameters. *)
Record Call : Type := mkCall
  { courier : string; awb : string; number : option string }.

(** What [axios.get] gives back: it throws (time-out, connection or HTTP
    error) or returns a body with its [status] and [data]. *)
Inductive Reply : Type :=
| Threw
| Replied (status : option Z) (data : option Payload).

Definition Provider : Type := Call → Reply.
End Binderbyte.

Module Validation.
Import JsString Regex Deposit Binderbyte.

Inductive Response : Type :=
| ResiRequired                                                    (* 400 *)
| AlreadySubmitted (resi : string) (inputDate : Date)             (* 400 *)
| FromCache (resi courierType : string) (assignedLockerId : option string)
            (tracking : option BinderData.t) (createdAt : Date)   (* 200 *)
| ServiceUnavailable                                              (* 503 *)
| PatternAccepted (resi courierType : string)                     (* 200 *)
| NotFound (resi : string)                                        (* 404 *)
| Validated (resi courierType : string) (assignedLockerId : option string)
            (tracking : Payload) (createdAt : Date)               (* 200 *)
| InternalError.                                                  (* 500 *)

(** The status code of each answer. *)
Definition http_status (r : Response) : nat :=
  match r with
  | ResiRequired | AlreadySubmitted _ _ => 400
  | FromCache _ _ _ _ _ | PatternAccepted _ _ | Validated _ _ _ _ _ => 200
  | ServiceUnavailable => 503
  | NotFound _ => 404
  | InternalError => 500
  end.

Inductive Exn : Type :=
| ReferenceError (identifier : string).

(** The handler reads the identifier [highConfidence].  Neither the
    handler nor the module declares a variable, parameter or function of
    that name (this read is its only occurrence), so evaluating it
    throws. *)
Definition highConfidence : Exn + bool := inl (ReferenceError "highConfidence").

Definition courierPriority : list string :=
  ["jne"; "jnt"; "sicepat"; "anteraja"; "ninja"; "pos"; "tiki"; "wahana";
   "lion"; "rpx"].

(** [/^\d{5}$/] *)
Definition re_five_digits : regex := Rep digit 5 5.

(** [!jneNumber || !/^\d{5}$/.test(jneNumber.trim())] *)
Definition jne_number_unusable (jneNumber : option string) : bool :=
  match jneNumber with
  | Some n => negb (truthy n) || negb (test false re_five_digits (trim n))
  | None => true
  end.

(** [response.data?.status === 200 && response.data.data?.summary]: the
    summary has to be truthy, so an empty one is no match. *)
Definition found (r : Reply) : option Payload :=
  match r with
  | Replied (Some 200%Z) (Some p) =>
      match summary p with
      | Some s => if truthy s then Some p else None
      | None => None
      end
  | _ => None
  end.

(** The verifier loop: the first courier whose reply is a match, and the
    calls made, in order. *)
Fixpoint tryCouriers (provider : Provider) (jneNumber : option string)
    (cleanResi : string) (couriers : list string)
  : option (string * Payload) * list Call :=
  match couriers with
  | [] => (None, [])
  | courier :: rest =>
      if String.eqb courier "jne" && jne_number_unusable jneNumber
      then tryCouriers provider jneNumber cleanResi rest
      else
        let call :=
          mkCall courier cleanResi
            (if String.eqb courier "jne" then trim <$> jneNumber else None) in
        match found (provider call) with
        | Some p => (Some (courier, p), [call])
        | None =>
            let '(r, calls) := tryCouriers provider jneNumber cleanResi rest in
            (r, call :: calls)
        end
  end.

Definition own_record (cleanResi userId : string) (t : CustomerTracking.t) : bool :=
  String.eqb (CustomerTracking.resi t) cleanResi
  && String.eqb (CustomerTracking.customerId t) userId.

Definition cached_record (cleanResi : string) (t : CustomerTracking.t) : bool :=
  String.eqb (CustomerTracking.resi t) cleanResi && CustomerTracking.validated t.

(** The first locker of the customer that is on line and active. *)
Definition available_locker (userId : string) (l : Locker.t) : bool :=
  from_option (String.eqb userId) false (Locker.customerId l)
  && String.eqb (Locker.status l) "online" && Locker.isActive l.

Definition assign_locker (userId : string) (db : Db) : option string :=
  match findOne (available_locker userId) (lockers db) with
  | Some (_, l) => Some (Locker.lockerId l)
  | None => None
  end.

Definition manual_resi (BINDER_KEY : string) (provider : Provider) (now : Date)
    (userId resi : string) (jneNumber : option string) (db : Db)
  : Response * Db * list Call :=
  if negb (truthy resi) || negb (truthy (trim resi)) then (ResiRequired, db, [])
  else
    let cleanResi := toUpperCase (trim resi) in
    match findOne (own_record cleanResi userId) (trackings db) with
    | Some (_, existing) =>
        (AlreadySubmitted cleanResi (CustomerTracking.createdAt existing), db, [])
    | None =>
        match findOne (cached_record cleanResi) (trackings db) with
        | Some (_, cachedResi) =>
            let assignedLockerId := assign_locker userId db in
            let tracking :=
              CustomerTracking.mk cleanResi (CustomerTracking.courierType cachedResi)
                userId
                ("Validated from cache ("
                 +:+ toUpperCase (CustomerTracking.courierType cachedResi) +:+ ")")
                true true (CustomerTracking.binderbyteData cachedResi)
                assignedLockerId
                (match assignedLockerId with Some _ => Some now | None => None end)
                None now in
            (FromCache cleanResi (CustomerTracking.courierType cachedResi)
               assignedLockerId (CustomerTracking.binderbyteData cachedResi) now,
             set_trackings (create tracking (trackings db)) db, [])
        | None =>
            if negb (truthy BINDER_KEY) then (ServiceUnavailable, db, [])
            else
              let '(result, calls) :=
                tryCouriers provider jneNumber cleanResi courierPriority in
              match result with
              | None =>
                  match highConfidence with
                  | inl _ => (InternalError, db, calls)
                  | inr hc =>
                      if hc && (length courierPriority =? 1)%nat then
                        let detectedCourier := default "" (courierPriority !! 0) in
                        let tracking :=
                          CustomerTracking.mk cleanResi detectedCourier userId
                            "Pattern-validated (Binderbyte unavailable)" true true
                            (Some (BinderData.mk detectedCourier (Some now)))
                            None None None now in
                        (PatternAccepted cleanResi detectedCourier,
                         set_trackings (create tracking (trackings db)) db, calls)
                      else (NotFound cleanResi, db, calls)
                  end
              | Some (validCourier, binderbyteResult) =>
                  let assignedLockerId := assign_locker userId db in
                  let tracking :=
                    CustomerTracking.mk cleanResi validCourier userId
                      "Validated by Binderbyte" true true
                      (Some (BinderData.mk
                               (default "" (summary binderbyteResult)) (Some now)))
                      assignedLockerId
                      (match assignedLockerId with Some _ => Some now | None => None end)
                      (if String.eqb validCourier "jne" then trim <$> jneNumber
                       else None)
                      now in
                  (Validated cleanResi validCourier assignedLockerId
                     binderbyteResult now,
                   set_trackings (create tracking (trackings db)) db, calls)
              end
        end
    end.

End Validation.

(* ================================================================== *)
(** * Vocabulary of the specification *)
(* ================================================================== *)

Module Spec.
Import JsString Regex Token Deposit.

(** Removing a literal prefix, compared as the [i] flag asks. *)
Fixpoint strip_prefix (i : bool) (w s : string) : option string :=
  match w with
  | EmptyString => Some s
  | String a w' =>
      match s with
      | String c s' =>
          if Ascii.eqb (canon i a) (canon i c) then strip_prefix i w' s' else None
      | EmptyString => None
      end
  end.

(** A string of between 10 and 15 letters and digits. *)
Definition alnum_10_15 (resi : string) : Prop :=
  (10 ≤ String.length resi ≤ 15)%nat ∧ all_chars is_alnum resi = true.

(** The order of shipment states: pending_locker (awaiting deposit),
    delivered_to_locker, ready_for_pickup, completed (delivered to the
    customer); any other value comes first. *)
Definition status_rank (status : string) : nat :=
  if String.eqb status "pending_locker" then 1
  else if String.eqb status "delivered_to_locker" then 2
  else if String.eqb status "ready_for_pickup" then 3
  else if String.eqb status "completed" then 4
  else 0.

(** The statuses of the shipments, document by document. *)
Definition statuses (db : Db) : list string := Shipment.status <$> shipments db.

(** [later] keeps every shipment of [earlier] and moves none of them
    back. *)
Definition status_monotone (earlier later : Db) : Prop :=
  Forall2 (λ s s', (status_rank s ≤ status_rank s')%nat)
          (statuses earlier) (statuses later).

(** A token of the shape [randomToken("LK-" + lockerId)] gives:
    the prefix, a dash and twelve more characters. *)
Definition generated_for (lockerId tok : string) : bool :=
  match strip_prefix false ("LK-" +:+ lockerId +:+ "-") tok with
  | Some h => (String.length h =? 12)%nat
  | None => false
  end.

(** Every token in the store was produced by [randomToken] for the
    locker that holds it (all writers of [lockerToken] do so). *)
Definition tokens_generated (db : Db) : bool :=
  forallb (λ l, from_option (generated_for (Locker.lockerId l)) true
                  (Locker.lockerToken l)) (lockers db).

(** A call of one of the two token deposit operations. *)
Inductive Call : Type :=
| ViaResi (now : Date) (rnd : Bytes6) (req : ResiReq.t)
| ViaToken (now : Date) (rnd : Bytes6) (req : TokenReq.t).

Definition step (c : Call) (db : Db) : Response * Db :=
  match c with
  | ViaResi now rnd req => deposit_resi now rnd req db
  | ViaToken now rnd req => deposit_token now rnd req db
  end.

Definition target (c : Call) : string :=
  match c with
  | ViaResi _ _ req => ResiReq.lockerId req
  | ViaToken _ _ req => TokenReq.lockerId req
  end.

Definition presented (c : Call) : string :=
  match c with
  | ViaResi _ _ req => ResiReq.lockerToken req
  | ViaToken _ _ req => TokenReq.lockerToken req
  end.

Definition tracking_number (c : Call) : string :=
  match c with
  | ViaResi _ _ req => ResiReq.resi req
  | ViaToken _ _ req => TokenReq.resi req
  end.

(** The token this call's rotation draws. *)
Definition drawn (c : Call) : string :=
  match c with
  | ViaResi _ rnd req => randomToken ("LK-" +:+ ResiReq.lockerId req) rnd
  | ViaToken _ rnd req => randomToken ("LK-" +:+ TokenReq.lockerId req) rnd
  end.

(** The first three guards of a token deposit pass: the members are
    present, the locker exists and holds the document [locker]. *)
Definition reaches_token_check (c : Call) (db : Db) (i : nat) (locker : Locker.t)
  : Prop :=
  truthy (target c) = true ∧ truthy (presented c) = true
  ∧ truthy (tracking_number c) = true
  ∧ findOne (by_lockerId (target c)) (lockers db) = Some (i, locker).

(** The locker document a successful deposit writes back. *)
Definition rotated (c : Call) (locker locker' : Locker.t) : Prop :=
  Locker.lockerId locker' = Locker.lockerId locker
  ∧ Locker.lockerToken locker' = Some (drawn c)
  ∧ Locker.pendingResi locker'
    = List.filter (λ r, negb (String.eqb r (tracking_number c)))
        (Locker.pendingResi (auto_fix (tracking_number c) locker)).

(** The shipment document a successful deposit writes back. *)
Definition delivered (shipment shipment' : Shipment.t) : Prop :=
  Shipment.status shipment' = "delivered_to_locker"
  ∧ Shipment.resi shipment' = Shipment.resi shipment
  ∧ Shipment.lockerId shipment' = Shipment.lockerId shipment.

End Spec.

(* ================================================================== *)
(** * A small store used by the examples *)
(* ================================================================== *)

Module Fixture.
Import Deposit.

Definition tokenA : string := "LK-A1-0a0b0c0d0e0f".
Definition tokenB : string := "LK-B2-010203040506".

Definition rnd1 : Bytes6 :=
  mkBytes6 "001"%char "002"%char "003"%char "004"%char "005"%char "006"%char.
Definition rnd2 : Bytes6 :=
  mkBytes6 "017"%char "018"%char "019"%char "020"%char "021"%char "022"%char.

Definition lockerA : Locker.t :=
  Locker.mk "A1" (Some tokenA) (Some "user1") [] None ["RESI00000001"] None true
    "online" None.
Definition lockerB : Locker.t :=
  Locker.mk "B2" (Some tokenB) (Some "user2") [] None [] None true "online" None.

Definition pending (resi lockerId : string) : Shipment.t :=
  Shipment.mk resi lockerId "user1" "CR-1" "B1234XY" "Budi" None None
    "pending_locker" [] None None.

(** Two shipments assigned to locker A1; the second is missing from the
    locker's [pendingResi]. *)
Definition db0 : Db :=
  mkDb [lockerA; lockerB]
       [pending "RESI00000001" "A1"; pending "RESI00000002" "A1"] [].

Definition resi_req (lockerId tok resi : string) : ResiReq.t :=
  ResiReq.mk lockerId tok resi false None.
Definition token_req (lockerId tok resi : string) : TokenReq.t :=
  TokenReq.mk lockerId tok resi None "SCAN-1".

(** The store [db0] cut down to its first shipment, with a recorded
    weight or none. *)
Definition weighed (w : option float) : Db :=
  mkDb [lockerA; lockerB]
       [Shipment.with_weight w (match w with Some _ => Some 5%Z | None => None end)
          (pending "RESI00000001" "A1")] [].

(** The state after the controller of locker A1 has started a session
    for the first shipment and sent the readings [ws]. *)
Definition measuring (ws : list float) (w : option float) : Weight.State :=
  foldl (λ st x, (Weight.weight_reading 1%Z "A1" x st).2)
        (Weight.weight_start 0%Z "A1" "resi00000001" (Weight.mkState ∅ (weighed w))).2
        ws.

(** A provider that knows no tracking number, and one that knows
    everything as a J&T shipment. *)
Definition provider_none : Binderbyte.Provider :=
  λ _, Binderbyte.Replied (Some 404%Z) None.
Definition provider_jnt : Binderbyte.Provider :=
  λ call,
    if String.eqb (Binderbyte.courier call) "jnt"
    then Binderbyte.Replied (Some 200%Z)
           (Some (Binderbyte.mkPayload (Some "DELIVERED") "detail" "history"))
    else Binderbyte.Replied (Some 404%Z) None.

End Fixture.

(* ================================================================== *)
(** * Further helpers and operations of the server *)
(* ================================================================== *)

(** ** [sanitizeResi] *)

Module Sanitize.
Import JsString Regex.

(** [s.replace(/\s+/g, '')]: every run of white space is dropped. *)
Fixpoint remove_white_space (s : string) : string :=
  match s with
  | EmptyString => EmptyString
  | String c s' =>
      if is_white_space c then remove_white_space s'
      else String c (remove_white_space s')
  end.

(** [/^[A-Z0-9]+$/] run on an input of length [n]: one repetition at
    least, and no more than the input has characters. *)
Definition re_upper_alnum (n : nat) : regex := Rep AZ09 1 n.

Definition sanitizeResi (resi : string) : option string :=
  if negb (truthy resi) then None
  else
    let cleaned := toUpperCase (remove_white_space (trim resi)) in
    if (String.length cleaned <? 8)%nat
       || negb (test false (re_upper_alnum (String.length cleaned)) cleaned)
    then None
    else Some cleaned.

End Sanitize.

(** ** Revalidation: POST /api/manual-resi/revalidate/:resi *)

Module Revalidate.
Import JsString Regex Binderbyte Validation.

(** [/^r/.test(s)]: anchored at the start only. *)
Definition test_prefix (ignoreCase : bool) (r : regex) (s : string) : bool :=
  matchK ignoreCase r s (fun _ => true).

(** [/^JT\d{10,}/i] on an input of length [n]. *)
Definition re_jt_long (n : nat) : regex := Seq (Lit "JT") (Rep digit 10 n).
(** [/^(JNE|CGK)/i] *)
Definition re_jne_prefix : regex := Alt (Lit "JNE") (Lit "CGK").
(** [/^\d{14}$/] *)
Definition re_14_digits : regex := Rep digit 14 14.

(** The order in which the carriers are tried. *)
Definition courierPriority (cleanResi : string) : list string :=
  if test_prefix true (re_jt_long (String.length cleanResi)) cleanResi
  then ["jnt"; "jne"; "anteraja"; "sicepat"; "ninja"; "pos"]
  else if test_prefix true re_jne_prefix cleanResi
  then ["jne"; "jnt"; "anteraja"; "sicepat"; "ninja"; "pos"]
  else if test false re_14_digits cleanResi
  then ["anteraja"; "sicepat"; "jnt"; "jne"; "ninja"; "pos"]
  else ["jne"; "jnt"; "anteraja"; "sicepat"; "ninja"; "pos"].

Inductive Response : Type :=
| RecordMissing                                             (* 404 *)
| ServiceUnavailable                                        (* 503 *)
| NotFound (resi : string)                                  (* 404 *)
| Revalidated (resi courierType : string) (tracking : string). (* 200 *)

Definition by_resi (cleanResi : string) (t : CustomerTracking.t) : bool :=
  String.eqb (CustomerTracking.resi t) cleanResi.

(** The record after a successful revalidation (the check mark that
    opens the note is not an ASCII character and is left out). *)
Definition revalidated (validCourier : string) (result : Payload)
    (jneNumber : option string) (now : Date) (t : CustomerTracking.t)
  : CustomerTracking.t :=
  CustomerTracking.mk (CustomerTracking.resi t) validCourier
    (CustomerTracking.customerId t)
    ("Revalidated via " +:+ toUpperCase validCourier)
    true true
    (Some (BinderData.mk (default "" (summary result)) (Some now)))
    (CustomerTracking.assignedLockerId t) (CustomerTracking.lockerAssignedAt t)
    (if String.eqb validCourier "jne"
        && from_option truthy false jneNumber
     then trim <$> jneNumber else CustomerTracking.jneNumber t)
    (CustomerTracking.createdAt t).

Definition revalidate (BINDER_KEY : string) (provider : Provider) (now : Date)
    (resi : string) (jneNumber : option string) (db : Db)
  : Response * Db * list Call :=
  let cleanResi := toUpperCase (trim resi) in
  match findOne (by_resi cleanResi) (trackings db) with
  | None => (RecordMissing, db, [])
  | Some (i, tracking) =>
      if negb (truthy BINDER_KEY) then (ServiceUnavailable, db, [])
      else
        let '(result, calls) :=
          tryCouriers provider jneNumber cleanResi (courierPriority cleanResi) in
        match result with
        | None => (NotFound cleanResi, db, calls)
        | Some (validCourier, binderbyteResult) =>
            (Revalidated cleanResi validCourier
               (default "" (summary binderbyteResult)),
             set_trackings
               (save i (revalidated validCourier binderbyteResult jneNumber now
                          tracking) (trackings db)) db,
             calls)
        end
  end.

End Revalidate.

(** ** Command delivery: GET /api/locker/:lockerId/command *)

Module Poll.
Import JsString Deposit.

Inductive Response : Type :=
| NoCommand
| Deliver (type resi source : string) (createdAt : Date).

(** [pushDebugPhase(locker, "command", { resi: cmd.resi })]. *)
Definition pushDebugPhase_command (resi : string) (now : Date) (d : DebugInfo.t)
  : DebugInfo.t :=
  DebugInfo.mk (DebugInfo.enabled d) (Some resi) (DebugInfo.scanAtClient d)
    (DebugInfo.scanAtBackend d) (Some now) (DebugInfo.espLogAt d)
    (Some "command").

Definition poll_command (now : Date) (rnd : Bytes6) (lockerId : string) (db : Db)
  : Response * Db :=
  let '(i, locker, db) := getLocker rnd lockerId db in
  match Locker.command locker with
  | None => (NoCommand, db)
  | Some cmd =>
      let locker :=
        match Locker.debugInfo locker with
        | Some d =>
            if DebugInfo.enabled d
            then Locker.with_debugInfo
                   (Some (pushDebugPhase_command (Command.resi cmd) now d)) locker
            else locker
        | None => locker
        end in
      let locker := Locker.with_command None locker in
      (Deliver (Command.type cmd) (Command.resi cmd) (Command.source cmd)
         (Command.createdAt cmd),
       set_lockers (save i locker (lockers db)) db)
  end.

End Poll.

(** ** Pick-up: delivered-customer, package-removed and deletion *)

Module Pickup.
Import JsString Deposit.

(** [Model.deleteOne(query)]: the first matching document goes. *)
Fixpoint deleteOne {A} (q : A → bool) (docs : list A) : list A :=
  match docs with
  | [] => []
  | d :: rest => if q d then rest else d :: deleteOne q rest
  end.

(** [Model.updateOne(query, update)]: the first matching document is
    updated. *)
Fixpoint updateOne {A} (q : A → bool) (f : A → A) (docs : list A) : list A :=
  match docs with
  | [] => []
  | d :: rest => if q d then f d :: rest else d :: updateOne q f rest
  end.

Definition tracking_by_resi (resi : string) (t : CustomerTracking.t) : bool :=
  String.eqb (CustomerTracking.resi t) resi.

(** What both pick-up paths do for one shipment: the shipment and the
    tracking record of its number are deleted, and the number is pulled
    from the [pendingResi] of the locker. *)
Definition forget (lockerId resi : string) (db : Db) : Db :=
  mkDb (updateOne (by_lockerId lockerId) (remove_pending resi) (lockers db))
       (deleteOne (by_resi resi) (shipments db))
       (deleteOne (tracking_by_resi resi) (trackings db)).

Inductive Response : Type :=
| ShipmentNotFound                      (* 404 *)
| LockerNotFound                        (* 404 *)
| Cleaned (deletedResi : string)        (* 200 *)
| NothingToCheck                        (* 200, removed: 0 *)
| Removed (removed : nat).              (* 200 *)

(** POST /api/shipments/:resi/delivered-customer *)
Definition delivered_customer (resi : string) (db : Db) : Response * Db :=
  match findOne (by_resi resi) (shipments db) with
  | None => (ShipmentNotFound, db)
  | Some (_, shipment) =>
      (Cleaned resi, forget (Shipment.lockerId shipment) resi db)
  end.

(** The shipments that lie in the locker. *)
Definition in_locker (lockerId : string) (s : Shipment.t) : bool :=
  String.eqb (Shipment.lockerId s) lockerId
  && includes (Shipment.status s) ["delivered_to_locker"; "ready_for_pickup"].

(** The [weight] member of the request body: absent, the JSON [null]
    (which is also what a sender's NaN is serialised to), or a number. *)
Inductive Member : Type :=
| Absent
| Null
| Num (w : float).

(** [weight < weightThreshold] with the threshold of one kilogram and no
    type guard: the comparison converts its left side to a number, so an
    absent member ([undefined], NaN) compares false and [null] (zero)
    compares true. *)
Definition below_threshold (weight : Member) : bool :=
  match weight with
  | Absent => false
  | Null => true
  | Num w => PrimFloat.ltb w 1%float
  end.

(** POST /api/locker/:lockerId/package-removed *)
Definition package_removed (lockerId : string) (weight : Member) (db : Db)
  : Response * Db :=
  match findOne (by_lockerId lockerId) (lockers db) with
  | None => (LockerNotFound, db)
  | Some _ =>
      let found := List.filter (in_locker lockerId) (shipments db) in
      match found with
      | [] => (NothingToCheck, db)
      | _ =>
          if below_threshold weight
          then (Removed (length found),
                foldl (λ db s, forget lockerId (Shipment.resi s) db) db found)
          else (Removed 0, db)
      end
  end.

(** DELETE /api/manual-resi/:resi *)
Definition delete_manual_resi (resi : string) (db : Db) : bool * Db :=
  let cleanResi := toUpperCase (trim resi) in
  match findOne (tracking_by_resi cleanResi) (trackings db) with
  | None => (false, db)
  | Some _ =>
      (true,
       mkDb (lockers db) (deleteOne (by_resi cleanResi) (shipments db))
            (deleteOne (tracking_by_resi cleanResi) (trackings db)))
  end.

End Pickup.

(** ** Weight session status: GET /api/locker/:lockerId/weight/status *)

Module WeightStatus.
Import Weight.

Record Status : Type := mkStatus
  { sessionId : string * Date;
    resi : string;
    startedAt : Date;
    active : bool;
    readingsCount : nat;
    latestWeight : option float }.

(** [None] is the answer [hasSession: false]. *)
Definition weight_status (lockerId : string) (st : State) : option Status :=
  match weightSessions st !! lockerId with
  | None => None
  | Some session =>
      Some (mkStatus (Session.sessionId session) (Session.resi session)
              (Session.startedAt session) (Session.active session)
              (length (Session.readings session))
              (Reading.weight <$> (Session.readings session
                                   !! (length (Session.readings session) - 1))))
  end.

End WeightStatus.

(** ** Vocabulary of the further properties *)

Module Spec2.
Import JsString Deposit Weight.

(** A weight that the reading operation accepts: a number from 0 to 50. *)
Definition in_range (w : float) : bool :=
  negb (PrimFloat.is_nan w || PrimFloat.ltb w 0%float || PrimFloat.ltb 50%float w).

(** Every reading of every session is in range. *)
Definition readings_in_range (st : State) : Prop :=
  ∀ lockerId session,
    weightSessions st !! lockerId = Some session →
    Forall (λ r, in_range (Reading.weight r) = true) (Session.readings session).

(** The operations of the weight session manager. *)
Inductive Op : Type :=
| Start (now : Date) (lockerId resi : string)
| Read (now : Date) (lockerId : string) (weight : float)
| Finalize (now : Date) (lockerId : string).

Definition run_op (op : Op) (st : State) : State :=
  match op with
  | Start now lockerId resi => (weight_start now lockerId resi st).2
  | Read now lockerId weight => (weight_reading now lockerId weight st).2
  | Finalize now lockerId => (weight_finalize now lockerId st).2
  end.

(** A run of operations from a state. *)
Definition run (ops : list Op) (st : State) : State :=
  foldl (λ st op, run_op op st) st ops.

(** Of the readings [ws] sent, the values a session records: each as
    [parseFloat] reads it, when that is a number from 0 to 50. *)
Definition recorded (ws : list float) : list float :=
  List.filter in_range (JsNumber.parseFloat <$> ws).

(** The readings [ws] sent one after the other. *)
Definition send_readings (now : Date) (lockerId : string) (ws : list float)
    (st : State) : State :=
  foldl (λ st w, (weight_reading now lockerId w st).2) st ws.

(** Two byte strings read back from their hexadecimal digits. *)
Definition hex_value (c : ascii) : nat :=
  let n := nat_of_ascii c in
  if (97 <=? n)%nat then n - 87 else n - 48.

Definition unhex_byte (s : string) : option ascii :=
  match s with
  | String a (String b EmptyString) =>
      Some (ascii_of_nat (16 * hex_value a + hex_value b))
  | _ => None
  end.

(** Tracking numbers are distinct across the shipments. *)
Definition distinct_numbers (db : Db) : Prop :=
  NoDup (Shipment.resi <$> shipments db).

(** A submission of a tracking number, with the state of the outside
    world it meets, and a run of them. *)
Module Submission.
Record t : Type := mk
  { key : string; provider : Binderbyte.Provider; now : Date;
    userId : string; resi : string; jneNumber : option string }.
End Submission.

Definition submit (s : Submission.t) (db : Db) : Db :=
  (Validation.manual_resi (Submission.key s) (Submission.provider s)
     (Submission.now s) (Submission.userId s) (Submission.resi s)
     (Submission.jneNumber s) db).1.2.

Definition submit_all (run : list Submission.t) (db : Db) : Db :=
  foldl (λ db s, submit s db) db run.

(** The locker a submission answer assigns, if any. *)
Definition assigned (r : Validation.Response) : option string :=
  match r with
  | Validation.Validated _ _ a _ _ | Validation.FromCache _ _ a _ _ => a
  | _ => None
  end.

(** The instant and the source tag a token deposit stamps on what it
    writes. *)
Definition time_of (c : Spec.Call) : Date :=
  match c with
  | Spec.ViaResi now _ _ => now
  | Spec.ViaToken now _ _ => now
  end.

Definition source_of (c : Spec.Call) : string :=
  match c with
  | Spec.ViaResi _ _ _ => "courier_resi"
  | Spec.ViaToken _ _ _ => "courier_token"
  end.

(** What a successful token deposit leaves on the locker besides the
    new token: the command for the controller and one more entry of the
    courier history. *)
Definition deposited (c : Spec.Call) (locker locker' : Locker.t) : Prop :=
  Locker.lockerId locker' = Locker.lockerId locker
  ∧ (∃ customer,
       Locker.command locker'
       = Some (Command.mk "open" (Spec.tracking_number c) (source_of c)
                 (time_of c) customer))
  ∧ ∃ h u,
      Locker.courierHistory locker' = (Locker.courierHistory locker ++ [h])%list
      ∧ HistoryEntry.resi h = Spec.tracking_number c
      ∧ HistoryEntry.deliveredAt h = time_of c
      ∧ HistoryEntry.usedToken h = Some u
      ∧ trim u = trim (Spec.presented c).

End Spec2.

(** ** The four deposit operations as one interface *)

Module Deposits.
Import JsString Token Deposit.

Inductive Call : Type :=
| Courier (c : Spec.Call)
| Plate (now : Date) (rnd : Bytes6) (lockerToken plate : string)
| Legacy (now : Date) (rnd0 rnd : Bytes6) (lockerId token resi : string).

Definition step (c : Call) (db : Db) : Response * Db :=
  match c with
  | Courier c' => Spec.step c' db
  | Plate now rnd lockerToken plate => deposit_plate now rnd lockerToken plate db
  | Legacy now rnd0 rnd lockerId token resi =>
      locker_deposit now rnd0 rnd lockerId token resi db
  end.

(** The token a call presents, in the form its operation compares with
    the stored one: trimmed, except in the legacy deposit. *)
Definition presented (c : Call) : string :=
  match c with
  | Courier c' => trim (Spec.presented c')
  | Plate _ _ lockerToken _ => trim lockerToken
  | Legacy _ _ _ _ token _ => token
  end.

(** The locker [getLocker] creates for a legacy call that names a
    locker the store does not have. *)
Definition created (c : Call) (db : Db) : list Locker.t :=
  match c with
  | Legacy _ rnd0 _ lockerId token resi =>
      if truthy token && truthy resi then
        match findOne (by_lockerId lockerId) (lockers db) with
        | Some _ => []
        | None =>
            [Locker.mk lockerId (Some (randomToken ("LK-" +:+ lockerId) rnd0))
               None [] None [] None true "unknown" None]
        end
      else []
  | _ => []
  end.

(** The token a successful call writes in place of the one it
    consumed. *)
Definition rotation (c : Call) (db : Db) : option string :=
  if is_ok (step c db).1 then
    match c with
    | Courier c' => Some (Spec.drawn c')
    | Plate _ rnd lockerToken _ =>
        match findOne (by_token (trim lockerToken)) (lockers db) with
        | Some (_, l) => Some (randomToken ("LK-" +:+ Locker.lockerId l) rnd)
        | None => None
        end
    | Legacy _ _ rnd lockerId _ _ => Some (randomToken ("LK-" +:+ lockerId) rnd)
    end
  else None.

(** Every token a call writes into the store. *)
Definition written (c : Call) (db : Db) : list string :=
  (option_list (rotation c db) ++ omap Locker.lockerToken (created c db))%list.

(** The tokens consumed by the successful calls of a run, in order. *)
Fixpoint consumed (calls : list Call) (db : Db) : list string :=
  match calls with
  | [] => []
  | c :: rest =>
      let '(r, db') := step c db in
      if is_ok r then presented c :: consumed rest db' else consumed rest db'
  end.

(** The random source is fresh along a run: no call writes a token that
    a deposit has consumed ([used] lists those, the call's own
    included). *)
Fixpoint fresh (used : list string) (calls : list Call) (db : Db) : bool :=
  match calls with
  | [] => true
  | c :: rest =>
      let '(r, db') := step c db in
      let used' := if is_ok r then presented c :: used else used in
      forallb (λ t, negb (includes t used')) (written c db)
      && fresh used' rest db'
  end.

(** Locker ids are distinct (the collection has a unique index on
    [lockerId]). *)
Definition distinct_ids (db : Db) : Prop :=
  NoDup (Locker.lockerId <$> lockers db).

(** Along a run: ids stay distinct, no locker holds a consumed token,
    and every token held has the generated shape for its locker. *)
Definition unused (used : list string) (db : Db) : Prop :=
  distinct_ids db
  ∧ ∀ k l t,
      lockers db !! k = Some l →
      Locker.lockerToken l = Some t →
      (t ∉ used) ∧ Spec.generated_for (Locker.lockerId l) t = true.

End Deposits.


(** ** A second small store *)

Module Scenario.
Import Deposit.

(** A record whose carrier is not known yet. *)
Definition unknown_record : CustomerTracking.t :=
  CustomerTracking.mk "JX8009962760" "unknown" "user1" "" false true None None None
    None 1%Z.

Definition db_unknown : Db := mkDb [Fixture.lockerA; Fixture.lockerB] [] [unknown_record].

(** The six bytes whose hexadecimal form is that of [Fixture.tokenA]. *)
Definition rnd_again : Bytes6 :=
  mkBytes6 "010"%char "011"%char "012"%char "013"%char "014"%char "015"%char.

(** The store [Fixture.db0] with the first number also in the pending
    list of locker B2, although its shipment is assigned to A1. *)
Definition db_misfiled : Db :=
  mkDb [Fixture.lockerA;
        Locker.with_pendingResi ["RESI00000001"] Fixture.lockerB]
       (shipments Fixture.db0) [].

(** Locker A1 holds one delivered shipment, one that is ready and one
    that still waits for its deposit. *)
Definition with_status (st : string) (s : Shipment.t) : Shipment.t :=
  Shipment.with_status st s.

Definition db_full : Db :=
  mkDb [Fixture.lockerA; Fixture.lockerB]
       [with_status "delivered_to_locker" (Fixture.pending "RESI00000001" "A1");
        with_status "ready_for_pickup" (Fixture.pending "RESI00000002" "A1");
        Fixture.pending "RESI00000003" "A1";
        with_status "delivered_to_locker" (Fixture.pending "RESI00000004" "B2")]
       [].

End Scenario.

(* ================================================================== *)
(** * Properties *)
(* ================================================================== *)

(** ** Strings and collections *)

Module BasicFacts.
Import JsString.

Lemma str_app_cons (x : ascii) (a b : string) :
  String x a +:+ b = String x (a +:+ b).
Proof. reflexivity. Qed.

Lemma str_app_nil (b : string) : "" +:+ b = b.
Proof. reflexivity. Qed.

Lemma str_length_app (a b : string) :
  String.length (a +:+ b) = (String.length a + String.length b)%nat.
Proof.
  induction a as [|c a IH]; [done|]. rewrite str_app_cons. simpl. by f_equal.
Qed.

Lemma str_app_assoc (a b c : string) : (a +:+ b) +:+ c = a +:+ (b +:+ c).
Proof.
  induction a as [|x a IH]; [done|]. rewrite !str_app_cons. by f_equal.
Qed.

(** Two equal concatenations with tails of the same length have the same
    heads. *)
Lemma str_app_same_tail_length : ∀ a b x y : string,
  a +:+ x = b +:+ y → String.length x = String.length y → a = b.
Proof.
  induction a as [|c a IH]; intros [|d b] x y E L;
    rewrite ?str_app_cons, ?str_app_nil in E.
  - done.
  - subst x. simpl in L. rewrite str_length_app in L. lia.
  - subst y. simpl in L. rewrite str_length_app in L. lia.
  - injection E as -> E. f_equal. by apply (IH b x y).
Qed.

Lemma truthy_nonempty s : truthy s = true ↔ s ≠ "".
Proof. destruct s; cbv; split; intros; congruence. Qed.

Section FindOne.
Context {A : Type}.
Implicit Types (q : A → bool) (docs : list A).

Lemma findOne_Some q docs i d :
  findOne q docs = Some (i, d) → docs !! i = Some d ∧ q d = true.
Proof.
  revert i. induction docs as [|x docs IH]; intros i; simpl; [done|].
  destruct (q x) eqn:Hq.
  - intros [= <- <-]. done.
  - destruct (findOne q docs) as [[k y]|]; [|done].
    intros [= <- <-]. by apply IH.
Qed.

Lemma findOne_None q docs :
  findOne q docs = None ↔ ∀ d, d ∈ docs → q d = false.
Proof.
  induction docs as [|x docs IH]; simpl.
  - split; [|done]. intros _ d Hd. by apply elem_of_nil in Hd.
  - destruct (q x) eqn:Hq.
    + split; [done|]. intros H. specialize (H x (list_elem_of_here _ _)). congruence.
    + destruct (findOne q docs) as [[k y]|].
      * split; [done|]. intros H.
        assert (Some (k, y) = None) as E; [|done].
        apply IH. intros d Hd. apply H. by apply list_elem_of_further.
      * split; [|done]. intros _ d [->|Hd]%elem_of_cons; [done|].
        by apply IH.
Qed.

(** Nothing before the place that [findOne] returns matches. *)
Lemma findOne_first q docs i d :
  findOne q docs = Some (i, d) →
  ∀ k x, (k < i)%nat → docs !! k = Some x → q x = false.
Proof.
  revert i. induction docs as [|y docs IH]; intros i; simpl; [done|].
  destruct (q y) eqn:Hq.
  - intros [= <- <-] k x Hk. lia.
  - destruct (findOne q docs) as [[j z]|] eqn:E; [|done].
    intros [= <- <-] [|k] x Hk; simpl.
    + by intros [= <-].
    + apply (IH j eq_refl). lia.
Qed.

(** Saving a document that the query cannot tell from the one it
    replaces leaves the answer of [findOne] in place. *)
Lemma findOne_save q docs i d d' :
  docs !! i = Some d → q d' = q d →
  findOne q (save i d' docs)
  = match findOne q docs with
    | Some (k, x) => Some (k, if (k =? i)%nat then d' else x)
    | None => None
    end.
Proof.
  unfold save. revert i.
  induction docs as [|y docs IH]; intros [|i] Hi Hq; simpl in *; try done.
  - injection Hi as ->. rewrite Hq. destruct (q d); [done|].
    by destruct (findOne q docs) as [[k x]|].
  - destruct (q y); [done|].
    rewrite (IH i Hi Hq). by destruct (findOne q docs) as [[k x]|].
Qed.

Lemma save_length i d docs : length (save i d docs) = length docs.
Proof. apply length_insert. Qed.
End FindOne.

End BasicFacts.

(** ** The embedding on concrete inputs *)

Module Sanity.
Import JsString Regex Detector Token.

Lemma trim_and_upper :
  trim "  LK x  " = "LK x" ∧ toUpperCase " jx8009962760 " = " JX8009962760 ".
Proof. split; reflexivity. Qed.

Lemma randomToken_shape :
  randomToken ("LK-" +:+ "A1") Fixture.rnd1 = "LK-A1-010203040506".
Proof. reflexivity. Qed.

(** The numbers of the server's test reports, and a few around them. *)
Lemma detectCourierType_on_samples :
  (λ s, courierType (detectCourierType s))
    <$> ["JNEA1234567890"; "CGK123456789"; "JX8009962760"; "jt1234567890123";
         "TSA1234567890"; "123456789012"; "NLIDAP1234567890"; "NV12345678";
         "RR123456789ID"; "1234567890123"; "12345678"; "1234567";
         "1234567890123456"; "ABC-1234567890"]
  = [Some "jne"; Some "jne"; Some "jnt"; Some "jnt";
     Some "anteraja"; Some "anteraja"; Some "ninja"; Some "anteraja";
     Some "anteraja"; Some "anteraja"; None; None;
     None; None].
Proof. vm_compute. reflexivity. Qed.

Lemma five_digits_pattern :
  test false Validation.re_five_digits "12345" = true
  ∧ test false Validation.re_five_digits "1234a" = false
  ∧ test false Validation.re_five_digits "123456" = false.
Proof. repeat split; reflexivity. Qed.

(** [toFixed(3)] rounds the exact binary value: 1.0005 lies just below the
    tie and 0.0005 just above it. *)
Lemma toFixed3_on_samples :
  JsNumber.toFixed3 <$> [1.0005; 0.0005; 49.9996; 12.3456789; -1.23456; 2; 0]%float
  = [1; 0.001; 50; 12.346; -1.235; 2; 0]%float.
Proof. vm_compute. reflexivity. Qed.

Lemma difference_of_doubles :
  JsNumber.abs_diff 5.0%float 4.3%float = 0.7000000000000002%float.
Proof. vm_compute. reflexivity. Qed.

End Sanity.

(** ** The matcher *)

Module RegexFacts.
Import JsString Regex Spec.

Lemma matchK_Lit i w : ∀ s k,
  matchK i (Lit w) s k = from_option k false (strip_prefix i w s).
Proof.
  induction w as [|a w IH]; intros s k; simpl; [done|].
  destruct s as [|c s]; [done|].
  destruct (Ascii.eqb (canon i a) (canon i c)); simpl; [apply IH|done].
Qed.

(** A bounded repetition of a class, anchored at the end of the input,
    checks every character and the length. *)
Lemma test_Rep_Cls i p hi : ∀ lo s,
  test i (Rep (Cls p) lo hi) s
  = all_chars (fun c => p (canon i c)) s
    && (lo <=? String.length s)%nat && (String.length s <=? hi)%nat.
Proof.
  unfold test. induction hi as [|hi IH]; intros lo s.
  - simpl. destruct s as [|c s]; simpl.
    + destruct lo; simpl; done.
    + rewrite !andb_false_r. done.
  - change (matchK i (Rep (Cls p) lo (S hi)) s is_empty)
      with (((lo =? 0)%nat && is_empty s)
            || match s with
               | String c s' => p (canon i c) && matchK i (Rep (Cls p) (pred lo) hi) s' is_empty
               | EmptyString => false
               end).
    destruct s as [|c s].
    + simpl. destruct lo; simpl; done.
    + rewrite IH. cbn [is_empty all_chars String.length].
      rewrite andb_false_r. cbn [orb].
      destruct (p (canon i c)); cbn [andb]; [|done].
      destruct (all_chars (λ c0, p (canon i c0)) s); cbn [andb]; [|done].
      destruct lo as [|lo]; cbn [pred]; [|done].
      done.
Qed.

Lemma AZ09_upper c :
  (is_upper (upper_char c) || is_digit (upper_char c)) = is_alnum c.
Proof.
  destruct c as [[] [] [] [] [] [] [] []]; vm_compute; reflexivity.
Qed.

Lemma digit_upper c : is_digit (upper_char c) = is_digit c.
Proof.
  destruct c as [[] [] [] [] [] [] [] []]; vm_compute; reflexivity.
Qed.

Lemma digit_alnum c : is_digit c = true → is_alnum c = true.
Proof. unfold is_alnum. by intros ->. Qed.

(** No digit is one of the letters that open the JNE and J&T patterns. *)
Lemma digit_not_letter c (a : ascii) :
  is_digit c = true → is_upper a = true →
  Ascii.eqb (upper_char a) (upper_char c) = false.
Proof.
  intros Hc Ha. apply Ascii.eqb_neq. intros E.
  assert (is_digit (upper_char a) = true) as Hd by (by rewrite E, digit_upper).
  revert Ha Hd. clear.
  destruct a as [[] [] [] [] [] [] [] []]; vm_compute; congruence.
Qed.

Lemma all_chars_ext p q s :
  (∀ c, p c = q c) → all_chars p s = all_chars q s.
Proof. intros E. induction s as [|c s IH]; simpl; [done|]. by rewrite E, IH. Qed.

Lemma all_chars_impl (p q : ascii → bool) s :
  (∀ c, p c = true → q c = true) → all_chars p s = true → all_chars q s = true.
Proof.
  intros E. induction s as [|c s IH]; simpl; [done|].
  intros [Hc Hs]%andb_true_iff. rewrite (E _ Hc), (IH Hs). done.
Qed.

(** [/^[A-Z0-9]{lo,hi}$/i] *)
Lemma test_AZ09 lo hi s :
  test true (Rep AZ09 lo hi) s
  = all_chars is_alnum s && (lo <=? String.length s)%nat
    && (String.length s <=? hi)%nat.
Proof.
  unfold AZ09. rewrite test_Rep_Cls. do 2 f_equal.
  apply all_chars_ext. intros c. apply AZ09_upper.
Qed.

(** [/^\d{lo,hi}$/i] *)
Lemma test_digits lo hi s :
  test true (Rep digit lo hi) s
  = all_chars is_digit s && (lo <=? String.length s)%nat
    && (String.length s <=? hi)%nat.
Proof.
  unfold digit. rewrite test_Rep_Cls. do 2 f_equal.
  apply all_chars_ext. intros c. apply digit_upper.
Qed.

(** A pattern [(w1|w2)r] anchored at both ends. *)
Lemma test_two_prefixes i w1 w2 r s :
  test i (Seq (Alt (Lit w1) (Lit w2)) r) s
  = from_option (test i r) false (strip_prefix i w1 s)
    || from_option (test i r) false (strip_prefix i w2 s).
Proof. unfold test. simpl. by rewrite !matchK_Lit. Qed.

Lemma strip_prefix_length i w : ∀ s t,
  strip_prefix i w s = Some t →
  String.length s = (String.length w + String.length t)%nat.
Proof.
  induction w as [|a w IH]; intros s t; simpl.
  - by intros [= ->].
  - destruct s as [|c s]; [done|].
    destruct (Ascii.eqb _ _); [|done]. intros H. simpl. by rewrite (IH _ _ H).
Qed.

(** A character that matches an upper-case letter of a pattern under the
    [i] flag is a letter. *)
Lemma ci_letter_alnum a c :
  is_upper a = true → Ascii.eqb (upper_char a) (upper_char c) = true →
  is_alnum c = true.
Proof.
  intros Ha E%Ascii.eqb_eq. rewrite <- AZ09_upper, <- E.
  revert Ha. clear.
  destruct a as [[] [] [] [] [] [] [] []]; vm_compute; congruence.
Qed.

Lemma strip_prefix_digit_first a w c s :
  is_upper a = true → is_digit c = true →
  strip_prefix true (String a w) (String c s) = None.
Proof.
  intros Ha Hc. simpl. by rewrite (digit_not_letter c a Hc Ha).
Qed.

Lemma all_digits_first_digit s :
  all_chars is_digit s = true → (0 < String.length s)%nat →
  ∃ c s', s = String c s' ∧ is_digit c = true.
Proof.
  destruct s as [|c s']; simpl; [lia|].
  intros [Hc _]%andb_true_iff _. eauto.
Qed.

End RegexFacts.

(** ** Carrier detector *)

Module DetectorFacts.
Import JsString Regex Detector Spec BasicFacts RegexFacts.

Lemma long_is_truthy s : (8 ≤ String.length s)%nat →
  negb (truthy s) || (String.length s <? 8)%nat = false.
Proof.
  intros H. destruct s as [|c s]; simpl in *; [lia|].
  apply Nat.ltb_ge. simpl. lia.
Qed.

(** Whatever the later rules say, a string of letters and digits of
    length 10 to 15 is settled by the first three rules. *)
Lemma detect_alnum resi :
  alnum_10_15 resi →
  detectCourierType resi
  = if test true re_jne resi then Detection true (Some "jne")
    else if test true re_jnt resi then Detection true (Some "jnt")
    else Detection true (Some "anteraja").
Proof.
  intros [[Hlo Hhi] Hall]. unfold detectCourierType.
  rewrite long_is_truthy by lia.
  assert (test true re_alnum_10_15 resi = true) as ->.
  { unfold re_alnum_10_15. rewrite test_AZ09, Hall. cbn [andb].
    apply andb_true_iff. split; apply Nat.leb_le; lia. }
  assert ((10 <=? String.length resi)%nat = true) as -> by (apply Nat.leb_le; lia).
  cbn [andb negb]. rewrite orb_true_r. done.
Qed.

(** The JNE and J&T rules need a letter in front. *)
Lemma digit_first_skips_prefix_rules c s :
  is_digit c = true →
  test true re_jne (String c s) = false ∧ test true re_jnt (String c s) = false.
Proof.
  intros Hc. unfold re_jne, re_jnt. rewrite !test_two_prefixes.
  rewrite !strip_prefix_digit_first by done. done.
Qed.

Lemma detect_digits resi :
  all_chars is_digit resi = true → (10 ≤ String.length resi ≤ 15)%nat →
  detectCourierType resi = Detection true (Some "anteraja").
Proof.
  intros Hd Hl.
  destruct (all_digits_first_digit resi Hd) as (c & s & -> & Hc); [lia|].
  rewrite detect_alnum.
  - by destruct (digit_first_skips_prefix_rules c s Hc) as [-> ->].
  - split; [done|]. revert Hd. apply all_chars_impl, digit_alnum.
Qed.

(** C10: every string of 10 to 15 letters and digits that the JNE and J&T
    rules do not take is classified as anteraja; so is every string of
    exactly 12 digits, every "NV" followed by 8 to 12 digits and every
    string of 13 digits, although the SiCepat, Ninja and POS patterns match
    them; on strings of 10 to 15 letters and digits the detector answers
    jne, jnt or anteraja and nothing else. *)
Theorem detect_alnum_rule_shadows_later_rules :
  (∀ resi, alnum_10_15 resi →
     test true re_jne resi = false → test true re_jnt resi = false →
     detectCourierType resi = Detection true (Some "anteraja"))
  ∧ (∀ resi, String.length resi = 12 → all_chars is_digit resi = true →
       test true re_sicepat resi = true
       ∧ detectCourierType resi = Detection true (Some "anteraja"))
  ∧ (∀ d, all_chars is_digit d = true → (8 ≤ String.length d ≤ 12)%nat →
       test true re_ninja ("NV" +:+ d) = true
       ∧ detectCourierType ("NV" +:+ d) = Detection true (Some "anteraja"))
  ∧ (∀ resi, String.length resi = 13 → all_chars is_digit resi = true →
       test true re_pos_13 resi = true
       ∧ detectCourierType resi = Detection true (Some "anteraja"))
  ∧ (∀ resi, alnum_10_15 resi →
       courierType (detectCourierType resi)
       ∈ [Some "jne"; Some "jnt"; Some "anteraja"]).
Proof.
  repeat split.
  - intros resi H Hjne Hjnt. by rewrite detect_alnum, Hjne, Hjnt.
  - unfold re_sicepat. rewrite test_digits, H0, H. done.
  - apply detect_digits; [done|lia].
  - change ("NV" +:+ d) with (String "N" (String "V" d)).
    unfold re_ninja. rewrite test_two_prefixes.
    change (strip_prefix true "NV" (String "N" (String "V" d))) with (Some d).
    change (strip_prefix true "NLIDAP" (String "N" (String "V" d)))
      with (@None string).
    cbn [from_option orb]. rewrite test_digits, H. cbn [andb].
    apply andb_true_iff; split; apply Nat.leb_le; lia.
  - change ("NV" +:+ d) with (String "N" (String "V" d)).
    rewrite detect_alnum.
    + unfold re_jne, re_jnt. rewrite !test_two_prefixes. done.
    + split; [simpl; lia|].
      change (is_alnum "N" && (is_alnum "V" && all_chars is_alnum d) = true).
      change (all_chars is_alnum d = true).
      revert H. apply all_chars_impl, digit_alnum.
  - unfold re_pos_13. rewrite test_digits, H0, H. done.
  - apply detect_digits; [done|lia].
  - intros resi H. rewrite detect_alnum by done.
    destruct (test true re_jne resi); [set_solver|].
    destruct (test true re_jnt resi); simpl; set_solver.
Qed.

Lemma detect_alnum_rule_witness :
  detectCourierType "123456789012" = Detection true (Some "anteraja")
  ∧ detectCourierType "NV1234567890" = Detection true (Some "anteraja")
  ∧ detectCourierType "ABCDE12345" = Detection true (Some "anteraja").
Proof.
  destruct detect_alnum_rule_shadows_later_rules as (Hgen & H12 & Hnv & _).
  split; [|split].
  - apply (H12 "123456789012"); reflexivity.
  - apply (Hnv "1234567890"); [reflexivity | simpl; lia].
  - apply (Hgen "ABCDE12345"); [split; [simpl; lia | reflexivity] | reflexivity ..].
Defined.

End DetectorFacts.

(** ** Deposit protocol *)

Module DepositFacts.
Import JsString Token Deposit Spec BasicFacts.

Lemma includes_elem_of resi l : includes resi l = true ↔ resi ∈ l.
Proof.
  unfold includes. rewrite existsb_exists. split.
  - intros (x & Hx%list_elem_of_In & ->%String.eqb_eq). done.
  - intros H. exists resi. split; [by apply list_elem_of_In | apply String.eqb_refl].
Qed.

Lemma includes_false resi l : includes resi l = false ↔ resi ∉ l.
Proof.
  rewrite <- includes_elem_of. destruct (includes resi l); split; congruence.
Qed.

(** Removing a tracking number that was appended to a list without it
    gives the list back. *)
Lemma filter_absent resi l :
  resi ∉ l →
  List.filter (λ r, negb (String.eqb r resi)) l = l.
Proof.
  induction l as [|x l IH]; simpl; [done|].
  intros [Hx Hl]%not_elem_of_cons.
  destruct (String.eqb_spec x resi) as [->|_]; [done|]. simpl. by rewrite IH.
Qed.

Lemma filter_after_push resi l :
  resi ∉ l →
  List.filter (λ r, negb (String.eqb r resi)) (l ++ [resi]) = l.
Proof.
  intros H. rewrite List.filter_app. simpl. rewrite String.eqb_refl. simpl.
  rewrite app_nil_r. by apply filter_absent.
Qed.

Lemma filter_removes resi l :
  includes resi (List.filter (λ r, negb (String.eqb r resi)) l) = false.
Proof.
  apply includes_false. rewrite list_elem_of_In, List.filter_In.
  intros [_ H]. by rewrite String.eqb_refl in H.
Qed.

Lemma mark_scan_token req now l :
  Locker.lockerToken (mark_scan req now l) = Locker.lockerToken l.
Proof. done. Qed.

Ltac open_call c :=
  destruct c as [now rnd [lockerId lockerToken resi debug scanAtClient]
                |now rnd [lockerId lockerToken resi weight requestId]];
  unfold reaches_token_check, step, target, presented, tracking_number, drawn,
         deposit_resi, deposit_token in *;
  cbn [ResiReq.lockerId ResiReq.lockerToken ResiReq.resi ResiReq.debug
       ResiReq.scanAtClient TokenReq.lockerId TokenReq.lockerToken TokenReq.resi
       TokenReq.weight TokenReq.requestId] in *.

Lemma step_missing_fields c db :
  truthy (target c) && truthy (presented c) && truthy (tracking_number c) = false →
  step c db = (MissingFields, db).
Proof.
  intros H. open_call c;
    destruct (truthy lockerId), (truthy lockerToken), (truthy resi); done.
Qed.

Lemma step_locker_not_found c db :
  truthy (target c) && truthy (presented c) && truthy (tracking_number c) = true →
  findOne (by_lockerId (target c)) (lockers db) = None →
  step c db = (LockerNotFound, db).
Proof.
  intros H E. open_call c; rewrite E;
    destruct (truthy lockerId), (truthy lockerToken), (truthy resi); done.
Qed.

Lemma step_token_invalid c db i locker :
  reaches_token_check c db i locker →
  token_matches (Locker.lockerToken locker) (presented c) = false →
  step c db = (TokenInvalid, db).
Proof.
  intros (H1 & H2 & H3 & E) T. open_call c; rewrite H1, H2, H3, E; cbn [negb orb].
  - destruct debug; rewrite ?mark_scan_token, T; done.
  - by rewrite T.
Qed.

Lemma step_elsewhere c db i locker :
  reaches_token_check c db i locker →
  token_matches (Locker.lockerToken locker) (presented c) = true →
  findOne (by_resi_and_locker (tracking_number c) (target c)) (shipments db) = None →
  step c db
  = match findOne (by_resi (tracking_number c)) (shipments db) with
    | Some (_, other) => (WrongLocker (Shipment.lockerId other) (target c), db)
    | None => (ShipmentNotFound, db)
    end.
Proof.
  intros (H1 & H2 & H3 & E) T S. open_call c; rewrite H1, H2, H3, E; cbn [negb orb].
  - destruct debug; rewrite ?mark_scan_token, T, S; done.
  - by rewrite T, S.
Qed.

Lemma step_invalid_state c db i locker j shipment :
  reaches_token_check c db i locker →
  token_matches (Locker.lockerToken locker) (presented c) = true →
  findOne (by_resi_and_locker (tracking_number c) (target c)) (shipments db)
  = Some (j, shipment) →
  Shipment.status shipment ≠ "pending_locker" →
  step c db = (InvalidState (Shipment.status shipment), db).
Proof.
  intros (H1 & H2 & H3 & E) T S St%String.eqb_neq.
  open_call c; rewrite H1, H2, H3, E; cbn [negb orb].
  - destruct debug; rewrite ?mark_scan_token, T, S, St; done.
  - by rewrite T, S, St.
Qed.

Lemma step_success c db i locker j shipment :
  reaches_token_check c db i locker →
  token_matches (Locker.lockerToken locker) (presented c) = true →
  findOne (by_resi_and_locker (tracking_number c) (target c)) (shipments db)
  = Some (j, shipment) →
  Shipment.status shipment = "pending_locker" →
  ∃ r locker' shipment',
    step c db
    = (r, mkDb (save i locker' (lockers db)) (save j shipment' (shipments db))
               (trackings db))
    ∧ is_ok r = true ∧ rotated c locker locker' ∧ delivered shipment shipment'.
Proof.
  intros (H1 & H2 & H3 & E) T S St.
  open_call c; rewrite H1, H2, H3, E; cbn [negb orb].
  - destruct debug; rewrite ?mark_scan_token, T, S, St;
      rewrite String.eqb_refl; cbn [negb];
      eexists _, _, _; (split; [reflexivity|]);
      (split; [done|]); (split; [|done]);
      unfold rotated, auto_fix, includes; cbn;
      destruct (existsb _ (Locker.pendingResi locker)); done.
  - rewrite T, S, St. rewrite String.eqb_refl; cbn [negb].
    eexists _, _, _. split; [reflexivity|].
    split; [done|]. split.
    + unfold rotated, auto_fix, includes; cbn.
      destruct (existsb _ (Locker.pendingResi locker)); done.
    + unfold delivered. destruct weight as [w|]; [destruct (weight_usable (Some w))|]; done.
Qed.

(** Every call either fails and leaves the store as it was, or passes all
    the guards and writes back one locker and one shipment. *)
Lemma step_inv c db :
  (is_ok (step c db).1 = false ∧ (step c db).2 = db)
  ∨ (∃ i locker j shipment r locker' shipment',
       reaches_token_check c db i locker
       ∧ token_matches (Locker.lockerToken locker) (presented c) = true
       ∧ findOne (by_resi_and_locker (tracking_number c) (target c)) (shipments db)
         = Some (j, shipment)
       ∧ Shipment.status shipment = "pending_locker"
       ∧ step c db
         = (r, mkDb (save i locker' (lockers db)) (save j shipment' (shipments db))
                    (trackings db))
       ∧ is_ok r = true ∧ rotated c locker locker' ∧ delivered shipment shipment').
Proof.
  destruct (truthy (target c) && truthy (presented c) && truthy (tracking_number c))
    eqn:F.
  2: { left. by rewrite step_missing_fields. }
  destruct (findOne (by_lockerId (target c)) (lockers db)) as [[i locker]|] eqn:E.
  2: { left. by rewrite step_locker_not_found. }
  assert (reaches_token_check c db i locker) as R.
  { apply andb_true_iff in F as [[? ?]%andb_true_iff ?]. done. }
  destruct (token_matches (Locker.lockerToken locker) (presented c)) eqn:T.
  2: { left. by rewrite (step_token_invalid c db i locker). }
  destruct (findOne (by_resi_and_locker (tracking_number c) (target c)) (shipments db))
    as [[j shipment]|] eqn:S.
  2: { left. rewrite (step_elsewhere c db i locker) by done.
       by destruct (findOne (by_resi _) _) as [[? ?]|]. }
  destruct (decide (Shipment.status shipment = "pending_locker")) as [St|St].
  2: { left. by rewrite (step_invalid_state c db i locker j shipment). }
  right. destruct (step_success c db i locker j shipment R T S St)
    as (r & locker' & shipment' & ? & ? & ? & ?).
  by exists i, locker, j, shipment, r, locker', shipment'.
Qed.

Lemma token_matches_spec stored p :
  token_matches stored p = true ↔ stored = Some (trim p) ∧ trim p ≠ "".
Proof.
  unfold token_matches. destruct stored as [t|]; [|split; [done|by intros [? _]]].
  rewrite andb_true_iff, truthy_nonempty, String.eqb_eq. split.
  - intros [Ht <-]. done.
  - intros [[= ->] Ht]. done.
Qed.

(** C8 (as the code has it): once the request names an existing locker,
    its token is accepted exactly when the stored token is not empty and
    equals the presented token with the white space around it removed; any
    other presented token fails with TokenInvalid and the store is left as
    it was, and an accepted one never does. *)
Theorem token_accepted_iff_equal_after_trim :
  ∀ c db i locker,
    reaches_token_check c db i locker →
    (token_matches (Locker.lockerToken locker) (presented c) = true
     ↔ Locker.lockerToken locker = Some (trim (presented c))
       ∧ trim (presented c) ≠ "")
    ∧ (token_matches (Locker.lockerToken locker) (presented c) = false →
       step c db = (TokenInvalid, db))
    ∧ (token_matches (Locker.lockerToken locker) (presented c) = true →
       (step c db).1 ≠ TokenInvalid).
Proof.
  intros c db i locker R. split; [apply token_matches_spec|]. split.
  - by apply (step_token_invalid c db i locker).
  - intros T.
    destruct (findOne (by_resi_and_locker (tracking_number c) (target c)) (shipments db))
      as [[j shipment]|] eqn:S.
    + destruct (decide (Shipment.status shipment = "pending_locker")) as [St|St].
      * destruct (step_success c db i locker j shipment R T S St)
          as (r & l' & s' & -> & Hok & _). by destruct r.
      * by rewrite (step_invalid_state c db i locker j shipment).
    + rewrite (step_elsewhere c db i locker) by done.
      by destruct (findOne (by_resi _) _) as [[? ?]|].
Qed.

Lemma token_accepted_after_trim_witness :
  Locker.lockerToken Fixture.lockerA = Some (trim " LK-A1-0a0b0c0d0e0f ")
  ∧ trim " LK-A1-0a0b0c0d0e0f " ≠ "".
Proof.
  apply (token_accepted_iff_equal_after_trim
           (ViaResi 0%Z Fixture.rnd1
              (Fixture.resi_req "A1" " LK-A1-0a0b0c0d0e0f " "RESI00000001"))
           Fixture.db0 0 Fixture.lockerA).
  - repeat split; reflexivity.
  - reflexivity.
Defined.

(** C8, counterexample: a presented token with a space on either side is
    not byte-for-byte the stored token, and the deposit goes through. *)
Lemma token_not_compared_byte_for_byte :
  Locker.lockerToken Fixture.lockerA = Some "LK-A1-0a0b0c0d0e0f"
  ∧ String.eqb " LK-A1-0a0b0c0d0e0f " "LK-A1-0a0b0c0d0e0f" = false
  ∧ is_ok (deposit_resi 0%Z Fixture.rnd1
             (Fixture.resi_req "A1" " LK-A1-0a0b0c0d0e0f " "RESI00000001")
             Fixture.db0).1 = true
  ∧ is_ok (deposit_token 0%Z Fixture.rnd1
             (Fixture.token_req "A1" " LK-A1-0a0b0c0d0e0f " "RESI00000001")
             Fixture.db0).1 = true.
Proof. repeat split; vm_compute; reflexivity. Qed.

(** C6 (as the code has it): in the two token deposit operations, with a
    valid token, when shipments exist for the tracking number and all of
    them are assigned to other lockers, the deposit fails with WrongLocker,
    reports the locker of the shipment found, which is not the target, and
    changes nothing; it fails with ShipmentNotFound exactly when no shipment
    at all carries the tracking number.  The legacy deposit never answers
    WrongLocker: with its token right it answers NotPending when the number
    is not in the pending list of the target and changes nothing, and goes
    through when the number is in that list and a shipment carries it,
    whatever locker the shipment is assigned to. *)
Theorem wrong_locker_reported :
  (∀ c db i locker,
     reaches_token_check c db i locker →
     token_matches (Locker.lockerToken locker) (presented c) = true →
     (∀ j other,
        findOne (by_resi (tracking_number c)) (shipments db) = Some (j, other) →
        (∀ s, s ∈ shipments db → Shipment.resi s = tracking_number c →
              Shipment.lockerId s ≠ target c) →
        step c db = (WrongLocker (Shipment.lockerId other) (target c), db)
        ∧ Shipment.lockerId other ≠ target c)
     ∧ ((step c db).1 = ShipmentNotFound
        ↔ ∀ s, s ∈ shipments db → Shipment.resi s ≠ tracking_number c))
  ∧ (∀ now rnd0 rnd lockerId token resi db,
       (∀ expected scanned,
          (locker_deposit now rnd0 rnd lockerId token resi db).1
          ≠ WrongLocker expected scanned)
       ∧ (∀ i locker,
            findOne (by_lockerId lockerId) (lockers db) = Some (i, locker) →
            truthy token = true →
            truthy resi = true →
            Locker.lockerToken locker = Some token →
            (includes resi (Locker.pendingResi locker) = false →
             locker_deposit now rnd0 rnd lockerId token resi db
             = (NotPending (Locker.pendingResi locker), db))
            ∧ (includes resi (Locker.pendingResi locker) = true →
               ∀ j shipment,
                 findOne (by_resi resi) (shipments db) = Some (j, shipment) →
                 is_ok (locker_deposit now rnd0 rnd lockerId token resi db).1
                 = true))).
Proof.
  split.
  { intros c db i locker R T. split.
  - intros j other F Hall.
    assert (findOne (by_resi_and_locker (tracking_number c) (target c)) (shipments db)
            = None) as S.
    { apply findOne_None. intros s Hs. unfold by_resi_and_locker.
      destruct (String.eqb_spec (Shipment.resi s) (tracking_number c)) as [E|]; [|done].
      apply String.eqb_neq. by apply Hall. }
    rewrite (step_elsewhere c db i locker R T S), F. split; [done|].
    apply findOne_Some in F as [Hj Hq%String.eqb_eq].
    apply Hall; [by eapply list_elem_of_lookup_2|done].
  - destruct (findOne (by_resi_and_locker (tracking_number c) (target c)) (shipments db))
      as [[j shipment]|] eqn:S.
    + pose proof (findOne_Some _ _ _ _ S) as [Hj Hq].
      apply andb_true_iff in Hq as [Hq%String.eqb_eq _].
      split.
      * intros E. exfalso. revert E.
        destruct (decide (Shipment.status shipment = "pending_locker")) as [St|St].
        -- destruct (step_success c db i locker j shipment R T S St)
             as (r & l' & s' & -> & Hok & _). by destruct r.
        -- by rewrite (step_invalid_state c db i locker j shipment).
      * intros Hno. exfalso. apply (Hno shipment); [by eapply list_elem_of_lookup_2|done].
    + rewrite (step_elsewhere c db i locker R T S).
      destruct (findOne (by_resi (tracking_number c)) (shipments db))
        as [[j other]|] eqn:F.
      * pose proof (findOne_Some _ _ _ _ F) as [Hj Hq%String.eqb_eq].
        split; [done|]. intros Hno. exfalso.
        apply (Hno other); [by eapply list_elem_of_lookup_2|done].
      * split; [|done]. intros _ s Hs.
        apply String.eqb_neq. by apply (proj1 (findOne_None _ _) F). }
  intros now rnd0 rnd lockerId token resi db. split.
  - intros expected scanned. unfold locker_deposit.
    destruct (negb (truthy token) || negb (truthy resi)); [done|].
    destruct (getLocker rnd0 lockerId db) as [[i locker] db'].
    destruct (negb _); [done|]. destruct (negb _); [done|].
    by destruct (findOne _ _) as [[j shipment]|].
  - intros i locker F Ht Hr Htok. unfold locker_deposit, getLocker.
    rewrite Ht, Hr, F, Htok. cbn [negb orb from_option].
    rewrite String.eqb_refl. cbn [negb]. split.
    + by intros ->.
    + intros -> j shipment ->. done.
Qed.

Lemma wrong_locker_reported_witness :
  step (ViaResi 0%Z Fixture.rnd1 (Fixture.resi_req "B2" Fixture.tokenB "RESI00000001"))
       Fixture.db0
  = (WrongLocker "A1" "B2", Fixture.db0).
Proof.
  destruct (proj1 wrong_locker_reported
              (ViaResi 0%Z Fixture.rnd1
                 (Fixture.resi_req "B2" Fixture.tokenB "RESI00000001"))
              Fixture.db0 1 Fixture.lockerB) as [H _].
  - repeat split; reflexivity.
  - reflexivity.
  - apply (H 0 (Fixture.pending "RESI00000001" "A1")); [reflexivity|].
    intros s Hs _. cbn in Hs.
    repeat (apply elem_of_cons in Hs as [->|Hs]; [cbn; congruence|]).
    by apply elem_of_nil in Hs.
Defined.

(** C6, counterexample: the legacy deposit of a number whose shipment is
    assigned to locker A1, attempted at locker B2 with the token of B2,
    does not answer WrongLocker: it answers the 403 of the pending list,
    and when the pending list of B2 holds the number it goes through. *)
Lemma legacy_deposit_ignores_assigned_locker :
  Shipment.lockerId (Fixture.pending "RESI00000001" "A1") = "A1"
  ∧ findOne (by_resi "RESI00000001") (shipments Fixture.db0)
    = Some (0, Fixture.pending "RESI00000001" "A1")
  ∧ locker_deposit 3%Z Fixture.rnd1 Fixture.rnd2 "B2" Fixture.tokenB "RESI00000001"
      Fixture.db0
    = (NotPending [], Fixture.db0)
  ∧ is_ok (locker_deposit 3%Z Fixture.rnd1 Fixture.rnd2 "B2" Fixture.tokenB
             "RESI00000001" Scenario.db_misfiled).1 = true.
Proof. repeat split; vm_compute; reflexivity. Qed.

(** C9 (as the code has it): in the two token deposit operations an
    otherwise valid deposit whose tracking number is missing from
    [pendingResi] succeeds; the number is appended and removed again before
    the locker is saved, so the saved list is the old one and does not hold
    the number. *)
Theorem deposit_heals_pending_list :
  ∀ c db i locker j shipment,
    reaches_token_check c db i locker →
    token_matches (Locker.lockerToken locker) (presented c) = true →
    findOne (by_resi_and_locker (tracking_number c) (target c)) (shipments db)
    = Some (j, shipment) →
    Shipment.status shipment = "pending_locker" →
    includes (tracking_number c) (Locker.pendingResi locker) = false →
    is_ok (step c db).1 = true
    ∧ Locker.pendingResi (auto_fix (tracking_number c) locker)
      = (Locker.pendingResi locker ++ [tracking_number c])%list
    ∧ ∃ locker',
        lockers (step c db).2 !! i = Some locker'
        ∧ Locker.pendingResi locker'
          = List.filter (λ r, negb (String.eqb r (tracking_number c)))
              (Locker.pendingResi locker ++ [tracking_number c])%list
        ∧ Locker.pendingResi locker' = Locker.pendingResi locker
        ∧ includes (tracking_number c) (Locker.pendingResi locker') = false.
Proof.
  intros c db i locker j shipment R T S St Hmiss.
  destruct (step_success c db i locker j shipment R T S St)
    as (r & locker' & shipment' & -> & Hok & (Hid & Htok & Hpend) & _).
  assert (Locker.pendingResi (auto_fix (tracking_number c) locker)
          = (Locker.pendingResi locker ++ [tracking_number c])%list) as Hfix.
  { unfold auto_fix. by rewrite Hmiss. }
  split; [done|]. split; [done|]. exists locker'. cbn.
  destruct R as (_ & _ & _ & E). apply findOne_Some in E as [Hi _].
  split. { unfold save. apply list_lookup_insert_eq. by eapply lookup_lt_Some. }
  rewrite Hpend, Hfix. split; [done|]. split.
  - apply filter_after_push. by apply includes_false.
  - apply filter_removes.
Qed.

Lemma deposit_heals_pending_list_witness :
  is_ok (step (ViaToken 0%Z Fixture.rnd1
                 (Fixture.token_req "A1" Fixture.tokenA "RESI00000002"))
              Fixture.db0).1 = true.
Proof.
  apply (deposit_heals_pending_list
           (ViaToken 0%Z Fixture.rnd1
              (Fixture.token_req "A1" Fixture.tokenA "RESI00000002"))
           Fixture.db0 0 Fixture.lockerA 1 (Fixture.pending "RESI00000002" "A1")).
  - repeat split; reflexivity.
  - reflexivity.
  - reflexivity.
  - reflexivity.
  - reflexivity.
Defined.

(** C9, counterexample: the legacy locker deposit rejects the same
    deposit (valid token, existing shipment, tracking number missing from
    [pendingResi]) with 403 and changes nothing. *)
Lemma legacy_deposit_rejects_missing_pending :
  includes "RESI00000002" (Locker.pendingResi Fixture.lockerA) = false
  ∧ locker_deposit 0%Z Fixture.rnd1 Fixture.rnd2 "A1" Fixture.tokenA "RESI00000002"
      Fixture.db0
    = (NotPending ["RESI00000001"], Fixture.db0).
Proof. split; vm_compute; reflexivity. Qed.

(** *** The shape of generated tokens *)

Lemma strip_prefix_app w : ∀ h, strip_prefix false w (w +:+ h) = Some h.
Proof.
  induction w as [|a w IH]; intros h; [done|].
  rewrite str_app_cons. cbn. by rewrite Ascii.eqb_refl.
Qed.

Lemma strip_prefix_Some w : ∀ t h, strip_prefix false w t = Some h → t = w +:+ h.
Proof.
  induction w as [|a w IH]; intros t h; cbn.
  - by intros [= ->].
  - destruct t as [|c t]; [done|].
    destruct (Ascii.eqb_spec a c) as [->|]; [|done].
    intros H. rewrite str_app_cons. f_equal. by apply IH.
Qed.

Lemma hex_length rnd : String.length (hex rnd) = 12.
Proof. reflexivity. Qed.

Lemma generated_for_randomToken id rnd :
  generated_for id (randomToken ("LK-" +:+ id) rnd) = true.
Proof.
  unfold generated_for, randomToken.
  replace (("LK-" +:+ id) +:+ "-" +:+ hex rnd)
    with (("LK-" +:+ id +:+ "-") +:+ hex rnd).
  - by rewrite strip_prefix_app, hex_length.
  - change ("LK-" +:+ id +:+ "-") with (("LK-" +:+ id) +:+ "-").
    by rewrite str_app_assoc.
Qed.

(** A token has the generated shape for one locker only. *)
Lemma generated_for_inj a b t :
  generated_for a t = true → generated_for b t = true → a = b.
Proof.
  unfold generated_for.
  destruct (strip_prefix false ("LK-" +:+ a +:+ "-") t) as [h1|] eqn:E1; [|done].
  destruct (strip_prefix false ("LK-" +:+ b +:+ "-") t) as [h2|] eqn:E2; [|done].
  intros L1%Nat.eqb_eq L2%Nat.eqb_eq.
  apply strip_prefix_Some in E1, E2. subst t.
  apply str_app_same_tail_length in E2; [|congruence].
  injection E2 as E2. rewrite !str_app_nil in E2.
  by apply str_app_same_tail_length in E2.
Qed.

End DepositFacts.

(** ** Shipment status *)

Module StatusFacts.
Import JsString Token Deposit LockerLog Weight Spec BasicFacts DepositFacts.

Lemma status_rank_max s : (status_rank s ≤ 4)%nat.
Proof. unfold status_rank. repeat case_match; lia. Qed.

Lemma status_monotone_refl db : status_monotone db db.
Proof. apply Forall_Forall2_diag, Forall_forall. intros; lia. Qed.

(** Saving one shipment whose status did not move back keeps the order. *)
Lemma status_monotone_save (ls : list Locker.t) ts ls' ts' ss j s s' :
  ss !! j = Some s →
  (status_rank (Shipment.status s) ≤ status_rank (Shipment.status s'))%nat →
  status_monotone (mkDb ls ss ts) (mkDb ls' (save j s' ss) ts').
Proof.
  intros Hj Hle. unfold status_monotone, statuses, save. cbn.
  rewrite list_fmap_insert.
  rewrite <- (list_insert_id (Shipment.status <$> ss) j (Shipment.status s)) at 1
    by (by rewrite list_lookup_fmap, Hj).
  apply Forall2_insert; [|done].
  apply Forall_Forall2_diag, Forall_forall. intros; lia.
Qed.

Lemma status_monotone_step c db : status_monotone db (step c db).2.
Proof.
  destruct (step_inv c db) as [[_ ->]|
    (i & locker & j & shipment & r & locker' & shipment'
       & _ & _ & S & St & -> & _ & _ & (Hst & _))]; [apply status_monotone_refl|].
  destruct db as [ls ss ts]. cbn in *.
  apply findOne_Some in S as [Hj _].
  apply (status_monotone_save ls ts _ _ ss j shipment shipment' Hj).
  rewrite St, Hst. cbv. lia.
Qed.

Lemma status_monotone_plate now rnd tok plate db :
  status_monotone db (deposit_plate now rnd tok plate db).2.
Proof.
  unfold deposit_plate.
  destruct (negb (truthy tok) || negb (truthy plate)); [apply status_monotone_refl|].
  destruct (findOne (by_token (trim tok)) (lockers db)) as [[i locker]|];
    [|apply status_monotone_refl].
  destruct (findOne _ (shipments db)) as [[j shipment]|] eqn:S;
    [|apply status_monotone_refl].
  destruct db as [ls ss ts]. cbn in *.
  apply findOne_Some in S as [Hj Hq].
  apply (status_monotone_save ls ts _ _ ss j shipment _ Hj).
  unfold pending_for_plate in Hq.
  apply andb_true_iff in Hq as [[_ Hst%String.eqb_eq]%andb_true_iff _].
  rewrite Hst. cbv. lia.
Qed.

Lemma apply_event_rank event now entry s :
  (status_rank (Shipment.status s)
   ≤ status_rank (Shipment.status (apply_event event now (Shipment.push_log entry s))))%nat.
Proof.
  unfold apply_event. cbn.
  destruct (String.eqb event "opened_by_customer"); cbn.
  { apply status_rank_max. }
  destruct (String.eqb event "locker_closed"); cbn; [|lia].
  destruct (String.eqb_spec (Shipment.status s) "delivered_to_locker") as [->|];
    cbn; [cbv|]; lia.
Qed.

Lemma status_monotone_log now lockerId req db :
  status_monotone db (locker_log now lockerId req db).2.
Proof.
  unfold locker_log.
  assert (shipments (debug_trace now lockerId req db) = shipments db) as Hsame.
  { unfold debug_trace. repeat case_match; done. }
  destruct (LockerLog.Req.resi req) as [r|]; cbn.
  2: { unfold status_monotone, statuses. rewrite Hsame.
       apply Forall_Forall2_diag, Forall_forall. intros; lia. }
  destruct (findOne (by_resi r) (shipments db)) as [[j s]|] eqn:S; cbn.
  2: { unfold status_monotone, statuses. rewrite Hsame.
       apply Forall_Forall2_diag, Forall_forall. intros; lia. }
  rewrite Hsame. apply findOne_Some in S as [Hj _].
  destruct db as [ls ss ts]. cbn in *.
  apply (status_monotone_save ls ts _ _ ss j s _ Hj), apply_event_rank.
Qed.

Lemma status_monotone_finalize now lockerId st :
  status_monotone (Weight.db st) (Weight.db (weight_finalize now lockerId st).2).
Proof.
  unfold weight_finalize.
  repeat case_match; cbn; try apply status_monotone_refl.
  match goal with H : findOne _ _ = Some _ |- _ => apply findOne_Some in H as [Hj _] end.
  destruct (Weight.db st) as [ls ss ts]. cbn in *.
  eapply status_monotone_save; [done|]. cbn. lia.
Qed.

(** The two token deposit operations, the deposit by plate, the
    controller's log events and the weight finalization never move a
    shipment back. *)
Lemma status_never_moves_back_elsewhere :
  (∀ c db, status_monotone db (step c db).2)
  ∧ (∀ now rnd tok plate db,
       status_monotone db (deposit_plate now rnd tok plate db).2)
  ∧ (∀ now lockerId req db, status_monotone db (locker_log now lockerId req db).2)
  ∧ (∀ now lockerId st,
       status_monotone (Weight.db st)
         (Weight.db (weight_finalize now lockerId st).2)).
Proof.
  split; [|split; [|split]].
  - apply status_monotone_step.
  - apply status_monotone_plate.
  - apply status_monotone_log.
  - apply status_monotone_finalize.
Qed.

(** C7, the failing run: the customer's opening is logged for a shipment
    that still waits for its deposit, which completes it; the legacy locker
    deposit, which checks [pendingResi] but not the status, then accepts
    the tracking number and sets the shipment back to delivered_to_locker. *)
Theorem legacy_deposit_moves_status_back :
  let opened :=
    (locker_log 1%Z "A1"
       (LockerLog.Req.mk "opened_by_customer" (Some "RESI00000001") None)
       Fixture.db0).2 in
  let deposited :=
    locker_deposit 2%Z Fixture.rnd1 Fixture.rnd2 "A1" Fixture.tokenA
      "RESI00000001" opened in
  statuses Fixture.db0 = ["pending_locker"; "pending_locker"]
  ∧ statuses opened = ["completed"; "pending_locker"]
  ∧ is_ok deposited.1 = true
  ∧ statuses deposited.2 = ["delivered_to_locker"; "pending_locker"]
  ∧ (status_rank "delivered_to_locker" <? status_rank "completed")%nat = true.
Proof. repeat split; vm_compute; reflexivity. Qed.

End StatusFacts.

(** ** Weight sessions *)

Module WeightFacts.
Import JsString Deposit Weight Spec BasicFacts.

Lemma first_last_ends (a b : Reading.t) (mid : list Reading.t) :
  first_last (a :: mid ++ [b])%list = Some (Reading.weight a, Reading.weight b).
Proof.
  unfold first_last.
  replace (length (a :: mid ++ [b])%list - 1)%nat with (length (a :: mid))
    by (cbn; rewrite length_app; cbn; lia).
  change (a :: mid ++ [b])%list with ((a :: mid) ++ [b])%list.
  rewrite (list_lookup_middle (a :: mid) [] b (length (a :: mid)) eq_refl).
  done.
Qed.

Lemma first_last_Some (readings : list Reading.t) :
  (2 ≤ length readings)%nat → is_Some (first_last readings).
Proof.
  intros H. unfold first_last.
  destruct (lookup_lt_is_Some_2 readings 0) as [a ->]; [lia|].
  destruct (lookup_lt_is_Some_2 readings (length readings - 1)) as [b ->]; [lia|].
  done.
Qed.

(** C5 (as the code has it): on an active session with fewer than two
    readings finalize fails with InsufficientReadings and changes nothing;
    otherwise the package weight is the absolute difference of the first and
    the last reading rounded to three decimals, whatever lies between them,
    and it is what is stored and answered when the shipment has no weight
    yet; for 5.0, 4.8, 4.6, 4.5, 4.3 it is 0.7. *)
Theorem finalize_differential_weight :
  (∀ now lockerId st session,
     weightSessions st !! lockerId = Some session →
     Session.active session = true →
     (length (Session.readings session) < 2)%nat →
     weight_finalize now lockerId st = (InsufficientReadings, st))
  ∧ (∀ now lockerId st session a mid b j shipment,
       weightSessions st !! lockerId = Some session →
       Session.active session = true →
       Session.readings session = (a :: mid ++ [b])%list →
       findOne (by_resi (Session.resi session)) (shipments (db st))
       = Some (j, shipment) →
       Shipment.weight shipment = None →
       let w := JsNumber.toFixed3
                  (JsNumber.abs_diff (Reading.weight a) (Reading.weight b)) in
       (weight_finalize now lockerId st).1
       = WeightRecorded (Shipment.resi shipment) w (Reading.weight a)
           (Reading.weight b) (length (Session.readings session))
       ∧ ∃ shipment',
           shipments (db (weight_finalize now lockerId st).2) !! j = Some shipment'
           ∧ Shipment.weight shipment' = Some w
           ∧ Shipment.weightRecordedAt shipment' = Some now)
  ∧ (∀ mid : list float,
       first_last (Reading.mk 5.0%float 1%Z
                   :: ((λ x, Reading.mk x 1%Z) <$> mid)
                   ++ [Reading.mk 4.3%float 1%Z])%list
       = Some (5.0%float, 4.3%float))
  ∧ packageWeight 5.0%float 4.3%float = 0.7%float
  ∧ (weight_finalize 9%Z "A1"
       (Fixture.measuring [5.0; 4.8; 4.6; 4.5; 4.3]%float None)).1
    = WeightRecorded "RESI00000001" 0.7%float 5.0%float 4.3%float 5.
Proof.
  split; [|split; [|split; [|split]]].
  - intros now lockerId st session Hs Ha Hl. unfold weight_finalize.
    rewrite Hs, Ha. cbn [negb].
    by apply Nat.ltb_lt in Hl as ->.
  - intros now lockerId st session a mid b j shipment Hs Ha Hr Hf Hw w.
    unfold weight_finalize. rewrite Hs, Ha. cbn [negb].
    assert ((length (Session.readings session) <? 2)%nat = false) as ->.
    { apply Nat.ltb_ge. rewrite Hr. cbn. rewrite length_app. cbn. lia. }
    assert (first_last (Session.readings session)
            = Some (Reading.weight a, Reading.weight b)) as ->
      by (rewrite Hr; apply first_last_ends).
    rewrite Hf, Hw. cbn.
    split; [done|]. eexists. split.
    + unfold save. apply list_lookup_insert_eq.
      apply findOne_Some in Hf as [Hj _]. by eapply lookup_lt_Some.
    + done.
  - intros mid. apply first_last_ends.
  - vm_compute. reflexivity.
  - vm_compute. reflexivity.
Qed.

Lemma finalize_differential_weight_witness :
  weight_finalize 9%Z "A1" (Fixture.measuring [5.0]%float None)
  = (InsufficientReadings, Fixture.measuring [5.0]%float None).
Proof.
  destruct finalize_differential_weight as (H & _).
  eapply H; [reflexivity | reflexivity | cbn; lia].
Defined.

(** C5, counterexample: for the readings 1.0004 and 0 the recorded package
    weight is 1 while the absolute difference of the two readings is
    1.0004. *)
Lemma package_weight_is_rounded :
  (weight_finalize 9%Z "A1" (Fixture.measuring [1.0004; 0]%float None)).1
  = WeightRecorded "RESI00000001" 1%float 1.0004%float 0%float 2
  ∧ JsNumber.abs_diff 1.0004%float 0%float = 1.0004%float
  ∧ PrimFloat.eqb 1.0004%float 1%float = false.
Proof. repeat split; vm_compute; reflexivity. Qed.

(** C4 (as the code has it): when the shipment of an active session with
    at least two readings already has a weight, finalize answers success
    with that weight, leaves the store as it was and marks the session
    inactive; finalize called again right after fails with NoActiveSession
    and changes nothing. *)
Theorem finalize_twice_after_weight_recorded :
  ∀ now1 now2 lockerId st session j shipment w,
    weightSessions st !! lockerId = Some session →
    Session.active session = true →
    (2 ≤ length (Session.readings session))%nat →
    findOne (by_resi (Session.resi session)) (shipments (db st))
    = Some (j, shipment) →
    Shipment.weight shipment = Some w →
    let first_ := weight_finalize now1 lockerId st in
    first_.1 = AlreadyRecorded (Shipment.resi shipment) w
                 (Shipment.weightRecordedAt shipment)
    ∧ db first_.2 = db st
    ∧ weightSessions first_.2
      = <[lockerId := Session.deactivate session]> (weightSessions st)
    ∧ weight_finalize now2 lockerId first_.2 = (NoActiveSession, first_.2).
Proof.
  intros now1 now2 lockerId st session j shipment w Hs Ha Hl Hf Hw.
  assert (weight_finalize now1 lockerId st
          = (AlreadyRecorded (Shipment.resi shipment) w
               (Shipment.weightRecordedAt shipment),
             mkState (<[lockerId := Session.deactivate session]> (weightSessions st))
               (db st))) as E.
  { unfold weight_finalize. rewrite Hs, Ha. cbn [negb].
    assert ((length (Session.readings session) <? 2)%nat = false) as ->
      by (apply Nat.ltb_ge; lia).
    destruct (first_last_Some _ Hl) as [[a b] ->]. by rewrite Hf, Hw. }
  cbn zeta. rewrite E. cbn [fst snd db weightSessions].
  repeat split; try done.
  unfold weight_finalize. cbn [weightSessions].
  by rewrite lookup_insert_eq.
Qed.

Lemma finalize_twice_witness :
  weight_finalize 8%Z "A1"
    (weight_finalize 7%Z "A1"
       (Fixture.measuring [5.0; 4.3]%float (Some 0.7%float))).2
  = (NoActiveSession,
     (weight_finalize 7%Z "A1"
        (Fixture.measuring [5.0; 4.3]%float (Some 0.7%float))).2).
Proof.
  eapply (finalize_twice_after_weight_recorded 7%Z 8%Z "A1"
            (Fixture.measuring [5.0; 4.3]%float (Some 0.7%float))).
  - reflexivity.
  - reflexivity.
  - cbn. lia.
  - reflexivity.
  - reflexivity.
Defined.

(** C4, counterexample: with a weight already recorded the first finalize
    succeeds and the second one, called right after, does not. *)
Lemma second_finalize_fails :
  let st := Fixture.measuring [5.0; 4.3]%float (Some 0.7%float) in
  is_success (weight_finalize 7%Z "A1" st).1 = true
  ∧ (weight_finalize 8%Z "A1" (weight_finalize 7%Z "A1" st).2).1 = NoActiveSession
  ∧ is_success (weight_finalize 8%Z "A1" (weight_finalize 7%Z "A1" st).2).1 = false.
Proof. repeat split; vm_compute; reflexivity. Qed.

End WeightFacts.

(** ** Validation *)

Module ValidationFacts.
Import JsString Regex Deposit Binderbyte Validation Spec BasicFacts.

Lemma truthy_trim resi : truthy (trim resi) = true → truthy resi = true.
Proof. by destruct resi. Qed.

Lemma findOne_snoc {A} (q : A → bool) (docs : list A) (d : A) :
  findOne q (docs ++ [d])
  = match findOne q docs with
    | Some r => Some r
    | None => if q d then Some (length docs, d) else None
    end.
Proof.
  induction docs as [|x docs IH]; cbn.
  - by destruct (q d).
  - destruct (q x); [done|]. rewrite IH.
    destruct (findOne q docs) as [[k y]|]; [done|]. by destruct (q d).
Qed.

(** Whenever the cache misses and the verifier loop finds no carrier, the
    read of [highConfidence] throws and the handler answers 500. *)
Lemma exhausted_verifier_answers_500 key provider now userId resi jne db :
  truthy (trim resi) = true →
  findOne (own_record (toUpperCase (trim resi)) userId) (trackings db) = None →
  findOne (cached_record (toUpperCase (trim resi))) (trackings db) = None →
  truthy key = true →
  (tryCouriers provider jne (toUpperCase (trim resi)) courierPriority).1 = None →
  ∃ calls,
    manual_resi key provider now userId resi jne db = (InternalError, db, calls).
Proof.
  intros Ht Hown Hcache Hkey Hnone. unfold manual_resi.
  rewrite (truthy_trim _ Ht), Ht, Hown, Hcache, Hkey. cbn [negb orb].
  destruct (tryCouriers _ _ _ _) as [result calls]. cbn in Hnone. subst result.
  by exists calls.
Qed.

(** C1, the failing submission: twelve digits, nothing cached, a provider
    that confirms no carrier.  The detector does name a carrier for the
    number, the loop asks the nine carriers that need no auxiliary code, and
    the answer is the 500 of the handler's catch block: neither NotFound nor
    an acceptance. *)
Theorem unconfirmed_number_answers_500 :
  manual_resi "key" Fixture.provider_none 3%Z "user1" "123456789012" None Fixture.db0
  = (InternalError, Fixture.db0,
     (λ courier, mkCall courier "123456789012" None)
       <$> ["jnt"; "sicepat"; "anteraja"; "ninja"; "pos"; "tiki"; "wahana";
            "lion"; "rpx"])
  ∧ http_status
      (manual_resi "key" Fixture.provider_none 3%Z "user1" "123456789012" None
         Fixture.db0).1.1 = 500
  ∧ Detector.detected (Detector.detectCourierType "123456789012") = true.
Proof. repeat split; vm_compute; reflexivity. Qed.

(** C3 (as the code has it): when a validated record exists for the
    cleaned tracking number and the requester has no record of it yet, the
    submission makes no provider call, answers from the cache with the
    record's carrier and snapshot, and adds one record for the requester
    that carries both; in particular, after a requester's submission was
    validated by the provider, the submission of the same number by any
    other requester without a record of it is answered from the cache,
    with that carrier and snapshot and no provider call.  A requester who
    already has a record of the number is answered AlreadySubmitted instead,
    with the date of that record, no provider call and no new record. *)
Theorem cached_number_needs_no_provider_call :
  (∀ key provider now userId resi jne db j cached,
     truthy (trim resi) = true →
     findOne (own_record (toUpperCase (trim resi)) userId) (trackings db) = None →
     findOne (cached_record (toUpperCase (trim resi))) (trackings db)
     = Some (j, cached) →
     ∃ t,
       manual_resi key provider now userId resi jne db
       = (FromCache (toUpperCase (trim resi)) (CustomerTracking.courierType cached)
            (assign_locker userId db) (CustomerTracking.binderbyteData cached) now,
          set_trackings (trackings db ++ [t]) db, [])
       ∧ CustomerTracking.customerId t = userId
       ∧ CustomerTracking.resi t = toUpperCase (trim resi)
       ∧ CustomerTracking.courierType t = CustomerTracking.courierType cached
       ∧ CustomerTracking.binderbyteData t = CustomerTracking.binderbyteData cached
       ∧ CustomerTracking.validated t = true)
  ∧ (∀ key provider now userA resiA jneA db clean courier assigned payload created
       db1 calls provider' now' userB resiB jneB,
       manual_resi key provider now userA resiA jneA db
       = (Validated clean courier assigned payload created, db1, calls) →
       toUpperCase (trim resiB) = toUpperCase (trim resiA) →
       truthy (trim resiB) = true →
       userB ≠ userA →
       findOne (own_record clean userB) (trackings db) = None →
       ∃ db2,
         manual_resi key provider' now' userB resiB jneB db1
         = (FromCache clean courier (assign_locker userB db1)
              (Some (BinderData.mk (default "" (summary payload)) (Some now))) now',
            db2, []))
  ∧ (∀ key provider now userId resi jne db i existing,
       truthy (trim resi) = true →
       findOne (own_record (toUpperCase (trim resi)) userId) (trackings db)
       = Some (i, existing) →
       manual_resi key provider now userId resi jne db
       = (AlreadySubmitted (toUpperCase (trim resi))
            (CustomerTracking.createdAt existing), db, [])).
Proof.
  assert (∀ key provider now userId resi jne db j cached,
     truthy (trim resi) = true →
     findOne (own_record (toUpperCase (trim resi)) userId) (trackings db) = None →
     findOne (cached_record (toUpperCase (trim resi))) (trackings db)
     = Some (j, cached) →
     ∃ t,
       manual_resi key provider now userId resi jne db
       = (FromCache (toUpperCase (trim resi)) (CustomerTracking.courierType cached)
            (assign_locker userId db) (CustomerTracking.binderbyteData cached) now,
          set_trackings (trackings db ++ [t]) db, [])
       ∧ CustomerTracking.customerId t = userId
       ∧ CustomerTracking.resi t = toUpperCase (trim resi)
       ∧ CustomerTracking.courierType t = CustomerTracking.courierType cached
       ∧ CustomerTracking.binderbyteData t = CustomerTracking.binderbyteData cached
       ∧ CustomerTracking.validated t = true) as Hit.
  { intros key provider now userId resi jne db j cached Ht Hown Hcache.
    unfold manual_resi.
    rewrite (truthy_trim _ Ht), Ht, Hown, Hcache. cbn [negb orb].
    eexists. split; [reflexivity|]. done. }
  split; [exact Hit|]. split.
  2: { intros key provider now userId resi jne db i existing Ht Hown.
       unfold manual_resi. by rewrite (truthy_trim _ Ht), Ht, Hown. }
  intros key provider now userA resiA jneA db clean courier assigned payload created
    db1 calls provider' now' userB resiB jneB Hval Hsame Ht Hne Hown.
  unfold manual_resi in Hval.
  destruct (negb (truthy resiA) || negb (truthy (trim resiA))); [done|].
  destruct (findOne (own_record _ userA) _) as [[? ?]|]; [done|].
  destruct (findOne (cached_record _) (trackings db)) as [[? ?]|] eqn:Hmiss; [done|].
  destruct (negb (truthy key)); [done|].
  destruct (tryCouriers _ _ _ _) as [[[validCourier result]|] calls'];
    [|done].
  injection Hval as <- <- <- <- <- <- <-.
  rewrite <- Hsame in *.
  match goal with
  | |- ∃ _, manual_resi _ _ _ _ _ _ (set_trackings (create ?t _) _) = _ =>
      destruct (Hit key provider' now' userB resiB jneB
                  (set_trackings (create t (trackings db)) db)
                  (length (trackings db)) t) as (t' & E & _)
  end.
  - done.
  - unfold create. cbn. rewrite findOne_snoc, Hown.
    unfold own_record. cbn.
    destruct (String.eqb_spec userA userB) as [->|]; [done|].
    by rewrite andb_false_r.
  - unfold create. cbn. rewrite findOne_snoc, Hmiss.
    unfold cached_record. cbn.
    by rewrite String.eqb_refl.
  - eexists. exact E.
Qed.

Lemma cached_number_witness :
  ∃ db2,
    manual_resi "key" Fixture.provider_none 4%Z "user2" " jx8009962760 " None
      (manual_resi "key" Fixture.provider_jnt 3%Z "user1" "JX8009962760" None
         Fixture.db0).1.2
    = (FromCache "JX8009962760" "jnt" (Some "B2")
         (Some (BinderData.mk "DELIVERED" (Some 3%Z))) 4%Z, db2, []).
Proof.
  refine (proj1 (proj2 cached_number_needs_no_provider_call)
            "key" Fixture.provider_jnt 3%Z "user1" "JX8009962760" None Fixture.db0
            "JX8009962760" "jnt" (Some "A1")
            (mkPayload (Some "DELIVERED") "detail" "history") 3%Z
            (manual_resi "key" Fixture.provider_jnt 3%Z "user1" "JX8009962760" None
               Fixture.db0).1.2
            (manual_resi "key" Fixture.provider_jnt 3%Z "user1" "JX8009962760" None
               Fixture.db0).2
            Fixture.provider_none 4%Z "user2" " jx8009962760 " None _ _ _ _ _).
  - vm_compute. reflexivity.
  - reflexivity.
  - reflexivity.
  - discriminate.
  - reflexivity.
Defined.

(** C3, counterexample: the requester whose submission was validated
    submits the same number again; the answer is AlreadySubmitted, not an
    answer from the cache, and no record is added. *)
Lemma same_requester_is_rejected :
  let first_ :=
    manual_resi "key" Fixture.provider_jnt 3%Z "user1" "JX8009962760" None
      Fixture.db0 in
  first_.1.1 = Validated "JX8009962760" "jnt" (Some "A1")
                 (mkPayload (Some "DELIVERED") "detail" "history") 3%Z
  ∧ manual_resi "key" Fixture.provider_jnt 4%Z "user1" "JX8009962760" None first_.1.2
    = (AlreadySubmitted "JX8009962760" 3%Z, first_.1.2, []).
Proof. split; vm_compute; reflexivity. Qed.

End ValidationFacts.

(** ** Cleaning of tracking numbers *)

Module CleanFacts.
Import JsString Regex Sanitize Spec BasicFacts RegexFacts.

Lemma white_space_upper c : is_white_space (upper_char c) = is_white_space c.
Proof. destruct c as [[] [] [] [] [] [] [] []]; vm_compute; reflexivity. Qed.

Lemma upper_upper c : upper_char (upper_char c) = upper_char c.
Proof. destruct c as [[] [] [] [] [] [] [] []]; vm_compute; reflexivity. Qed.

Lemma AZ09_plain c :
  is_upper c || is_digit c = true →
  is_white_space c = false ∧ upper_char c = c.
Proof. destruct c as [[] [] [] [] [] [] [] []]; vm_compute; split; congruence. Qed.

Lemma toUpperCase_length s : String.length (toUpperCase s) = String.length s.
Proof. induction s as [|c s IH]; simpl; [done|]. by rewrite IH. Qed.

Lemma toUpperCase_idem s : toUpperCase (toUpperCase s) = toUpperCase s.
Proof. induction s as [|c s IH]; simpl; [done|]. by rewrite upper_upper, IH. Qed.

Lemma truthy_upper s : truthy (toUpperCase s) = truthy s.
Proof. by destruct s. Qed.

Lemma trimStart_upper s : trimStart (toUpperCase s) = toUpperCase (trimStart s).
Proof.
  induction s as [|c s IH]; simpl; [done|].
  rewrite white_space_upper. by destruct (is_white_space c).
Qed.

Lemma trimEnd_upper s : trimEnd (toUpperCase s) = toUpperCase (trimEnd s).
Proof.
  induction s as [|c s IH]; simpl; [done|].
  rewrite IH, white_space_upper.
  destruct (trimEnd s); simpl; [|done]. by destruct (is_white_space c).
Qed.

Lemma trim_upper s : trim (toUpperCase s) = toUpperCase (trim s).
Proof. unfold trim. by rewrite trimStart_upper, trimEnd_upper. Qed.

(** What [trimStart] returns is empty or starts with a visible character. *)
Definition starts_visible (s : string) : Prop :=
  match s with
  | EmptyString => True
  | String c _ => is_white_space c = false
  end.

Lemma trimStart_visible s : starts_visible (trimStart s).
Proof.
  induction s as [|c s IH]; simpl; [done|].
  destruct (is_white_space c) eqn:E; [done|]. simpl. done.
Qed.

Lemma trimStart_of_visible s : starts_visible s → trimStart s = s.
Proof. destruct s as [|c s]; simpl; [done|]. by intros ->. Qed.

Lemma trimEnd_visible s : starts_visible s → starts_visible (trimEnd s).
Proof.
  destruct s as [|c s]; simpl; [done|]. intros Hc.
  destruct (trimEnd s); simpl; [by rewrite Hc|done].
Qed.

Lemma trimEnd_idem s : trimEnd (trimEnd s) = trimEnd s.
Proof.
  induction s as [|c s IH]; simpl; [done|].
  destruct (trimEnd s) as [|d t] eqn:E.
  - destruct (is_white_space c) eqn:Hc; simpl; [done|]. by rewrite Hc.
  - simpl. simpl in IH. destruct (trimEnd t) as [|e u].
    + destruct (is_white_space d); [done|]. by injection IH as ->.
    + by rewrite IH.
Qed.

Lemma trim_idem s : trim (trim s) = trim s.
Proof.
  unfold trim.
  rewrite (trimStart_of_visible (trimEnd (trimStart s)))
    by apply trimEnd_visible, trimStart_visible.
  apply trimEnd_idem.
Qed.

(** The cleaned form [resi.trim().toUpperCase()] is a fixed point of the
    cleaning. *)
Lemma clean_idem s :
  toUpperCase (trim (toUpperCase (trim s))) = toUpperCase (trim s).
Proof. by rewrite trim_upper, trim_idem, toUpperCase_idem. Qed.

Lemma trimEnd_plain s :
  all_chars (λ c, is_upper c || is_digit c) s = true → trimEnd s = s.
Proof.
  induction s as [|c s IH]; [done|]. simpl.
  intros [Hc Hs]%andb_true_iff. rewrite (IH Hs).
  destruct (AZ09_plain c Hc) as [Hw _]. destruct s; [by rewrite Hw|done].
Qed.

Lemma all_chars_no_white_space s :
  all_chars (λ c, is_upper c || is_digit c) s = true →
  trim s = s ∧ remove_white_space s = s ∧ toUpperCase s = s.
Proof.
  intros Hall. split.
  - unfold trim. destruct s as [|c s]; [done|].
    pose proof Hall as Hall'. simpl in Hall'.
    apply andb_true_iff in Hall' as [Hc _].
    destruct (AZ09_plain c Hc) as [Hw _].
    assert (trimStart (String c s) = String c s) as -> by (simpl; by rewrite Hw).
    by apply trimEnd_plain.
  - induction s as [|c s IH]; [done|]. simpl in *.
    apply andb_true_iff in Hall as [Hc Hs].
    destruct (AZ09_plain c Hc) as [Hw Hu]. destruct (IH Hs) as [Hr Hup].
    by rewrite Hw, Hu, Hr, Hup.
Qed.

(** X1: what [sanitizeResi] returns has at least eight characters, all of
    them upper-case letters or digits, and is a fixed point of
    [sanitizeResi]. *)
Theorem sanitizeResi_normal_form :
  ∀ resi cleaned,
    sanitizeResi resi = Some cleaned →
    (8 ≤ String.length cleaned)%nat
    ∧ all_chars (λ c, is_upper c || is_digit c) cleaned = true
    ∧ sanitizeResi cleaned = Some cleaned.
Proof.
  intros resi cleaned. unfold sanitizeResi.
  destruct (negb (truthy resi)); [done|].
  set (c := toUpperCase (remove_white_space (trim resi))).
  destruct ((String.length c <? 8)%nat) eqn:Hlen; [done|].
  destruct (test false (re_upper_alnum (String.length c)) c) eqn:Ht; [|done].
  simpl. intros [= <-]. apply Nat.ltb_ge in Hlen.
  unfold re_upper_alnum, AZ09 in Ht. rewrite test_Rep_Cls in Ht.
  apply andb_true_iff in Ht as [[Hall _]%andb_true_iff _].
  assert (all_chars (λ ch, is_upper ch || is_digit ch) c = true) as Hall'
    by (by rewrite <- Hall).
  split; [done|]. split; [done|].
  destruct (all_chars_no_white_space c Hall') as (Htrim & Hrm & Hup).
  assert (truthy c = true) as -> by (destruct c; [simpl in Hlen; lia|done]).
  cbn [negb]. rewrite Htrim, Hrm, Hup.
  apply Nat.ltb_ge in Hlen. rewrite Hlen.
  unfold re_upper_alnum, AZ09. rewrite test_Rep_Cls.
  unfold canon. rewrite Hall'. apply Nat.ltb_ge in Hlen.
  assert ((1 <=? String.length c)%nat = true) as -> by (apply Nat.leb_le; lia).
  by rewrite Nat.leb_refl.
Qed.

Lemma sanitizeResi_normal_form_witness :
  (8 ≤ String.length "JX8009962760")%nat
  ∧ all_chars (λ c, is_upper c || is_digit c) "JX8009962760" = true
  ∧ sanitizeResi "JX8009962760" = Some "JX8009962760".
Proof.
  apply (sanitizeResi_normal_form " jx 8009 962760 " "JX8009962760").
  reflexivity.
Defined.

End CleanFacts.

(** ** Carrier detector: the rules that cannot fire, and letter case *)

Module DetectorReach.
Import JsString Regex Detector Spec BasicFacts RegexFacts DetectorFacts CleanFacts.

Lemma matchK_Rep_unfold i r lo hi s k :
  matchK i (Rep r lo (S hi)) s k
  = ((lo =? 0)%nat && k s)
    || matchK i r s (λ s', matchK i (Rep r (pred lo) hi) s' k).
Proof. reflexivity. Qed.

Lemma matchK_Seq i r1 r2 s k :
  matchK i (Seq r1 r2) s k = matchK i r1 s (λ s', matchK i r2 s' k).
Proof. reflexivity. Qed.

Lemma matchK_Rep_0 i r lo s k :
  matchK i (Rep r lo 0) s k = (lo =? 0)%nat && k s.
Proof. reflexivity. Qed.

(** A bounded repetition of a class followed by anything: the input
    splits into the repeated characters and what the rest accepts. *)
Lemma matchK_Rep_Cls_split i p k hi : ∀ lo s,
  matchK i (Rep (Cls p) lo hi) s k = true →
  ∃ pre post,
    s = pre +:+ post
    ∧ all_chars (λ c, p (canon i c)) pre = true
    ∧ (lo ≤ String.length pre ≤ hi)%nat
    ∧ k post = true.
Proof.
  induction hi as [|hi IH]; intros lo s.
  - rewrite matchK_Rep_0. intros [Hlo Hk]%andb_true_iff.
    apply Nat.eqb_eq in Hlo as ->. exists "", s. by rewrite str_app_nil.
  - rewrite matchK_Rep_unfold.
    intros [[Hlo Hk]%andb_true_iff | H]%orb_true_iff.
    + apply Nat.eqb_eq in Hlo as ->. exists "", s. rewrite str_app_nil.
      repeat split; simpl; try done; lia.
    + destruct s as [|c s]; [done|]. simpl in H.
      apply andb_true_iff in H as [Hc H].
      destruct (IH _ _ H) as (pre & post & -> & Hall & Hlen & Hk).
      exists (String c pre), post. rewrite str_app_cons.
      repeat split; simpl; try done; [by rewrite Hc, Hall|lia..].
Qed.

Lemma all_chars_app p s t :
  all_chars p (s +:+ t) = all_chars p s && all_chars p t.
Proof.
  induction s as [|c s IH]; [by rewrite str_app_nil|].
  rewrite str_app_cons. simpl. by rewrite IH, andb_assoc.
Qed.

(** Putting back a prefix of letters that was matched under the [i]
    flag keeps a string of letters and digits one. *)
Lemma strip_prefix_alnum w : ∀ s t,
  all_chars is_upper w = true →
  strip_prefix true w s = Some t →
  all_chars is_alnum t = true → all_chars is_alnum s = true.
Proof.
  induction w as [|a w IH]; intros s t; simpl.
  - by intros _ [= ->].
  - intros [Ha Hw]%andb_true_iff. destruct s as [|c s]; [done|].
    destruct (Ascii.eqb (upper_char a) (upper_char c)) eqn:E; [|done].
    intros Hs Ht. simpl. rewrite (ci_letter_alnum a c Ha E). simpl. eauto.
Qed.

Lemma digits_alnum s : all_chars is_digit s = true → all_chars is_alnum s = true.
Proof. apply all_chars_impl, digit_alnum. Qed.

(** What the two POS patterns accept is a string of 13 letters and
    digits. *)
Lemma pos_is_alnum_13 resi :
  test true re_pos_rr resi || test true re_pos_13 resi = true →
  String.length resi = 13 ∧ all_chars is_alnum resi = true.
Proof.
  intros [H|H]%orb_true_iff.
  - unfold re_pos_rr, test in H.
    rewrite matchK_Seq, matchK_Lit in H.
    destruct (strip_prefix true "RR" resi) as [t|] eqn:Hp; [|done].
    cbn [from_option] in H. rewrite matchK_Seq in H.
    apply matchK_Rep_Cls_split in H as (pre & post & -> & Hall & Hlen & Hk).
    rewrite matchK_Lit in Hk.
    destruct (strip_prefix true "ID" post) as [u|] eqn:Hq; [|done].
    simpl in Hk. destruct u; [|done].
    pose proof (strip_prefix_length _ _ _ _ Hp) as L1.
    pose proof (strip_prefix_length _ _ _ _ Hq) as L2.
    rewrite str_length_app in L1. simpl in L1, L2. split; [lia|].
    apply (strip_prefix_alnum "RR" _ _ eq_refl Hp).
    rewrite all_chars_app. apply andb_true_iff. split.
    + apply digits_alnum. erewrite all_chars_ext; [exact Hall|].
      intros c. symmetry. apply digit_upper.
    + by apply (strip_prefix_alnum "ID" _ _ eq_refl Hq).
  - unfold re_pos_13 in H. rewrite test_digits in H.
    apply andb_true_iff in H as [[Hall Hlo%Nat.leb_le]%andb_true_iff Hhi%Nat.leb_le].
    split; [lia|by apply digits_alnum].
Qed.

(** What the Ninja pattern accepts is a string of letters and digits,
    of 14 to 18 characters behind NLIDAP and of 10 to 14 behind NV. *)
Lemma ninja_is_alnum resi :
  test true re_ninja resi = true →
  all_chars is_alnum resi = true
  ∧ ((strip_prefix true "NLIDAP" resi ≠ None ∧ (14 ≤ String.length resi ≤ 18)%nat)
     ∨ (10 ≤ String.length resi ≤ 14)%nat).
Proof.
  unfold re_ninja. rewrite test_two_prefixes.
  intros [H|H]%orb_true_iff.
  - destruct (strip_prefix true "NLIDAP" resi) as [t|] eqn:Hp; [|done].
    simpl in H. rewrite test_digits in H.
    apply andb_true_iff in H as [[Hall Hlo%Nat.leb_le]%andb_true_iff Hhi%Nat.leb_le].
    pose proof (strip_prefix_length _ _ _ _ Hp) as L. simpl in L.
    split; [|left; split; [done|lia]].
    apply (strip_prefix_alnum "NLIDAP" _ _ eq_refl Hp). by apply digits_alnum.
  - destruct (strip_prefix true "NV" resi) as [t|] eqn:Hp; [|done].
    simpl in H. rewrite test_digits in H.
    apply andb_true_iff in H as [[Hall Hlo%Nat.leb_le]%andb_true_iff Hhi%Nat.leb_le].
    pose proof (strip_prefix_length _ _ _ _ Hp) as L. simpl in L.
    split; [|right; lia].
    apply (strip_prefix_alnum "NV" _ _ eq_refl Hp). by apply digits_alnum.
Qed.

(** A string that is none of the members of a list of literals. *)
Ltac not_listed H :=
  repeat (apply elem_of_cons in H as [H|H]; [discriminate H|]);
  by apply elem_of_nil in H.

(** The answers of the three last rules come from their patterns. *)
Lemma detect_late_rules resi c :
  courierType (detectCourierType resi) = Some c →
  c ∈ ["sicepat"; "ninja"; "pos"] →
  (c = "sicepat" ∧ test true re_sicepat resi = true)
  ∨ (c = "ninja" ∧ test true re_ninja resi = true)
  ∨ (c = "pos" ∧ test true re_pos_rr resi || test true re_pos_13 resi = true).
Proof.
  unfold detectCourierType.
  destruct (negb (truthy resi) || (String.length resi <? 8)%nat); [done|].
  destruct (test true re_jne resi);
    [simpl; intros [= <-] H; not_listed H|].
  destruct (test true re_jnt resi);
    [simpl; intros [= <-] H; not_listed H|].
  destruct (test true re_tsa resi
            || test true re_alnum_10_15 resi && (10 <=? String.length resi)%nat);
    [simpl; intros [= <-] H; not_listed H|].
  destruct (test true re_sicepat resi); [simpl; intros [= <-] _; by left|].
  destruct (test true re_ninja resi); [simpl; intros [= <-] _; right; by left|].
  destruct (test true re_pos_rr resi || test true re_pos_13 resi);
    [simpl; intros [= <-] _; right; by right|done].
Qed.

Lemma alnum_is_early resi c :
  alnum_10_15 resi →
  courierType (detectCourierType resi) = Some c →
  c ∈ ["jne"; "jnt"; "anteraja"].
Proof.
  intros H. rewrite detect_alnum by done.
  destruct (test true re_jne resi); [simpl; intros [= <-]; set_solver|].
  destruct (test true re_jnt resi); simpl; intros [= <-]; set_solver.
Qed.

(** X2: the detector never answers sicepat or pos, whatever the input:
    every string their patterns accept is taken by the anteraja rule
    before; and it answers ninja only for strings of 16 to 18 characters
    that start with NLIDAP. *)
Theorem detector_never_answers_sicepat_or_pos :
  ∀ resi,
    courierType (detectCourierType resi) ≠ Some "sicepat"
    ∧ courierType (detectCourierType resi) ≠ Some "pos"
    ∧ (courierType (detectCourierType resi) = Some "ninja" →
       (16 ≤ String.length resi ≤ 18)%nat
       ∧ strip_prefix true "NLIDAP" resi ≠ None).
Proof.
  intros resi. split; [|split].
  - intros H.
    destruct (detect_late_rules resi _ H) as [[_ T]|[[? _]|[? _]]];
      [set_solver| |done..].
    unfold re_sicepat in T. rewrite test_digits in T.
    apply andb_true_iff in T as [[Hall Hlo%Nat.leb_le]%andb_true_iff Hhi%Nat.leb_le].
    assert (alnum_10_15 resi) as A by (split; [lia|by apply digits_alnum]).
    pose proof (alnum_is_early resi _ A H) as Hin. not_listed Hin.
  - intros H.
    destruct (detect_late_rules resi _ H) as [[? _]|[[? _]|[_ T]]];
      [set_solver|done..|].
    destruct (pos_is_alnum_13 resi T) as [L Hall].
    assert (alnum_10_15 resi) as A by (split; [lia|done]).
    pose proof (alnum_is_early resi _ A H) as Hin. not_listed Hin.
  - intros H.
    destruct (detect_late_rules resi _ H) as [[? _]|[[_ T]|[? _]]];
      [set_solver|done| |done].
    assert (¬ alnum_10_15 resi) as N.
    { intros A. pose proof (alnum_is_early resi _ A H) as Hin. not_listed Hin. }
    destruct (ninja_is_alnum resi T) as [Hall [[P L]|L]].
    + split; [|done].
      destruct (decide (String.length resi ≤ 15)%nat) as [Hle|Hgt]; [|lia].
      destruct N. split; [lia|done].
    + destruct N. split; [lia|done].
Qed.

(** *** Letter case *)

Lemma is_empty_upper s : is_empty (toUpperCase s) = is_empty s.
Proof. by destruct s. Qed.

(** Under the [i] flag the matcher does not see the case of the input. *)
Lemma matchK_upper r : ∀ s k k',
  (∀ t, k' (toUpperCase t) = k t) →
  matchK true r (toUpperCase s) k' = matchK true r s k.
Proof.
  induction r as [|a|p|r1 IH1 r2 IH2|r1 IH1 r2 IH2|r IH lo hi];
    intros s k k' Hk.
  - simpl. apply Hk.
  - destruct s as [|c s]; simpl; [done|]. by rewrite upper_upper, Hk.
  - destruct s as [|c s]; simpl; [done|]. by rewrite upper_upper, Hk.
  - simpl. apply IH1. intros t. by apply IH2.
  - simpl. by rewrite (IH1 s k k'), (IH2 s k k').
  - revert lo s. induction hi as [|hi IHhi]; intros lo s.
    + rewrite !matchK_Rep_0. by rewrite Hk.
    + rewrite !matchK_Rep_unfold. rewrite Hk. f_equal.
      apply IH. intros t. apply IHhi.
Qed.

Lemma test_upper r s : test true r (toUpperCase s) = test true r s.
Proof. apply matchK_upper, is_empty_upper. Qed.

(** X3: on ASCII text the detector does not see letter case: a
    tracking number and its upper-case form get the same answer. *)
Theorem detector_ignores_letter_case :
  ∀ resi,
    ascii_text resi = true →
    detectCourierType (toUpperCase resi) = detectCourierType resi.
Proof.
  intros resi _. unfold detectCourierType.
  by rewrite !test_upper, truthy_upper, toUpperCase_length.
Qed.

Lemma detector_ignores_letter_case_witness :
  detectCourierType "JX8009962760" = detectCourierType "jx8009962760".
Proof.
  exact (detector_ignores_letter_case "jx8009962760" eq_refl).
Defined.

End DetectorReach.

(** ** The verifier loop and the submission handler *)

Module VerifierFacts.
Import JsString Regex Deposit Binderbyte Validation Spec BasicFacts RegexFacts.
Import CleanFacts ValidationFacts.

Lemma tryCouriers_sublist provider jne clean couriers :
  (courier <$> (tryCouriers provider jne clean couriers).2) `sublist_of` couriers.
Proof.
  induction couriers as [|c rest IH]; simpl; [constructor|].
  destruct (String.eqb c "jne" && jne_number_unusable jne).
  - by apply sublist_cons.
  - destruct (found _).
    + simpl. apply sublist_skip, sublist_nil_l.
    + destruct (tryCouriers provider jne clean rest) as [r calls].
      simpl in *. by apply sublist_skip.
Qed.

Lemma tryCouriers_awb provider jne clean couriers :
  Forall (λ call, awb call = clean) (tryCouriers provider jne clean couriers).2.
Proof.
  induction couriers as [|c rest IH]; simpl; [constructor|].
  destruct (String.eqb c "jne" && jne_number_unusable jne); [done|].
  destruct (found _).
  - simpl. by repeat constructor.
  - destruct (tryCouriers provider jne clean rest) as [r calls].
    simpl in *. by constructor.
Qed.

(** The shape of the handler: its guards in order, then the loop. *)
Ltac open_manual_resi key resi :=
  unfold manual_resi;
  destruct (truthy (trim resi)) eqn:Ht;
    [rewrite (truthy_trim _ Ht); cbn [negb orb]
    |rewrite orb_true_r];
    [destruct (findOne (own_record _ _) _) as [[? ?]|] eqn:Hown;
       [|destruct (findOne (cached_record _) _) as [[? ?]|] eqn:Hcache;
           [|destruct (truthy key) eqn:Hkey; cbn [negb];
               [destruct (tryCouriers _ _ _ _) as [[[? ?]|] ?] eqn:Htry|]]]
    |].

(** A reply of status 200 whose summary is empty is no match. *)
Lemma empty_summary_is_no_match detail history :
  found (Replied (Some 200%Z) (Some (mkPayload (Some "") detail history))) = None.
Proof. reflexivity. Qed.

(** X4: the submission handler asks the provider about the cleaned
    number only, follows the fixed list of ten carriers in its order
    without asking any carrier twice, and asks nothing at all unless its
    answer is the validated one or the 500. *)
Theorem verifier_calls_follow_priority_list :
  ∀ key provider now userId resi jne db,
    let '(r, _, calls) := manual_resi key provider now userId resi jne db in
    (courier <$> calls) `sublist_of` courierPriority
    ∧ (length calls ≤ 10)%nat
    ∧ NoDup (courier <$> calls)
    ∧ Forall (λ call, awb call = toUpperCase (trim resi)) calls
    ∧ match r with
      | Validated _ _ _ _ _ | InternalError => True
      | _ => calls = []
      end.
Proof.
  intros key provider now userId resi jne db.
  assert (NoDup courierPriority) as Hnd
    by (by apply (bool_decide_unpack (NoDup courierPriority))).
  assert (∀ calls, (courier <$> calls) `sublist_of` courierPriority →
            (length calls ≤ 10)%nat ∧ NoDup (courier <$> calls)) as Hsub.
  { intros calls H. split.
    - apply sublist_length in H. by rewrite length_fmap in H.
    - by apply (sublist_NoDup _ courierPriority). }
  assert ((@nil string) `sublist_of` courierPriority) as Hnil
    by apply sublist_nil_l.
  open_manual_resi key resi; cbn;
    try (split; [exact Hnil|]; split; [lia|]; split; [constructor|]; by split).
  - pose proof (tryCouriers_sublist provider jne (toUpperCase (trim resi))
                  courierPriority) as S.
    pose proof (tryCouriers_awb provider jne (toUpperCase (trim resi))
                  courierPriority) as F.
    rewrite Htry in S, F. simpl in S, F. destruct (Hsub _ S). done.
  - pose proof (tryCouriers_sublist provider jne (toUpperCase (trim resi))
                  courierPriority) as S.
    pose proof (tryCouriers_awb provider jne (toUpperCase (trim resi))
                  courierPriority) as F.
    rewrite Htry in S, F. simpl in S, F. destruct (Hsub _ S). done.
Qed.

(** X5: the verifier loop stops at the first carrier whose reply is a
    match (status 200 with a summary that is not empty): the carrier it
    returns is the carrier of its last call, that
    call's reply is the match it returns, and no earlier call was a
    match; when it returns nothing, no call was a match. *)
Theorem verifier_stops_at_first_match :
  ∀ provider jne clean couriers,
    match tryCouriers provider jne clean couriers with
    | (Some (c, p), calls) =>
        ∃ earlier last,
          calls = (earlier ++ [last])%list
          ∧ courier last = c
          ∧ found (provider last) = Some p
          ∧ Forall (λ call, found (provider call) = None) earlier
    | (None, calls) => Forall (λ call, found (provider call) = None) calls
    end.
Proof.
  intros provider jne clean couriers.
  induction couriers as [|c rest IH]; simpl; [constructor|].
  destruct (String.eqb c "jne" && jne_number_unusable jne); [done|].
  destruct (found (provider _)) as [p|] eqn:Hf.
  - exists [], (mkCall c clean (if String.eqb c "jne" then trim <$> jne else None)).
    by repeat split.
  - destruct (tryCouriers provider jne clean rest) as [[[c' p']|] calls].
    + destruct IH as (earlier & last & -> & Hc & Hl & He).
      exists (mkCall c clean (if String.eqb c "jne" then trim <$> jne else None)
                :: earlier), last.
      repeat split; try done. by constructor.
    + by constructor.
Qed.

(** X6: the loop asks the carrier jne only with the auxiliary code of
    the request, trimmed, and only when that is exactly five digits; the
    calls to every other carrier carry no code. *)
Theorem jne_is_asked_with_five_digits_only :
  ∀ provider jne clean couriers,
    Forall (λ call,
              if String.eqb (courier call) "jne"
              then ∃ n, jne = Some n
                        ∧ number call = Some (trim n)
                        ∧ String.length (trim n) = 5
                        ∧ all_chars is_digit (trim n) = true
              else number call = None)
           (tryCouriers provider jne clean couriers).2.
Proof.
  intros provider jne clean couriers.
  induction couriers as [|c rest IH]; simpl; [constructor|].
  destruct (String.eqb c "jne") eqn:Hc; cbn [andb].
  - destruct (jne_number_unusable jne) eqn:Hu; [done|].
    assert (∃ n, jne = Some n ∧ String.length (trim n) = 5
                 ∧ all_chars is_digit (trim n) = true) as (n & -> & Hl & Hd).
    { destruct jne as [n|]; [|done]. exists n. split; [done|].
      simpl in Hu. apply orb_false_iff in Hu as [_ Hu].
      apply negb_false_iff in Hu. unfold re_five_digits, digit in Hu.
      rewrite test_Rep_Cls in Hu.
      apply andb_true_iff in Hu as [[Hall Hlo%Nat.leb_le]%andb_true_iff Hhi%Nat.leb_le].
      split; [lia|done]. }
    assert (Forall
              (λ call, if String.eqb (courier call) "jne"
                       then ∃ n0, Some n = Some n0
                                  ∧ number call = Some (trim n0)
                                  ∧ String.length (trim n0) = 5
                                  ∧ all_chars is_digit (trim n0) = true
                       else number call = None)
              [mkCall c clean (trim <$> Some n)]) as Hone.
    { repeat constructor. simpl. rewrite Hc. by exists n. }
    destruct (found _); [done|].
    destruct (tryCouriers provider (Some n) clean rest) as [r calls].
    simpl in *. apply Forall_cons. split; [|done]. by inversion Hone.
  - destruct (found _).
    + simpl. repeat constructor. simpl. by rewrite Hc.
    + destruct (tryCouriers provider jne clean rest) as [r calls].
      simpl in *. constructor; [|done]. simpl. by rewrite Hc.
Qed.

(** X7: the submission handler never touches lockers or shipments; it
    answers 200 exactly when it stores one new record, which is appended,
    validated, owned by the requester, filed under the cleaned number and
    dated now; with any other answer the store is unchanged. *)
Theorem submission_stores_one_record_iff_200 :
  ∀ key provider now userId resi jne db,
    let '(r, db', _) := manual_resi key provider now userId resi jne db in
    lockers db' = lockers db
    ∧ shipments db' = shipments db
    ∧ if (http_status r =? 200)%nat
      then ∃ t,
             trackings db' = (trackings db ++ [t])%list
             ∧ CustomerTracking.resi t = toUpperCase (trim resi)
             ∧ CustomerTracking.customerId t = userId
             ∧ CustomerTracking.validated t = true
             ∧ CustomerTracking.createdAt t = now
      else db' = db.
Proof.
  intros key provider now userId resi jne db.
  open_manual_resi key resi; cbn; try done.
  - repeat split; try done. eexists. by repeat split.
  - repeat split; try done. eexists. by repeat split.
Qed.

(** X8: the handler sees a tracking number only through its cleaned
    form: submitting the number as typed (any letter case, white space
    around it) and submitting its cleaned form are the same request. *)
Theorem submission_depends_on_cleaned_number :
  ∀ key provider now userId resi jne db,
    manual_resi key provider now userId resi jne db
    = manual_resi key provider now userId (toUpperCase (trim resi)) jne db.
Proof.
  intros key provider now userId resi jne db. unfold manual_resi.
  rewrite clean_idem, trim_upper, trim_idem, !truthy_upper.
  destruct (truthy (trim resi)) eqn:Ht.
  - by rewrite (truthy_trim _ Ht).
  - by rewrite orb_true_r.
Qed.

(** After a 200 the requester holds a record of the number. *)
Lemma accepted_then_own_record key provider now userId resi jne db :
  http_status (manual_resi key provider now userId resi jne db).1.1 = 200 →
  truthy (trim resi) = true
  ∧ ∃ i t,
      findOne (own_record (toUpperCase (trim resi)) userId)
        (trackings (manual_resi key provider now userId resi jne db).1.2)
      = Some (i, t)
      ∧ CustomerTracking.createdAt t = now.
Proof.
  open_manual_resi key resi; cbn; try done; intros _; (split; [done|]);
    unfold create; rewrite findOne_snoc, Hown; unfold own_record; cbn;
    rewrite !String.eqb_refl; cbn; eauto.
Qed.

(** A submission removes no record and moves none. *)
Lemma manual_resi_appends key provider now userId resi jne db :
  ∃ new,
    trackings (manual_resi key provider now userId resi jne db).1.2
    = (trackings db ++ new)%list.
Proof.
  open_manual_resi key resi; cbn;
    first [ by exists []; rewrite app_nil_r | by eexists [_] ].
Qed.

Lemma findOne_app_Some {A} (q : A → bool) docs more : ∀ r,
  findOne q docs = Some r → findOne q (docs ++ more) = Some r.
Proof.
  induction docs as [|x docs IH]; intros r; simpl; [done|].
  destruct (q x); [done|].
  destruct (findOne q docs) as [[k y]|]; [|done].
  intros [= <-]. by rewrite (IH (k, y) eq_refl).
Qed.

Lemma submit_keeps_own_record s clean userId db i t :
  findOne (own_record clean userId) (trackings db) = Some (i, t) →
  findOne (own_record clean userId) (trackings (Spec2.submit s db)) = Some (i, t).
Proof.
  intros F. unfold Spec2.submit.
  destruct (manual_resi_appends (Spec2.Submission.key s)
              (Spec2.Submission.provider s) (Spec2.Submission.now s)
              (Spec2.Submission.userId s) (Spec2.Submission.resi s)
              (Spec2.Submission.jneNumber s) db) as [new ->].
  by apply findOne_app_Some.
Qed.

Lemma submit_all_keeps_own_record run clean userId : ∀ db i t,
  findOne (own_record clean userId) (trackings db) = Some (i, t) →
  findOne (own_record clean userId) (trackings (Spec2.submit_all run db))
  = Some (i, t).
Proof.
  induction run as [|s run IH]; intros db i t F; [done|].
  apply IH. by apply submit_keeps_own_record.
Qed.

(** X9: once a submission was answered 200, and after any run of
    further submissions (by any requesters, of any numbers), a
    submission of the same number by the same requester, however typed,
    whatever the auxiliary code, the time or the provider's state, is
    refused as already submitted with the date of the first one, without
    provider call and without change of the store. *)
Theorem accepted_number_cannot_be_resubmitted :
  ∀ key provider now userId resi jne db later key' provider' now' resi' jne',
    http_status (manual_resi key provider now userId resi jne db).1.1 = 200 →
    toUpperCase (trim resi') = toUpperCase (trim resi) →
    let db' :=
      Spec2.submit_all later
        (manual_resi key provider now userId resi jne db).1.2 in
    manual_resi key' provider' now' userId resi' jne' db'
    = (AlreadySubmitted (toUpperCase (trim resi)) now, db', []).
Proof.
  intros key provider now userId resi jne db later key' provider' now' resi' jne'
    H E.
  destruct (accepted_then_own_record _ _ _ _ _ _ _ H) as (Ht & i & t & Hf & Hd).
  apply (submit_all_keeps_own_record later) in Hf.
  assert (truthy (trim resi') = true) as Ht'.
  { rewrite <- truthy_upper, E, truthy_upper. done. }
  cbv zeta. unfold manual_resi at 1.
  rewrite (truthy_trim _ Ht'), Ht'. cbn [negb orb]. rewrite E, Hf, Hd. done.
Qed.

Lemma accepted_number_cannot_be_resubmitted_witness :
  let db' :=
    Spec2.submit_all
      [Spec2.Submission.mk "key" Fixture.provider_jnt 6%Z "user2" "jx8009962760"
         None;
       Spec2.Submission.mk "key" Fixture.provider_none 7%Z "user1" "123456789012"
         None]
      (manual_resi "key" Fixture.provider_jnt 5%Z "user1" "JX8009962760" None
         Fixture.db0).1.2 in
  manual_resi "" Fixture.provider_none 9%Z "user1" "  jx8009962760 " (Some "12345")
    db'
  = (AlreadySubmitted "JX8009962760" 5%Z, db', []).
Proof.
  exact (accepted_number_cannot_be_resubmitted
           "key" Fixture.provider_jnt 5%Z "user1" "JX8009962760" None Fixture.db0
           [Spec2.Submission.mk "key" Fixture.provider_jnt 6%Z "user2"
              "jx8009962760" None;
            Spec2.Submission.mk "key" Fixture.provider_none 7%Z "user1"
              "123456789012" None]
           "" Fixture.provider_none 9%Z "  jx8009962760 " (Some "12345")
           eq_refl eq_refl).
Defined.

End VerifierFacts.

(** ** Revalidation of a stored number *)

Module RevalidateFacts.
Import JsString Regex Deposit Binderbyte Validation Spec BasicFacts RegexFacts.
Import CleanFacts ValidationFacts VerifierFacts.

Definition six_carriers : list string :=
  ["jne"; "jnt"; "anteraja"; "sicepat"; "ninja"; "pos"].

Lemma courierPriority_six clean :
  Revalidate.courierPriority clean ≡ₚ six_carriers.
Proof.
  unfold Revalidate.courierPriority, six_carriers.
  destruct (Revalidate.test_prefix _ _ _).
  { apply perm_swap. }
  destruct (Revalidate.test_prefix _ _ _); [done|].
  destruct (test _ _ _); [|done].
  apply NoDup_Permutation.
  - by apply (bool_decide_unpack (NoDup _)).
  - by apply (bool_decide_unpack (NoDup _)).
  - intros x. rewrite !elem_of_cons, !elem_of_nil. tauto.
Qed.

Lemma tryCouriers_silent provider jne clean couriers :
  (∀ call, found (provider call) = None) →
  (tryCouriers provider jne clean couriers).1 = None.
Proof.
  intros H. induction couriers as [|c rest IH]; simpl; [done|].
  destruct (String.eqb c "jne" && jne_number_unusable jne); [done|].
  rewrite H. by destruct (tryCouriers provider jne clean rest).
Qed.

(** Writing a matching document where the first candidate stood makes
    it the answer of [findOne]. *)
Lemma findOne_save_first {A} (q : A → bool) docs : ∀ i d',
  (i < length docs)%nat →
  (∀ k x, (k < i)%nat → docs !! k = Some x → q x = false) →
  q d' = true →
  findOne q (save i d' docs) = Some (i, d').
Proof.
  unfold save. induction docs as [|y docs IH]; intros [|i] d' Hi Hb Hq;
    simpl in *; try lia.
  - by rewrite Hq.
  - rewrite (Hb 0 y) by (done || lia).
    rewrite (IH i d'); [done|lia| |done].
    intros k x Hk Hx. apply (Hb (S k) x); [lia|done].
Qed.

(** X10: revalidation asks the provider about at most the six carriers
    jne, jnt, anteraja, sicepat, ninja and pos, each at most once and
    always with the cleaned number, whatever the shape of the number;
    without a stored record of the number or without the provider key it
    asks nothing. *)
Theorem revalidation_asks_six_carriers_at_most :
  ∀ key provider now resi jne db,
    let '(r, _, calls) := Revalidate.revalidate key provider now resi jne db in
    (length calls ≤ 6)%nat
    ∧ NoDup (courier <$> calls)
    ∧ Forall (λ call, courier call ∈ six_carriers
                      ∧ awb call = toUpperCase (trim resi)) calls
    ∧ match r with
      | Revalidate.RecordMissing | Revalidate.ServiceUnavailable => calls = []
      | _ => True
      end.
Proof.
  intros key provider now resi jne db. unfold Revalidate.revalidate.
  set (clean := toUpperCase (trim resi)).
  pose proof (tryCouriers_sublist provider jne clean
                (Revalidate.courierPriority clean)) as S.
  pose proof (tryCouriers_awb provider jne clean
                (Revalidate.courierPriority clean)) as F.
  pose proof (courierPriority_six clean) as P.
  destruct (findOne _ _) as [[i t]|];
    [|repeat split; simpl; try lia; constructor].
  destruct (negb (truthy key));
    [repeat split; simpl; try lia; constructor|].
  destruct (tryCouriers _ _ _ _) as [result calls]. simpl in S, F.
  assert ((length calls ≤ 6)%nat
          ∧ NoDup (courier <$> calls)
          ∧ Forall (λ call, courier call ∈ six_carriers ∧ awb call = clean) calls)
    as (H1 & H2 & H3).
  { split; [|split].
    - apply sublist_length in S. rewrite length_fmap in S.
      apply Permutation_length in P. simpl in P. lia.
    - eapply sublist_NoDup; [|exact S]. rewrite P.
      by apply (bool_decide_unpack (NoDup _)).
    - apply Forall_forall. intros call Hc. split.
      + rewrite <- P. apply (sublist_subseteq _ _ S).
        by apply list_elem_of_fmap_2.
      + by apply (proj1 (Forall_forall _ _) F). }
  by destruct result as [[c p]|].
Qed.

(** X11: when the provider confirms no carrier, revalidation of a
    stored number answers NotFound (404) and leaves the store as it
    was. *)
Theorem unconfirmed_revalidation_is_not_found :
  ∀ key provider now resi jne db i t,
    truthy key = true →
    findOne (Revalidate.by_resi (toUpperCase (trim resi))) (trackings db)
    = Some (i, t) →
    (∀ call, found (provider call) = None) →
    ∃ calls,
      Revalidate.revalidate key provider now resi jne db
      = (Revalidate.NotFound (toUpperCase (trim resi)), db, calls).
Proof.
  intros key provider now resi jne db i t Hk Hf Hp.
  unfold Revalidate.revalidate. rewrite Hf, Hk. cbn [negb].
  pose proof (tryCouriers_silent provider jne (toUpperCase (trim resi))
                (Revalidate.courierPriority (toUpperCase (trim resi))) Hp) as E.
  destruct (tryCouriers _ _ _ _) as [result calls]. simpl in E. subst result.
  by exists calls.
Qed.

Lemma unconfirmed_revalidation_witness :
  ∃ calls,
    Revalidate.revalidate "key" Fixture.provider_none 7%Z " jx8009962760" None
      Scenario.db_unknown
    = (Revalidate.NotFound "JX8009962760", Scenario.db_unknown, calls).
Proof.
  apply (unconfirmed_revalidation_is_not_found
           "key" Fixture.provider_none 7%Z " jx8009962760" None
           Scenario.db_unknown 0 Scenario.unknown_record);
    reflexivity.
Defined.

(** X12: a successful revalidation rewrites the first stored record of
    the number and nothing else: the record keeps its owner and date and
    becomes validated with the carrier found; from then on a requester
    who has no record of the number is served from the cache with that
    carrier, without any provider call. *)
Theorem revalidation_repairs_the_cache :
  ∀ key provider now resi jne db c summary,
    (Revalidate.revalidate key provider now resi jne db).1.1
    = Revalidate.Revalidated (toUpperCase (trim resi)) c summary →
    let db' := (Revalidate.revalidate key provider now resi jne db).1.2 in
    lockers db' = lockers db
    ∧ shipments db' = shipments db
    ∧ (∃ i t t',
         findOne (Revalidate.by_resi (toUpperCase (trim resi))) (trackings db)
         = Some (i, t)
         ∧ trackings db' = <[i := t']> (trackings db)
         ∧ CustomerTracking.courierType t' = c
         ∧ CustomerTracking.validated t' = true
         ∧ CustomerTracking.customerId t' = CustomerTracking.customerId t
         ∧ CustomerTracking.createdAt t' = CustomerTracking.createdAt t)
    ∧ ∀ key' provider' now' userId jne',
        truthy (trim resi) = true →
        findOne (own_record (toUpperCase (trim resi)) userId) (trackings db)
        = None →
        ∃ locker data stored,
          manual_resi key' provider' now' userId resi jne' db'
          = (FromCache (toUpperCase (trim resi)) c locker data now', stored, []).
Proof.
  intros key provider now resi jne db c summary.
  unfold Revalidate.revalidate. set (clean := toUpperCase (trim resi)).
  destruct (findOne (Revalidate.by_resi clean) (trackings db)) as [[i t]|] eqn:Hf;
    [|done].
  destruct (negb (truthy key)); [done|].
  destruct (tryCouriers _ _ _ _) as [[[c' p]|] calls]; [|done].
  cbn. intros [= -> _].
  destruct (findOne_Some _ _ _ _ Hf) as [Hi Hq].
  repeat split; try done.
  - eexists i, t, _. by repeat split.
  - intros key' provider' now' userId jne' Ht Hown.
    unfold manual_resi. rewrite (truthy_trim _ Ht), Ht. cbn [negb orb].
    fold clean. cbn [trackings set_trackings].
    set (t' := Revalidate.revalidated c p jne now t).
    assert (findOne (own_record clean userId) (save i t' (trackings db)) = None)
      as ->.
    { rewrite (findOne_save _ _ _ t t' Hi), Hown; done. }
    assert (findOne (cached_record clean) (save i t' (trackings db))
            = Some (i, t')) as ->.
    { apply findOne_save_first.
      - by apply lookup_lt_Some in Hi.
      - intros k x Hk Hx. unfold cached_record.
        pose proof (findOne_first _ _ _ _ Hf k x Hk Hx) as Hn.
        unfold Revalidate.by_resi in Hn. by rewrite Hn.
      - unfold cached_record, t'. cbn. unfold Revalidate.by_resi in Hq.
        by rewrite Hq. }
    by eexists _, _, _.
Qed.

Lemma revalidation_repairs_the_cache_witness :
  ∃ locker data stored,
    manual_resi "" Fixture.provider_none 9%Z "user2" "jx8009962760" None
      (Revalidate.revalidate "key" Fixture.provider_jnt 7%Z "jx8009962760" None
         Scenario.db_unknown).1.2
    = (FromCache "JX8009962760" "jnt" locker data 9%Z, stored, []).
Proof.
  refine (proj2 (proj2 (proj2
            (revalidation_repairs_the_cache
               "key" Fixture.provider_jnt 7%Z "jx8009962760" None
               Scenario.db_unknown "jnt" _ _)))
            "" Fixture.provider_none 9%Z "user2" None _ _);
    reflexivity.
Defined.

End RevalidateFacts.

(** ** After a deposit: command delivery, repeated deposits, history *)

Module DepositFlow.
Import JsString Token Deposit Spec Spec2 Poll BasicFacts CleanFacts DepositFacts.

Lemma step_success_full c db i locker j shipment :
  reaches_token_check c db i locker →
  token_matches (Locker.lockerToken locker) (presented c) = true →
  findOne (by_resi_and_locker (tracking_number c) (target c)) (shipments db)
  = Some (j, shipment) →
  Shipment.status shipment = "pending_locker" →
  ∃ r locker' shipment',
    step c db
    = (r, mkDb (save i locker' (lockers db)) (save j shipment' (shipments db))
               (trackings db))
    ∧ is_ok r = true ∧ rotated c locker locker' ∧ delivered shipment shipment'
    ∧ deposited c locker locker'.
Proof.
  intros (H1 & H2 & H3 & E) T S St.
  pose proof (proj1 (token_matches_spec _ _) T) as [Htok Hne].
  open_call c; rewrite H1, H2, H3, E; cbn [negb orb].
  - destruct debug; rewrite ?mark_scan_token, T, S, St;
      rewrite String.eqb_refl; cbn [negb];
      eexists _, _, _; (split; [reflexivity|]);
      (split; [done|]);
      (split; [unfold rotated, auto_fix, includes; cbn;
               destruct (existsb _ (Locker.pendingResi locker)); done|]);
      (split; [done|]);
      unfold deposited, auto_fix, includes; cbn;
      destruct (existsb _ (Locker.pendingResi locker)); cbn;
      (split; [done|]); (split; [eauto|]);
      eexists _, _; (split; [reflexivity|]); cbn; rewrite Htok;
      repeat split; apply trim_idem.
  - rewrite T, S, St. rewrite String.eqb_refl; cbn [negb].
    eexists _, _, _. split; [reflexivity|].
    split; [done|]. split; [|split].
    + unfold rotated, auto_fix, includes; cbn.
      destruct (existsb _ (Locker.pendingResi locker)); done.
    + unfold delivered.
      destruct weight as [w|]; [destruct (weight_usable (Some w))|]; done.
    + unfold deposited, auto_fix, includes; cbn.
      destruct (existsb _ (Locker.pendingResi locker)); cbn;
        (split; [done|]); (split; [eauto|]);
        eexists _, _; (split; [reflexivity|]); cbn; done.
Qed.

(** A successful call passed every guard. *)
Lemma step_ok_inv c db :
  is_ok (step c db).1 = true →
  ∃ i locker j shipment locker' shipment',
    reaches_token_check c db i locker
    ∧ token_matches (Locker.lockerToken locker) (presented c) = true
    ∧ findOne (by_resi_and_locker (tracking_number c) (target c)) (shipments db)
      = Some (j, shipment)
    ∧ Shipment.status shipment = "pending_locker"
    ∧ (step c db).2
      = mkDb (save i locker' (lockers db)) (save j shipment' (shipments db))
             (trackings db)
    ∧ rotated c locker locker' ∧ delivered shipment shipment'
    ∧ deposited c locker locker'.
Proof.
  intros Hok. destruct (step_inv c db) as [[Hf _]|H]; [congruence|].
  destruct H as (i & locker & j & shipment & _ & _ & _ & R & T & S & St & _).
  destruct (step_success_full c db i locker j shipment R T S St)
    as (r & locker' & shipment' & E & _ & Hr & Hd & Hdep).
  exists i, locker, j, shipment, locker', shipment'. by rewrite E.
Qed.

Lemma findOne_save_same {A} (q : A → bool) docs i d d' :
  findOne q docs = Some (i, d) → q d' = true →
  findOne q (save i d' docs) = Some (i, d').
Proof.
  intros F Hq. destruct (findOne_Some _ _ _ _ F) as [Hi Hd].
  rewrite (findOne_save q docs i d d' Hi) by congruence.
  by rewrite F, Nat.eqb_refl.
Qed.

Lemma save_save {A} i (d d' : A) docs :
  save i d' (save i d docs) = save i d' docs.
Proof. apply list_insert_insert_eq. Qed.

(** X13: the command a successful token deposit leaves is delivered by
    the next poll of that locker, as an "open" for the deposited number
    with the deposit's source tag and time, and only once: the poll after
    it finds no command.  Polling changes neither shipments nor tokens. *)
Theorem deposit_command_is_delivered_once :
  ∀ c db now rnd now' rnd',
    is_ok (step c db).1 = true →
    let db1 := (step c db).2 in
    let db2 := (poll_command now rnd (target c) db1).2 in
    (poll_command now rnd (target c) db1).1
    = Deliver "open" (tracking_number c) (source_of c) (time_of c)
    ∧ poll_command now' rnd' (target c) db2 = (NoCommand, db2)
    ∧ shipments db2 = shipments db1
    ∧ Locker.lockerToken <$> lockers db2 = Locker.lockerToken <$> lockers db1.
Proof.
  intros c db now rnd now' rnd' Hok.
  destruct (step_ok_inv c db Hok)
    as (i & locker & j & shipment & locker' & shipment' & R & _ & _ & _ & E
        & _ & _ & Hid & [customer Hcmd] & _).
  destruct R as (_ & _ & _ & F). cbv zeta. rewrite E.
  assert (findOne (by_lockerId (target c)) (save i locker' (lockers db))
          = Some (i, locker')) as F1.
  { apply (findOne_save_same _ _ _ locker); [done|].
    apply findOne_Some in F as [_ Hq]. unfold by_lockerId in *. by rewrite Hid. }
  set (locker'' :=
         Locker.with_command None
           match Locker.debugInfo locker' with
           | Some d =>
               if DebugInfo.enabled d
               then Locker.with_debugInfo
                      (Some (pushDebugPhase_command (tracking_number c) now d))
                      locker'
               else locker'
           | None => locker'
           end).
  set (db1 := mkDb (save i locker' (lockers db)) (save j shipment' (shipments db))
                   (trackings db)).
  assert (poll_command now rnd (target c) db1
          = (Deliver "open" (tracking_number c) (source_of c) (time_of c),
             set_lockers (save i locker'' (lockers db1)) db1)) as P.
  { unfold poll_command, getLocker. cbn [lockers db1]. by rewrite F1, Hcmd. }
  rewrite P. cbn [fst snd].
  assert (Locker.lockerId locker'' = Locker.lockerId locker'
          ∧ Locker.lockerToken locker'' = Locker.lockerToken locker'
          ∧ Locker.command locker'' = None) as (Hid' & Htok' & Hcmd').
  { unfold locker''. destruct (Locker.debugInfo locker') as [d|]; [|done].
    by destruct (DebugInfo.enabled d). }
  split; [done|]. split; [|split; [done|]].
  - unfold poll_command, getLocker. cbn [lockers set_lockers db1].
    rewrite (findOne_save_same _ _ _ locker' locker'' F1).
    + by rewrite Hcmd'.
    + apply findOne_Some in F1 as [_ Hq]. unfold by_lockerId in *.
      by rewrite Hid'.
  - cbn [lockers set_lockers db1]. unfold save.
    apply findOne_Some in F1 as [Hi _]. unfold save in Hi.
    rewrite list_fmap_insert, Htok'.
    apply list_insert_id. by rewrite list_lookup_fmap, Hi.
Qed.

Lemma deposit_command_witness :
  let c := ViaToken 3%Z Fixture.rnd1
             (Fixture.token_req "A1" Fixture.tokenA "RESI00000001") in
  (poll_command 4%Z Fixture.rnd2 "A1" (step c Fixture.db0).2).1
  = Deliver "open" "RESI00000001" "courier_token" 3%Z.
Proof.
  exact (proj1 (deposit_command_is_delivered_once
                  (ViaToken 3%Z Fixture.rnd1
                     (Fixture.token_req "A1" Fixture.tokenA "RESI00000001"))
                  Fixture.db0 4%Z Fixture.rnd2 5%Z Fixture.rnd2 eq_refl)).
Defined.



(** X15: a successful token deposit appends exactly one entry to the
    courier history of the locker it names and touches no other locker:
    the entry carries the deposited number, the time of the deposit and
    the token that was presented, which (white space apart) is the token
    the locker held. *)
Theorem deposit_appends_one_history_entry :
  ∀ c db,
    is_ok (step c db).1 = true →
    ∃ i locker locker' h u,
      findOne (by_lockerId (target c)) (lockers db) = Some (i, locker)
      ∧ lockers (step c db).2 = <[i := locker']> (lockers db)
      ∧ Locker.courierHistory locker'
        = (Locker.courierHistory locker ++ [h])%list
      ∧ HistoryEntry.resi h = tracking_number c
      ∧ HistoryEntry.deliveredAt h = time_of c
      ∧ HistoryEntry.usedToken h = Some u
      ∧ trim u = trim (presented c)
      ∧ Locker.lockerToken locker = Some (trim (presented c)).
Proof.
  intros c db Hok.
  destruct (step_ok_inv c db Hok)
    as (i & locker & j & shipment & locker' & shipment' & R & T & _ & _ & E
        & _ & _ & _ & _ & h & u & Hh & H1 & H2 & H3 & H4).
  destruct R as (_ & _ & _ & F).
  apply token_matches_spec in T as [T _].
  exists i, locker, locker', h, u. rewrite E. done.
Qed.

Lemma deposit_history_witness :
  ∃ i locker locker' h u,
    findOne (by_lockerId "A1") (lockers Fixture.db0) = Some (i, locker)
    ∧ lockers (step (ViaResi 3%Z Fixture.rnd1
                       (Fixture.resi_req "A1" " LK-A1-0a0b0c0d0e0f " "RESI00000001"))
                 Fixture.db0).2
      = <[i := locker']> (lockers Fixture.db0)
    ∧ Locker.courierHistory locker'
      = (Locker.courierHistory locker ++ [h])%list
    ∧ HistoryEntry.resi h = "RESI00000001"
    ∧ HistoryEntry.deliveredAt h = 3%Z
    ∧ HistoryEntry.usedToken h = Some u
    ∧ trim u = trim " LK-A1-0a0b0c0d0e0f "
    ∧ Locker.lockerToken locker = Some (trim " LK-A1-0a0b0c0d0e0f ").
Proof.
  exact (deposit_appends_one_history_entry
           (ViaResi 3%Z Fixture.rnd1
              (Fixture.resi_req "A1" " LK-A1-0a0b0c0d0e0f " "RESI00000001"))
           Fixture.db0 eq_refl).
Defined.

End DepositFlow.

(** ** The plate deposit and the legacy deposit *)

Module OtherDeposits.
Import JsString Token Deposit Spec Spec2 BasicFacts CleanFacts DepositFacts.




(** X17: the legacy deposit on a locker that does not exist never
    succeeds, yet it changes the store: the locker is created with a
    generated token and an empty pending list.  The answer is
    TokenInvalid unless the presented token is the one just generated,
    and NotPending then. *)
Theorem legacy_deposit_creates_unknown_locker :
  ∀ now rnd0 rnd lockerId token resi db,
    findOne (by_lockerId lockerId) (lockers db) = None →
    truthy token = true →
    truthy resi = true →
    locker_deposit now rnd0 rnd lockerId token resi db
    = (if String.eqb token (randomToken ("LK-" +:+ lockerId) rnd0)
       then NotPending [] else TokenInvalid,
       mkDb (lockers db
             ++ [Locker.mk lockerId
                   (Some (randomToken ("LK-" +:+ lockerId) rnd0))
                   None [] None [] None true "unknown" None])
            (shipments db) (trackings db)).
Proof.
  intros now rnd0 rnd lockerId token resi db F Ht Hr.
  unfold locker_deposit, getLocker. rewrite Ht, Hr, F. cbn.
  by destruct (String.eqb token _).
Qed.

Lemma legacy_deposit_unknown_locker_witness :
  locker_deposit 3%Z Fixture.rnd1 Fixture.rnd2 "Z9" "guess" "RESI00000001"
    Fixture.db0
  = (TokenInvalid,
     mkDb (lockers Fixture.db0
           ++ [Locker.mk "Z9" (Some "LK-Z9-010203040506")
                 None [] None [] None true "unknown" None])
          (shipments Fixture.db0) (trackings Fixture.db0)).
Proof.
  apply (legacy_deposit_creates_unknown_locker
           3%Z Fixture.rnd1 Fixture.rnd2 "Z9" "guess" "RESI00000001" Fixture.db0);
    reflexivity.
Defined.

(** X18: on an existing locker the legacy deposit goes through exactly
    when the presented token is the stored one character for character
    (no trimming), the number is in the pending list of the locker and
    some shipment carries the number; the status of that shipment and
    the locker it is assigned to are not looked at.  A refused call
    leaves the store unchanged. *)
Theorem legacy_deposit_accepts_iff :
  ∀ now rnd0 rnd lockerId token resi db i locker,
    findOne (by_lockerId lockerId) (lockers db) = Some (i, locker) →
    truthy token = true →
    truthy resi = true →
    (is_ok (locker_deposit now rnd0 rnd lockerId token resi db).1 = true
     ↔ Locker.lockerToken locker = Some token
       ∧ resi ∈ Locker.pendingResi locker
       ∧ ∃ j shipment, findOne (by_resi resi) (shipments db) = Some (j, shipment))
    ∧ (is_ok (locker_deposit now rnd0 rnd lockerId token resi db).1 = false →
       (locker_deposit now rnd0 rnd lockerId token resi db).2 = db).
Proof.
  intros now rnd0 rnd lockerId token resi db i locker F Ht Hr.
  unfold locker_deposit, getLocker. rewrite Ht, Hr, F. cbn [negb orb].
  destruct (Locker.lockerToken locker) as [t|] eqn:Htok; cbn [from_option].
  2: { cbn. split; [|done]. split; [done|]. by intros [? _]. }
  destruct (String.eqb_spec token t) as [<-|Hne]; cbn [negb].
  2: { cbn. split; [|done]. split; [done|]. intros [[= ->] _]. done. }
  destruct (includes resi (Locker.pendingResi locker)) eqn:Hin; cbn [negb].
  2: { cbn. split; [|done]. split; [done|].
       intros (_ & Hi%includes_elem_of & _). congruence. }
  apply includes_elem_of in Hin.
  destruct (findOne (by_resi resi) (shipments db)) as [[j shipment]|]; cbn.
  - split; [|done]. split; [|done]. intros _. eauto.
  - split; [|done]. split; [done|]. by intros (_ & _ & ? & ? & ?).
Qed.

Lemma legacy_deposit_accepts_witness :
  is_ok (locker_deposit 3%Z Fixture.rnd1 Fixture.rnd2 "A1" Fixture.tokenA
           "RESI00000001" Fixture.db0).1 = true.
Proof.
  apply (proj1 (legacy_deposit_accepts_iff
                  3%Z Fixture.rnd1 Fixture.rnd2 "A1" Fixture.tokenA
                  "RESI00000001" Fixture.db0 0 Fixture.lockerA
                  eq_refl eq_refl eq_refl)).
  split; [reflexivity|]. split; [cbn; set_solver|].
  by exists 0, (Fixture.pending "RESI00000001" "A1").
Defined.

End OtherDeposits.

(** ** Pick-up and deletion *)

Module PickupFacts.
Import JsString Token Deposit Binderbyte Validation Spec Spec2 Pickup.
Import BasicFacts CleanFacts DepositFacts ValidationFacts.

Section FirstMatch.
Context {A : Type}.
Implicit Types (q : A → bool) (docs : list A).

Lemma deleteOne_found q docs i d :
  findOne q docs = Some (i, d) → deleteOne q docs = delete i docs.
Proof.
  revert i. induction docs as [|x docs IH]; intros i; simpl; [done|].
  destruct (q x); [by intros [= <- <-]|].
  destruct (findOne q docs) as [[k y]|] eqn:E; [|done].
  intros [= <- <-]. simpl. f_equal. by apply IH.
Qed.

Lemma deleteOne_none q docs : findOne q docs = None → deleteOne q docs = docs.
Proof.
  induction docs as [|x docs IH]; simpl; [done|].
  destruct (q x); [done|].
  destruct (findOne q docs) as [[k y]|]; [done|]. intros _. f_equal. by apply IH.
Qed.

Lemma deleteOne_sublist q docs : deleteOne q docs `sublist_of` docs.
Proof.
  induction docs as [|x docs IH]; simpl; [constructor|].
  destruct (q x); [by apply sublist_cons|by apply sublist_skip].
Qed.

(** Deleting the only match leaves no match. *)
Lemma deleteOne_only q docs d :
  List.filter q docs = [d] → List.filter q (deleteOne q docs) = [].
Proof.
  induction docs as [|x docs IH]; simpl; [done|].
  destruct (q x) eqn:Hq.
  - by intros [= _ ->].
  - intros H. simpl. rewrite Hq. by apply IH.
Qed.

Lemma filter_nil_findOne q (p : A → bool) docs :
  List.filter q docs = [] → (∀ x, p x = true → q x = true) →
  findOne p docs = None.
Proof.
  intros Hf Hp. apply findOne_None. intros d Hd.
  destruct (p d) eqn:E; [|done]. exfalso.
  assert (In d (List.filter q docs)) as Hin.
  { apply List.filter_In. split; [by apply list_elem_of_In|by apply Hp]. }
  by rewrite Hf in Hin.
Qed.

Lemma updateOne_found q (f : A → A) docs i d :
  findOne q docs = Some (i, d) → updateOne q f docs = <[i := f d]> docs.
Proof.
  revert i. induction docs as [|x docs IH]; intros i; simpl; [done|].
  destruct (q x); [by intros [= <- <-]|].
  destruct (findOne q docs) as [[k y]|] eqn:E; [|done].
  intros [= <- <-]. simpl. f_equal. by apply IH.
Qed.

Lemma updateOne_none q (f : A → A) docs :
  findOne q docs = None → updateOne q f docs = docs.
Proof.
  induction docs as [|x docs IH]; simpl; [done|].
  destruct (q x); [done|].
  destruct (findOne q docs) as [[k y]|]; [done|]. intros _. f_equal. by apply IH.
Qed.

Lemma fmap_updateOne {B} (g : A → B) q (f : A → A) docs :
  (∀ d, g (f d) = g d) → g <$> updateOne q f docs = g <$> docs.
Proof.
  intros Hg. induction docs as [|x docs IH]; simpl; [done|].
  destruct (q x); rewrite !fmap_cons; [by rewrite Hg|by rewrite IH].
Qed.

Lemma findOne_updateOne q (f : A → A) docs :
  (∀ d, q (f d) = q d) →
  findOne q (updateOne q f docs)
  = match findOne q docs with
    | Some (i, d) => Some (i, f d)
    | None => None
    end.
Proof.
  intros Hq. induction docs as [|x docs IH]; simpl; [done|].
  destruct (q x) eqn:E; simpl.
  - by rewrite Hq, E.
  - rewrite E, IH. by destruct (findOne q docs) as [[k y]|].
Qed.

Lemma filter_filter (p q : A → bool) docs :
  List.filter p (List.filter q docs) = List.filter (λ x, q x && p x) docs.
Proof.
  induction docs as [|x docs IH]; simpl; [done|].
  destruct (q x); simpl; [|done]. destruct (p x); by rewrite IH.
Qed.

Lemma filter_all (p : A → bool) docs :
  (∀ x, x ∈ docs → p x = true) → List.filter p docs = docs.
Proof.
  induction docs as [|x docs IH]; simpl; [done|]. intros H.
  rewrite (H x) by apply list_elem_of_here. f_equal.
  apply IH. intros y Hy. apply H. by apply list_elem_of_further.
Qed.

Lemma NoDup_fmap_eq {B} (f : A → B) docs x y :
  NoDup (f <$> docs) → x ∈ docs → y ∈ docs → f x = f y → x = y.
Proof.
  induction docs as [|z docs IH]; simpl; [by intros _ ?%elem_of_nil|].
  intros [Hz Hnd]%NoDup_cons [->|Hx]%elem_of_cons [->|Hy]%elem_of_cons E;
    try done.
  - destruct Hz. rewrite E. by apply list_elem_of_fmap_2.
  - destruct Hz. rewrite <- E. by apply list_elem_of_fmap_2.
  - by apply IH.
Qed.
End FirstMatch.

Lemma deleteOne_by_resi r l :
  NoDup (Shipment.resi <$> l) →
  deleteOne (by_resi r) l = List.filter (λ s, negb (by_resi r s)) l.
Proof.
  induction l as [|x l IH]; simpl; [done|].
  intros [Hx Hnd]%NoDup_cons. destruct (by_resi r x) eqn:E; simpl.
  - symmetry. apply filter_all. intros y Hy.
    apply negb_true_iff, String.eqb_neq. intros Hr.
    apply String.eqb_eq in E. destruct Hx. rewrite E, <- Hr.
    by apply list_elem_of_fmap_2.
  - f_equal. by apply IH.
Qed.

Lemma deleteOne_NoDup r l :
  NoDup (Shipment.resi <$> l) →
  NoDup (Shipment.resi <$> deleteOne (by_resi r) l).
Proof.
  intros H. eapply sublist_NoDup; [exact H|].
  apply fmap_sublist, deleteOne_sublist.
Qed.

Lemma forget_tokens id r db :
  Locker.lockerToken <$> lockers (forget id r db) = Locker.lockerToken <$> lockers db.
Proof. unfold forget. cbn. by apply fmap_updateOne. Qed.

(** X19: marking a shipment as handed to the customer, when tracking
    numbers are distinct: no shipment of the number is left, the others
    stay in their order, the number is gone from the pending list of the
    locker the shipment was assigned to, and no token changes.  The
    status of the shipment is not looked at. *)
Theorem delivered_customer_forgets_the_shipment :
  ∀ resi db j shipment,
    distinct_numbers db →
    findOne (by_resi resi) (shipments db) = Some (j, shipment) →
    let db' := (delivered_customer resi db).2 in
    (delivered_customer resi db).1 = Cleaned resi
    ∧ shipments db' = delete j (shipments db)
    ∧ findOne (by_resi resi) (shipments db') = None
    ∧ (∀ i l,
         findOne (by_lockerId (Shipment.lockerId shipment)) (lockers db')
         = Some (i, l) →
         resi ∉ Locker.pendingResi l)
    ∧ Locker.lockerToken <$> lockers db' = Locker.lockerToken <$> lockers db.
Proof.
  intros resi db j shipment Hnd F. unfold delivered_customer. rewrite F.
  cbn [fst snd]. cbv zeta. split; [done|]. split; [|split; [|split]].
  - cbn. by apply (deleteOne_found _ _ _ shipment).
  - cbn. rewrite deleteOne_by_resi by done. apply findOne_None.
    intros d Hd%list_elem_of_In%List.filter_In. destruct Hd as [_ Hd].
    by apply negb_true_iff in Hd.
  - intros i l. cbn. rewrite findOne_updateOne by done.
    destruct (findOne _ (lockers db)) as [[k l0]|]; [|done].
    intros [= <- <-]. apply includes_false. apply filter_removes.
  - apply forget_tokens.
Qed.

Lemma delivered_customer_witness :
  (delivered_customer "RESI00000002" Scenario.db_full).1 = Cleaned "RESI00000002"
  ∧ shipments (delivered_customer "RESI00000002" Scenario.db_full).2
    = delete 1 (shipments Scenario.db_full).
Proof.
  destruct (delivered_customer_forgets_the_shipment
              "RESI00000002" Scenario.db_full 1
              (Scenario.with_status "ready_for_pickup"
                 (Fixture.pending "RESI00000002" "A1"))) as (H1 & H2 & _).
  - by apply (bool_decide_unpack (NoDup _)).
  - reflexivity.
  - by split.
Defined.

(** X20: both ways of deleting evict a number from the validation
    cache when it has exactly one tracking record: afterwards no record
    of the number is left, so a new submission of it is neither refused
    as a duplicate nor served from the cache, and the provider is asked
    again. *)
Theorem deletion_evicts_the_cached_number :
  ∀ resi db t,
    toUpperCase (trim resi) = resi →
    truthy resi = true →
    List.filter (tracking_by_resi resi) (trackings db) = [t] →
    ∀ db',
      (db' = (delete_manual_resi resi db).2
       ∨ (db' = (delivered_customer resi db).2
          ∧ (delivered_customer resi db).1 = Cleaned resi)) →
      List.filter (tracking_by_resi resi) (trackings db') = []
      ∧ ∀ key provider now userId jne,
          truthy key = true →
          (manual_resi key provider now userId resi jne db').2
          = (tryCouriers provider jne resi courierPriority).2.
Proof.
  intros resi db t Hclean Htruthy Hone db' Hdb'.
  assert (List.filter (tracking_by_resi resi) (trackings db') = []) as Hnone.
  { destruct Hdb' as [->|[-> Hok]].
    - unfold delete_manual_resi. rewrite Hclean.
      destruct (findOne (tracking_by_resi resi) (trackings db)) as [[k x]|] eqn:F.
      + cbn. by apply (deleteOne_only _ _ t).
      + exfalso. pose proof (proj1 (findOne_None _ _) F) as Hn.
        assert (In t (List.filter (tracking_by_resi resi) (trackings db))) as Hin
          by (rewrite Hone; by left).
        apply List.filter_In in Hin as [Hin Hq].
        rewrite (Hn t) in Hq; [done|by apply list_elem_of_In].
    - unfold delivered_customer in *.
      destruct (findOne (by_resi resi) (shipments db)) as [[j s]|]; [|done].
      cbn. by apply (deleteOne_only _ _ t). }
  split; [done|].
  intros key provider now userId jne Hkey. unfold manual_resi.
  assert (truthy (trim resi) = true) as Ht.
  { rewrite <- truthy_upper. by rewrite Hclean. }
  rewrite Htruthy, Ht, Hclean, Hkey. cbn [negb orb].
  rewrite (filter_nil_findOne (tracking_by_resi resi) (own_record resi userId)
             _ Hnone), (filter_nil_findOne (tracking_by_resi resi)
                          (cached_record resi) _ Hnone).
  - by destruct (tryCouriers _ _ _ _) as [[[c p]|] calls].
  - unfold cached_record, tracking_by_resi. by intros x [? _]%andb_true_iff.
  - unfold own_record, tracking_by_resi. by intros x [? _]%andb_true_iff.
Qed.

Lemma deletion_evicts_witness :
  List.filter (tracking_by_resi "JX8009962760")
    (trackings (delete_manual_resi "JX8009962760" Scenario.db_unknown).2) = [].
Proof.
  exact (proj1 (deletion_evicts_the_cached_number
                  "JX8009962760" Scenario.db_unknown Scenario.unknown_record
                  eq_refl eq_refl eq_refl _ (or_introl eq_refl))).
Defined.

(** The shipments left by a run of deletions. *)
Lemma foldl_forget_shipments id found : ∀ db,
  shipments (foldl (λ db s, forget id (Shipment.resi s) db) db found)
  = foldl (λ l s, deleteOne (by_resi (Shipment.resi s)) l) (shipments db) found.
Proof. induction found as [|x found IH]; intros db; simpl; [done|]. by rewrite IH. Qed.

Lemma foldl_forget_tokens id found : ∀ db,
  Locker.lockerToken
    <$> lockers (foldl (λ db s, forget id (Shipment.resi s) db) db found)
  = Locker.lockerToken <$> lockers db.
Proof.
  induction found as [|x found IH]; intros db; simpl; [done|].
  by rewrite IH, forget_tokens.
Qed.

Lemma foldl_deleteOne_filter found : ∀ l,
  NoDup (Shipment.resi <$> l) →
  foldl (λ l s, deleteOne (by_resi (Shipment.resi s)) l) l found
  = List.filter
      (λ s, negb (includes (Shipment.resi s) (Shipment.resi <$> found))) l.
Proof.
  induction found as [|x found IH]; intros l Hnd; simpl.
  - symmetry. by apply filter_all.
  - rewrite IH by (by apply deleteOne_NoDup).
    rewrite deleteOne_by_resi by done. rewrite filter_filter.
    apply List.filter_ext. intros s. unfold by_resi, includes. simpl.
    by rewrite negb_orb.
Qed.

(** X21: the load-cell notification, when tracking numbers are
    distinct.  A weight that compares below one kilogram (a number below
    1, or the JSON null, which the comparison takes as zero) deletes
    every shipment that is delivered to the locker or ready for pick-up
    there and keeps every other shipment, in order, reporting how many
    went; a number that is not below 1 (NaN included) or an absent
    weight deletes nothing.  No token changes either way. *)
Theorem package_removed_empties_the_locker :
  ∀ lockerId weight db i locker,
    distinct_numbers db →
    findOne (by_lockerId lockerId) (lockers db) = Some (i, locker) →
    let db' := (package_removed lockerId weight db).2 in
    (if below_threshold weight
     then shipments db'
          = List.filter (λ s, negb (in_locker lockerId s)) (shipments db)
          ∧ (package_removed lockerId weight db).1
            = match List.filter (in_locker lockerId) (shipments db) with
              | [] => NothingToCheck
              | found => Removed (length found)
              end
     else db' = db)
    ∧ Locker.lockerToken <$> lockers db' = Locker.lockerToken <$> lockers db.
Proof.
  intros lockerId weight db i locker Hnd F. unfold package_removed. rewrite F.
  cbv zeta.
  destruct (List.filter (in_locker lockerId) (shipments db)) as [|x found] eqn:Hf.
  { cbn [fst snd]. split; [|done]. destruct (below_threshold weight); [|done].
    split; [|done]. symmetry. apply filter_all. intros s Hs.
    destruct (in_locker lockerId s) eqn:E; [|done]. exfalso.
    assert (In s (List.filter (in_locker lockerId) (shipments db))) as Hin
      by (apply List.filter_In; split; [by apply list_elem_of_In|done]).
    by rewrite Hf in Hin. }
  destruct (below_threshold weight); cbn [fst snd]; [|done].
  split; [|apply foldl_forget_tokens]. split; [|done].
  rewrite foldl_forget_shipments, foldl_deleteOne_filter by done.
  apply List.filter_ext_in. intros s Hs%list_elem_of_In. f_equal.
  rewrite <- Hf. destruct (in_locker lockerId s) eqn:E.
  - apply includes_elem_of, list_elem_of_fmap_2, list_elem_of_In, List.filter_In.
    split; [by apply list_elem_of_In|done].
  - apply includes_false. intros (s' & Hr & Hs')%list_elem_of_fmap.
    apply list_elem_of_In, List.filter_In in Hs' as [Hs' E'].
    apply list_elem_of_In in Hs'.
    assert (s = s') as <- by (by apply (NoDup_fmap_eq Shipment.resi (shipments db))).
    congruence.
Qed.

Lemma package_removed_witness :
  shipments (package_removed "A1" Null Scenario.db_full).2
  = [Fixture.pending "RESI00000003" "A1";
     Scenario.with_status "delivered_to_locker" (Fixture.pending "RESI00000004" "B2")]
  ∧ (package_removed "A1" Null Scenario.db_full).1 = Removed 2.
Proof.
  refine (proj1 (package_removed_empties_the_locker
                   "A1" Null Scenario.db_full 0 Fixture.lockerA _ eq_refl)).
  by apply (bool_decide_unpack (NoDup _)).
Defined.

End PickupFacts.

(** ** Weight sessions *)

Module WeightSessionFacts.
Import JsString Deposit Weight WeightStatus Spec2 BasicFacts.

(** Only the two zeros are equal to zero, and both are in range. *)
Lemma zero_in_range w : PrimFloat.eqb w 0%float = true → in_range w = true.
Proof.
  unfold in_range, PrimFloat.is_nan.
  rewrite !FloatAxioms.eqb_spec, !FloatAxioms.ltb_spec.
  change (Prim2SF 0) with (S754_zero false).
  destruct (Prim2SF w) as [[]|[]| |[] m e]; intros E;
    first [ discriminate E | vm_compute; reflexivity ].
Qed.

(** Reading a number back does not move it into or out of the range. *)
Lemma parseFloat_in_range w : in_range (JsNumber.parseFloat w) = in_range w.
Proof.
  unfold JsNumber.parseFloat. destruct (PrimFloat.eqb w 0) eqn:E; [|done].
  by rewrite (zero_in_range w E).
Qed.

(** The reading operation, by cases. *)
Lemma weight_reading_cases now id w st :
  weight_reading now id w st
  = if in_range w then
      match weightSessions st !! id with
      | Some session =>
          if Session.active session
          then (ReadingRecorded (S (length (Session.readings session)))
                  (JsNumber.parseFloat w),
                mkState (<[id := Session.push_reading
                                   (Reading.mk (JsNumber.parseFloat w) now)
                                   session]> (weightSessions st)) (db st))
          else (NoActiveSession, st)
      | None => (NoActiveSession, st)
      end
    else (InvalidWeight, st).
Proof.
  unfold weight_reading. cbv zeta.
  rewrite <- (parseFloat_in_range w). unfold in_range at 1.
  destruct (_ || _ || _); cbn [negb]; [done|].
  destruct (weightSessions st !! id) as [s|]; [|done].
  destruct (Session.active s); cbn [negb]; [|done].
  cbn. by rewrite length_app, Nat.add_1_r.
Qed.

Lemma run_op_in_range op st :
  readings_in_range st → readings_in_range (run_op op st).
Proof.
  intros Inv. destruct op as [now id resi|now id w|now id]; simpl.
  - unfold weight_start. destruct (negb (truthy resi)); [done|]. simpl.
    intros k s. cbn [weightSessions]. rewrite lookup_insert_Some.
    intros [[_ <-]|[_ Hk]]; [constructor|by apply (Inv k)].
  - rewrite weight_reading_cases.
    destruct (in_range w) eqn:Hw; [|done].
    destruct (weightSessions st !! id) as [s0|] eqn:E; [|done].
    destruct (Session.active s0); [|done]. simpl.
    intros k s. cbn [weightSessions]. rewrite lookup_insert_Some.
    intros [[_ <-]|[_ Hk]]; [|by apply (Inv k)].
    simpl. apply Forall_app. split; [by apply (Inv id)|].
    repeat constructor. simpl. by rewrite parseFloat_in_range.
  - unfold weight_finalize.
    destruct (weightSessions st !! id) as [s0|] eqn:E; [|done].
    destruct (negb (Session.active s0)); [done|].
    destruct (length (Session.readings s0) <? 2)%nat; [done|].
    destruct (first_last (Session.readings s0)) as [[a b]|]; [|done].
    assert (∀ d, readings_in_range
                   (mkState (<[id := Session.deactivate s0]> (weightSessions st)) d))
      as Hclosed.
    { intros d k s. cbn [weightSessions]. rewrite lookup_insert_Some.
      intros [[_ <-]|[_ Hk]]; [by apply (Inv id s0)|by apply (Inv k)]. }
    destruct (findOne _ _) as [[j sh]|]; [|apply Hclosed].
    destruct (Shipment.weight sh); apply Hclosed.
Qed.

Lemma run_in_range ops : ∀ st,
  readings_in_range st → readings_in_range (run ops st).
Proof.
  induction ops as [|op ops IH]; intros st Inv; [done|].
  apply IH. by apply run_op_in_range.
Qed.

(** X22: whatever is sent to the three session operations, in whatever
    order and for whatever lockers, every reading that a session holds is
    a number from 0 to 50: a reading outside the range (or not a number)
    never enters a session. *)
Theorem sessions_hold_valid_readings_only :
  ∀ ops store, readings_in_range (run ops (mkState ∅ store)).
Proof.
  intros ops store. apply run_in_range.
  intros k s H. cbn [weightSessions] in H. by rewrite lookup_empty in H.
Qed.

(** The session of a locker after a batch of readings. *)
Lemma send_readings_lookup now id ws : ∀ st s,
  weightSessions st !! id = Some s →
  Session.active s = true →
  weightSessions (send_readings now id ws st) !! id
  = Some (Session.mk (Session.sessionId s) (Session.resi s) (Session.startedAt s)
            (Session.readings s ++ ((λ w, Reading.mk w now) <$> recorded ws))
            true)
  ∧ db (send_readings now id ws st) = db st.
Proof.
  induction ws as [|w ws IH]; intros st s Hs Ha.
  - simpl. rewrite app_nil_r. split; [|done]. rewrite Hs. destruct s. simpl in *.
    by subst.
  - change (send_readings now id (w :: ws) st)
      with (send_readings now id ws (weight_reading now id w st).2).
    change (recorded (w :: ws))
      with (if in_range (JsNumber.parseFloat w)
            then JsNumber.parseFloat w :: recorded ws else recorded ws).
    rewrite parseFloat_in_range, weight_reading_cases, Hs, Ha.
    destruct (in_range w) eqn:Hw; [|by apply IH]. cbn [snd].
    destruct (IH (mkState (<[id := Session.push_reading
                                     (Reading.mk (JsNumber.parseFloat w) now) s]>
                             (weightSessions st)) (db st))
                (Session.push_reading (Reading.mk (JsNumber.parseFloat w) now) s))
      as [E1 E2].
    + cbn. by rewrite lookup_insert_eq.
    + done.
    + rewrite E1, E2. cbn. by rewrite <- app_assoc.
Qed.

(** X23: starting a session replaces whatever session the locker had;
    each reading sent afterwards is read with parseFloat (which turns -0
    into 0) and recorded exactly when that value is a number from 0 to
    50, in the order sent; the status operation then shows the session
    as active with the count of the recorded values and the last of them
    as the latest weight.  The store is not touched. *)
Theorem session_records_the_valid_readings :
  ∀ now0 now lockerId resi ws st,
    truthy resi = true →
    let st' := send_readings now lockerId ws (weight_start now0 lockerId resi st).2 in
    weight_status lockerId st'
    = Some (mkStatus (lockerId, now0) (toUpperCase (trim resi)) now0 true
              (length (recorded ws)) (last (recorded ws)))
    ∧ db st' = db st.
Proof.
  intros now0 now lockerId resi ws st Hr. cbv zeta.
  unfold weight_start. rewrite Hr. cbn [negb snd].
  match goal with
  | |- context [send_readings now lockerId ws ?st1] =>
      destruct (send_readings_lookup now lockerId ws st1
                  (Session.mk (lockerId, now0) (toUpperCase (trim resi)) now0 [] true))
        as [E1 E2]
  end.
  { cbn. by rewrite lookup_insert_eq. }
  { done. }
  split; [|by rewrite E2].
  unfold weight_status. rewrite E1. cbn.
  rewrite length_fmap. do 2 f_equal.
  rewrite list_lookup_fmap, last_lookup, Nat.sub_1_r.
  by destruct (recorded ws !! _).
Qed.

Lemma session_records_witness :
  weight_status "A1"
    (send_readings 2%Z "A1" [5%float; 70%float; (-0)%float; 4.5%float]
       (weight_start 1%Z "A1" " resi00000001 " (mkState ∅ Fixture.db0)).2)
  = Some (mkStatus ("A1", 1%Z) "RESI00000001" 1%Z true 3 (Some 4.5%float)).
Proof.
  exact (proj1 (session_records_the_valid_readings
                  1%Z 2%Z "A1" " resi00000001 "
                  [5%float; 70%float; (-0)%float; 4.5%float]
                  (mkState ∅ Fixture.db0) eq_refl)).
Defined.


End WeightSessionFacts.

(** ** Weight given at the deposit, and the shape of tokens *)

Module TokenFacts.
Import JsString Token Deposit Weight Spec Spec2 BasicFacts DepositFacts.
Import DepositFlow WeightFacts.

Lemma unhex_hex_byte b : unhex_byte (hex_byte b) = Some b.
Proof. destruct b as [[] [] [] [] [] [] [] []]; vm_compute; reflexivity. Qed.

Lemma hex_byte_inj b b' : hex_byte b = hex_byte b' → b = b'.
Proof.
  intros H. apply (f_equal unhex_byte) in H.
  rewrite !unhex_hex_byte in H. by injection H.
Qed.

Lemma hex_byte_app_inj b b' s t :
  hex_byte b +:+ s = hex_byte b' +:+ t → b = b' ∧ s = t.
Proof.
  unfold hex_byte. rewrite !str_app_cons, !str_app_nil.
  intros [= H1 H2 ->]. split; [|done].
  apply hex_byte_inj. unfold hex_byte. f_equal; [exact H1|f_equal; exact H2].
Qed.

Lemma hex_inj r r' : hex r = hex r' → r = r'.
Proof.
  destruct r as [a0 a1 a2 a3 a4 a5], r' as [b0 b1 b2 b3 b4 b5].
  unfold hex. cbn [byte0 byte1 byte2 byte3 byte4 byte5].
  intros [-> H]%hex_byte_app_inj. apply hex_byte_app_inj in H as [-> H].
  apply hex_byte_app_inj in H as [-> H]. apply hex_byte_app_inj in H as [-> H].
  apply hex_byte_app_inj in H as [-> H]. by apply hex_byte_inj in H as ->.
Qed.

Lemma str_app_inv_head a x y : a +:+ x = a +:+ y → x = y.
Proof.
  induction a as [|c a IH]; [by rewrite !str_app_nil|].
  rewrite !str_app_cons. intros [= H]. by apply IH.
Qed.

(** X25: a token is its prefix, a dash and twelve hexadecimal digits,
    and it determines the six random bytes it was drawn from: two tokens
    for one prefix coincide only when the random bytes do. *)
Theorem randomToken_determines_its_bytes :
  ∀ prefix rnd rnd',
    (randomToken prefix rnd = randomToken prefix rnd' ↔ rnd = rnd')
    ∧ String.length (randomToken prefix rnd) = (String.length prefix + 13)%nat
    ∧ strip_prefix false (prefix +:+ "-") (randomToken prefix rnd)
      = Some (hex rnd).
Proof.
  intros prefix rnd rnd'. unfold randomToken. split; [|split].
  - split; [|by intros ->].
    intros H%str_app_inv_head%str_app_inv_head. by apply hex_inj.
  - rewrite !str_length_app, hex_length. simpl. lia.
  - rewrite <- str_app_assoc. apply strip_prefix_app.
Qed.

Lemma findOne_by_resi_and_locker r id l : ∀ j s,
  findOne (by_resi r) l = Some (j, s) →
  Shipment.lockerId s = id →
  findOne (by_resi_and_locker r id) l = Some (j, s).
Proof.
  induction l as [|x l IH]; intros j s; simpl; [done|].
  unfold by_resi_and_locker at 1. unfold by_resi at 1.
  destruct (String.eqb (Shipment.resi x) r); cbn [andb].
  - intros [= <- <-] <-. by rewrite String.eqb_refl.
  - destruct (findOne (by_resi r) l) as [[k y]|]; [|done].
    intros [= <- <-] Hid. by rewrite (IH k y eq_refl Hid).
Qed.

(** X26: the weight given with a token deposit wins over the weight
    session.  When the deposit carried a usable weight, it is stored
    rounded to three decimals, and a later finalize of a session for that
    number answers that the weight is already recorded, with the
    deposit's weight and time, and leaves the store as the deposit left
    it. *)
Theorem deposit_weight_wins_over_session :
  ∀ now rnd req db w j shipment now' lockerId sessions session,
    TokenReq.weight req = Some w →
    weight_usable (Some w) = true →
    findOne (by_resi (TokenReq.resi req)) (shipments db) = Some (j, shipment) →
    Shipment.lockerId shipment = TokenReq.lockerId req →
    is_ok (deposit_token now rnd req db).1 = true →
    sessions !! lockerId = Some session →
    Session.active session = true →
    (2 ≤ length (Session.readings session))%nat →
    Session.resi session = TokenReq.resi req →
    weight_finalize now' lockerId
      (mkState sessions (deposit_token now rnd req db).2)
    = (AlreadyRecorded (TokenReq.resi req) (JsNumber.toFixed3 w) (Some now),
       mkState (<[lockerId := Session.deactivate session]> sessions)
         (deposit_token now rnd req db).2).
Proof.
  intros now rnd [id tok resi weight requestId] db w j shipment now' lockerId
    sessions session Hw Hu F Hid Hok Hs Ha Hlen Hresi.
  cbn [TokenReq.weight TokenReq.resi TokenReq.lockerId] in *. subst weight.
  pose proof (findOne_by_resi_and_locker _ _ _ _ _ F Hid) as F'.
  pose proof (findOne_Some _ _ _ _ F) as [_ Hq].
  unfold deposit_token in *.
  cbn [TokenReq.weight TokenReq.resi TokenReq.lockerId TokenReq.lockerToken
       TokenReq.requestId] in *.
  destruct (negb (truthy id) || negb (truthy tok) || negb (truthy resi)); [done|].
  destruct (findOne (by_lockerId id) (lockers db)) as [[i locker]|]; [|done].
  destruct (negb (token_matches _ _)); [done|].
  rewrite F' in *.
  destruct (negb (String.eqb (Shipment.status shipment) "pending_locker")); [done|].
  rewrite Hu. cbn [fst snd]. clear Hok.
  unfold weight_finalize. cbn [weightSessions Weight.db]. rewrite Hs, Ha.
  cbn [negb]. apply Nat.ltb_ge in Hlen. rewrite Hlen.
  apply Nat.ltb_ge in Hlen.
  destruct (first_last_Some _ Hlen) as [[a b] ->]. rewrite Hresi.
  cbn [shipments set_shipments set_lockers].
  match goal with
  | |- context [save j ?s' (shipments db)] =>
      rewrite (findOne_save_same (by_resi resi) (shipments db) j shipment s' F Hq)
  end.
  cbn. apply String.eqb_eq in Hq. by rewrite Hq.
Qed.

Lemma deposit_weight_witness :
  (weight_finalize 9%Z "A1"
     (mkState (weightSessions (Fixture.measuring [5%float; 4.3%float] None))
        (deposit_token 3%Z Fixture.rnd1
           (TokenReq.mk "A1" Fixture.tokenA "RESI00000001" (Some 1.2345%float)
              "SCAN-1") Fixture.db0).2)).1
  = AlreadyRecorded "RESI00000001" 1.234%float (Some 3%Z).
Proof.
  rewrite (deposit_weight_wins_over_session
             3%Z Fixture.rnd1
             (TokenReq.mk "A1" Fixture.tokenA "RESI00000001" (Some 1.2345%float)
                "SCAN-1")
             Fixture.db0 1.2345%float 0 (Fixture.pending "RESI00000001" "A1")
             9%Z "A1"
             (weightSessions (Fixture.measuring [5%float; 4.3%float] None))
             (Session.mk ("A1", 0%Z) "RESI00000001" 0%Z
                [Reading.mk 5%float 1%Z; Reading.mk 4.3%float 1%Z] true)
             eq_refl eq_refl eq_refl eq_refl eq_refl);
    [| by vm_compute | reflexivity | simpl; lia | reflexivity].
  vm_compute. reflexivity.
Defined.

End TokenFacts.

(** ** Locker assignment, and a shipment from deposit to pick-up *)

Module LifecycleFacts.
Import JsString Token Deposit LockerLog Binderbyte Validation Spec Spec2.
Import BasicFacts DepositFacts DepositFlow ValidationFacts VerifierFacts PickupFacts.

Lemma available_locker_spec userId l :
  available_locker userId l = true →
  Locker.customerId l = Some userId
  ∧ Locker.status l = "online" ∧ Locker.isActive l = true.
Proof.
  unfold available_locker.
  intros [[H1 H2%String.eqb_eq]%andb_true_iff H3]%andb_true_iff.
  destruct (Locker.customerId l) as [u|]; [|done].
  simpl in H1. apply String.eqb_eq in H1 as ->. done.
Qed.

Lemma assign_locker_spec userId db id :
  assign_locker userId db = Some id →
  ∃ i l,
    lockers db !! i = Some l
    ∧ Locker.lockerId l = id
    ∧ Locker.customerId l = Some userId
    ∧ Locker.status l = "online" ∧ Locker.isActive l = true.
Proof.
  unfold assign_locker.
  destruct (findOne _ _) as [[i l]|] eqn:F; [|done]. intros [= <-].
  apply findOne_Some in F as [Hi Hq].
  destruct (available_locker_spec _ _ Hq) as (? & ? & ?). by exists i, l.
Qed.

(** X27: a submission never assigns a locker of somebody else: the
    locker named in a 200 answer is a locker of the store whose customer
    is the requester and that is on line and active, and the record
    stored for the requester names the same locker, assigned now. *)
Theorem assigned_locker_belongs_to_requester :
  ∀ key provider now userId resi jne db id,
    assigned (manual_resi key provider now userId resi jne db).1.1 = Some id →
    (∃ i l,
       lockers db !! i = Some l
       ∧ Locker.lockerId l = id
       ∧ Locker.customerId l = Some userId
       ∧ Locker.status l = "online" ∧ Locker.isActive l = true)
    ∧ ∃ t,
        last (trackings (manual_resi key provider now userId resi jne db).1.2)
        = Some t
        ∧ CustomerTracking.customerId t = userId
        ∧ CustomerTracking.assignedLockerId t = Some id
        ∧ CustomerTracking.lockerAssignedAt t = Some now.
Proof.
  intros key provider now userId resi jne db id.
  open_manual_resi key resi; cbn; try done; intros Ha;
    (split; [by apply assign_locker_spec|]);
    unfold create; rewrite last_snoc; eexists; (split; [reflexivity|]);
    cbn; rewrite Ha; done.
Qed.

Lemma assigned_locker_witness :
  ∃ i l,
    lockers Fixture.db0 !! i = Some l
    ∧ Locker.lockerId l = "A1"
    ∧ Locker.customerId l = Some "user1"
    ∧ Locker.status l = "online" ∧ Locker.isActive l = true.
Proof.
  exact (proj1 (assigned_locker_belongs_to_requester
                  "key" Fixture.provider_jnt 5%Z "user1" "JX8009962760" None
                  Fixture.db0 "A1" eq_refl)).
Defined.

(** With distinct tracking numbers the shipment a deposit found is the
    one every handler finds by its number. *)
Lemma findOne_by_resi_distinct r id l j s :
  NoDup (Shipment.resi <$> l) →
  findOne (by_resi_and_locker r id) l = Some (j, s) →
  findOne (by_resi r) l = Some (j, s).
Proof.
  intros Hnd F. pose proof (findOne_Some _ _ _ _ F) as [Hj Hq].
  apply andb_true_iff in Hq as [Hq _].
  destruct (findOne (by_resi r) l) as [[k x]|] eqn:E.
  - pose proof (findOne_Some _ _ _ _ E) as [Hk Hx].
    assert (x = s) as ->.
    { apply (NoDup_fmap_eq Shipment.resi l);
        [done|by eapply list_elem_of_lookup_2..|].
      apply String.eqb_eq in Hq, Hx. congruence. }
    f_equal. f_equal.
    apply (NoDup_lookup (Shipment.resi <$> l) k j (Shipment.resi s)); [done|..];
      by rewrite list_lookup_fmap, ?Hk, ?Hj.
  - pose proof (proj1 (findOne_None _ _) E s) as Hn. unfold by_resi in Hn.
    rewrite Hn in Hq; [done|by eapply list_elem_of_lookup_2].
Qed.

(** X28: a shipment from deposit to pick-up, with distinct tracking
    numbers.  After a successful token deposit the shipment is
    delivered_to_locker; the controller's locker_closed event for the
    number makes it ready_for_pickup, its opened_by_customer event makes
    it completed and stamps the pick-up time, and each event adds one
    entry to the log of the shipment; the events change no locker. *)
Theorem shipment_goes_from_deposit_to_pickup :
  ∀ c db now1 now2 extra1 extra2,
    distinct_numbers db →
    is_ok (step c db).1 = true →
    let db1 := (step c db).2 in
    let db2 := (locker_log now1 (target c)
                  (Req.mk "locker_closed" (Some (tracking_number c)) extra1) db1).2 in
    let db3 := (locker_log now2 (target c)
                  (Req.mk "opened_by_customer" (Some (tracking_number c)) extra2)
                  db2).2 in
    ∃ j s1 s2 s3,
      shipments db1 !! j = Some s1
      ∧ Shipment.status s1 = "delivered_to_locker"
      ∧ shipments db2 !! j = Some s2
      ∧ Shipment.status s2 = "ready_for_pickup"
      ∧ shipments db3 !! j = Some s3
      ∧ Shipment.status s3 = "completed"
      ∧ Shipment.pickedUpAt s3 = Some now2
      ∧ Shipment.resi s3 = tracking_number c
      ∧ length (Shipment.logs s3) = S (S (length (Shipment.logs s1)))
      ∧ lockers db3 = lockers db1.
Proof.
  intros c db now1 now2 extra1 extra2 Hnd Hok.
  destruct (step_ok_inv c db Hok)
    as (i & locker & j & shipment & locker' & s1 & _ & _ & Hfound & _ & E
        & _ & (Hst & Hresi & Hlock) & _).
  apply (findOne_by_resi_distinct _ _ _ _ _ Hnd) in Hfound.
  pose proof (findOne_Some _ _ _ _ Hfound) as [Hj Hq].
  cbv zeta. rewrite E.
  set (R := tracking_number c) in *.
  assert (by_resi R s1 = true) as Hq1.
  { unfold by_resi in *. by rewrite Hresi. }
  assert (findOne (by_resi R) (save j s1 (shipments db)) = Some (j, s1)) as F1
    by (by apply (findOne_save_same _ _ _ shipment)).
  set (e1 := LogEntry.mk "locker_closed" (target c) (Some R) now1
               (match extra1 with Some e => ExtraRaw e | None => ExtraNull end)).
  set (s2 := apply_event "locker_closed" now1 (Shipment.push_log e1 s1)).
  assert (Shipment.status s2 = "ready_for_pickup"
          ∧ by_resi R s2 = true
          ∧ length (Shipment.logs s2) = S (length (Shipment.logs s1)))
    as (Hst2 & Hq2 & Hl2).
  { unfold s2, apply_event. cbn. rewrite Hst. cbn. repeat split; [done|].
    rewrite length_app. simpl. lia. }
  set (e2 := LogEntry.mk "opened_by_customer" (target c) (Some R) now2
               (match extra2 with Some e => ExtraRaw e | None => ExtraNull end)).
  set (s3 := apply_event "opened_by_customer" now2 (Shipment.push_log e2 s2)).
  assert (j < length (shipments db))%nat as Hlt by (by apply lookup_lt_Some in Hj).
  set (db1 := mkDb (save i locker' (lockers db)) (save j s1 (shipments db))
                   (trackings db)).
  set (db2 := mkDb (save i locker' (lockers db)) (save j s2 (shipments db))
                   (trackings db)).
  set (db3 := mkDb (save i locker' (lockers db)) (save j s3 (shipments db))
                   (trackings db)).
  assert ((locker_log now1 (target c) (Req.mk "locker_closed" (Some R) extra1)
             db1).2 = db2) as ->.
  { unfold locker_log, debug_trace. cbn [Req.resi Req.event Req.extra].
    change (includes "locker_closed" ["locker_opened"; "opened_by_courier"])
      with false.
    cbn [shipments db1]. rewrite F1. cbn [snd set_shipments shipments lockers
      trackings db1]. by rewrite save_save. }
  assert (findOne (by_resi R) (save j s2 (shipments db)) = Some (j, s2)) as F2
    by (by apply (findOne_save_same _ _ _ shipment)).
  assert ((locker_log now2 (target c) (Req.mk "opened_by_customer" (Some R) extra2)
             db2).2 = db3) as ->.
  { unfold locker_log, debug_trace. cbn [Req.resi Req.event Req.extra].
    change (includes "opened_by_customer" ["locker_opened"; "opened_by_courier"])
      with false.
    cbn [shipments db2]. rewrite F2. cbn [snd set_shipments shipments lockers
      trackings db2]. by rewrite save_save. }
  exists j, s1, s2, s3. cbn [shipments lockers db1 db2 db3]. unfold save.
  rewrite !list_lookup_insert_eq by done.
  repeat split; try done.
  - change (Shipment.resi s3) with (Shipment.resi s2).
    unfold by_resi in Hq2. by apply String.eqb_eq in Hq2.
  - change (Shipment.logs s3) with (Shipment.logs s2 ++ [e2])%list.
    rewrite length_app, Hl2. simpl. lia.
Qed.

Lemma shipment_lifecycle_witness :
  let c := ViaToken 3%Z Fixture.rnd1
             (Fixture.token_req "A1" Fixture.tokenA "RESI00000001") in
  let db1 := (step c Fixture.db0).2 in
  let db2 := (locker_log 4%Z "A1"
                (Req.mk "locker_closed" (Some "RESI00000001") None) db1).2 in
  let db3 := (locker_log 5%Z "A1"
                (Req.mk "opened_by_customer" (Some "RESI00000001") None) db2).2 in
  ∃ j s1 s2 s3,
    shipments db1 !! j = Some s1
    ∧ Shipment.status s1 = "delivered_to_locker"
    ∧ shipments db2 !! j = Some s2
    ∧ Shipment.status s2 = "ready_for_pickup"
    ∧ shipments db3 !! j = Some s3
    ∧ Shipment.status s3 = "completed"
    ∧ Shipment.pickedUpAt s3 = Some 5%Z
    ∧ Shipment.resi s3 = "RESI00000001"
    ∧ length (Shipment.logs s3) = S (S (length (Shipment.logs s1)))
    ∧ lockers db3 = lockers db1.
Proof.
  refine (shipment_goes_from_deposit_to_pickup
            (ViaToken 3%Z Fixture.rnd1
               (Fixture.token_req "A1" Fixture.tokenA "RESI00000001"))
            Fixture.db0 4%Z 5%Z None None _ eq_refl).
  by apply (bool_decide_unpack (NoDup _)).
Defined.

End LifecycleFacts.

(** ** Rotation and single use of tokens, over the four deposit operations *)

Module TokenUse.
Import JsString Token Deposit Spec Deposits BasicFacts CleanFacts DepositFacts.
Import DepositFlow.

Lemma db_eta db : mkDb (lockers db) (shipments db) (trackings db) = db.
Proof. by destruct db. Qed.

(** The plate deposit: it fails and changes nothing, or rotates the
    token of the locker that held the presented one. *)
Lemma plate_inv now rnd tok plate db :
  (is_ok (deposit_plate now rnd tok plate db).1 = false
   ∧ (deposit_plate now rnd tok plate db).2 = db)
  ∨ (∃ i locker locker' ss,
       findOne (by_token (trim tok)) (lockers db) = Some (i, locker)
       ∧ is_ok (deposit_plate now rnd tok plate db).1 = true
       ∧ (deposit_plate now rnd tok plate db).2
         = mkDb (save i locker' (lockers db)) ss (trackings db)
       ∧ Locker.lockerId locker' = Locker.lockerId locker
       ∧ Locker.lockerToken locker'
         = Some (randomToken ("LK-" +:+ Locker.lockerId locker) rnd)).
Proof.
  unfold deposit_plate.
  destruct (negb (truthy tok) || negb (truthy plate)); [by left|].
  destruct (findOne (by_token (trim tok)) (lockers db)) as [[i locker]|];
    [|by left].
  destruct (findOne (pending_for_plate _ _) _) as [[j shipment]|]; [|by left].
  right. by eexists i, locker, _, _.
Qed.

(** The legacy deposit: it fails and changes nothing but for the locker
    [getLocker] may create, or rotates the token of the locker named. *)
Lemma legacy_inv now rnd0 rnd id token resi db :
  (is_ok (locker_deposit now rnd0 rnd id token resi db).1 = false
   ∧ (locker_deposit now rnd0 rnd id token resi db).2
     = mkDb (lockers db ++ created (Legacy now rnd0 rnd id token resi) db)
            (shipments db) (trackings db))
  ∨ (∃ i locker locker' ss,
       findOne (by_lockerId id) (lockers db) = Some (i, locker)
       ∧ Locker.lockerToken locker = Some token
       ∧ is_ok (locker_deposit now rnd0 rnd id token resi db).1 = true
       ∧ (locker_deposit now rnd0 rnd id token resi db).2
         = mkDb (save i locker' (lockers db)) ss (trackings db)
       ∧ Locker.lockerId locker' = Locker.lockerId locker
       ∧ Locker.lockerToken locker' = Some (randomToken ("LK-" +:+ id) rnd)).
Proof.
  unfold locker_deposit, created, getLocker.
  destruct (truthy token) eqn:Ht; cbn [negb orb andb];
    [|left; by rewrite app_nil_r, db_eta].
  destruct (truthy resi) eqn:Hr; cbn [negb];
    [|left; by rewrite app_nil_r, db_eta].
  destruct (findOne (by_lockerId id) (lockers db)) as [[i locker]|] eqn:F.
  - destruct (Locker.lockerToken locker) as [t|] eqn:Htok; cbn [from_option];
      [|left; by rewrite app_nil_r, db_eta].
    destruct (String.eqb_spec token t) as [<-|]; cbn [negb];
      [|left; by rewrite app_nil_r, db_eta].
    destruct (includes resi (Locker.pendingResi locker)); cbn [negb];
      [|left; by rewrite app_nil_r, db_eta].
    destruct (findOne (by_resi resi) (shipments db)) as [[j shipment]|];
      [|left; by rewrite app_nil_r, db_eta].
    right. by eexists i, locker, _, _.
  - left. cbn. by destruct (String.eqb token _).
Qed.

(** Every deposit call fails, changing no locker document, or replaces
    one document, whose token it consumed. *)
Lemma step_cases c db :
  (is_ok (step c db).1 = false
   ∧ (step c db).2
     = mkDb (lockers db ++ created c db) (shipments db) (trackings db)
   ∧ rotation c db = None)
  ∨ (∃ i locker locker' ss t',
       is_ok (step c db).1 = true
       ∧ lockers db !! i = Some locker
       ∧ Locker.lockerToken locker = Some (presented c)
       ∧ (step c db).2 = mkDb (<[i := locker']> (lockers db)) ss (trackings db)
       ∧ Locker.lockerId locker' = Locker.lockerId locker
       ∧ Locker.lockerToken locker' = Some t'
       ∧ rotation c db = Some t'
       ∧ generated_for (Locker.lockerId locker) t' = true
       ∧ created c db = []).
Proof.
  destruct c as [c|now rnd tok plate|now rnd0 rnd id token resi].
  - unfold rotation. cbn [step created presented].
    destruct (step_inv c db) as [[Hf Hdb]|
      (i & locker & j & shipment & r & locker' & shipment'
         & R & T & _ & _ & Hstep & Hok & (Hid & Hnew & _) & _)].
    + left. by rewrite Hf, Hdb, app_nil_r, db_eta.
    + right. apply token_matches_spec in T as [Htok _].
      destruct R as (_ & _ & _ & E).
      pose proof (findOne_Some _ _ _ _ E) as [Hi Hq%String.eqb_eq].
      exists i, locker, locker', (save j shipment' (shipments db)), (drawn c).
      rewrite Hstep. cbn [fst snd]. rewrite Hok.
      repeat split; try done. rewrite Hq.
      destruct c; apply generated_for_randomToken.
  - unfold rotation. cbn [step created presented].
    destruct (plate_inv now rnd tok plate db) as [[Hf Hdb]|
      (i & locker & locker' & ss & F & Hok & Hdb & Hid & Hnew)].
    + left. by rewrite Hf, Hdb, app_nil_r, db_eta.
    + right. pose proof (findOne_Some _ _ _ _ F) as [Hi Hq].
      exists i, locker, locker', ss,
        (randomToken ("LK-" +:+ Locker.lockerId locker) rnd).
      rewrite Hok, Hdb, F. repeat split; try done.
      * unfold by_token in Hq.
        destruct (Locker.lockerToken locker) as [t|]; [|done].
        by apply String.eqb_eq in Hq as ->.
      * apply generated_for_randomToken.
  - unfold rotation. cbn [step presented].
    destruct (legacy_inv now rnd0 rnd id token resi db) as [[Hf Hdb]|
      (i & locker & locker' & ss & F & Htok & Hok & Hdb & Hid & Hnew)].
    + left. by rewrite Hf, Hdb.
    + right. pose proof (findOne_Some _ _ _ _ F) as [Hi Hq%String.eqb_eq].
      exists i, locker, locker', ss, (randomToken ("LK-" +:+ id) rnd).
      rewrite Hok, Hdb. repeat split; try done.
      * rewrite Hq. apply generated_for_randomToken.
      * unfold created. rewrite F. by destruct (truthy token && truthy resi).
Qed.

(** A store of generated tokens with distinct ids has consumed none. *)
Lemma unused_initially db :
  distinct_ids db → tokens_generated db = true → unused [] db.
Proof.
  intros Hnd G. split; [done|]. intros k l t Hk Ht.
  split; [apply not_elem_of_nil|].
  unfold tokens_generated in G. rewrite forallb_forall in G.
  specialize (G l). rewrite Ht in G. apply G.
  apply list_elem_of_In. by eapply list_elem_of_lookup_2.
Qed.

(** The locker [getLocker] adds keeps the invariant when its token is
    fresh. *)
Lemma unused_created used c db :
  unused used db →
  forallb (λ t, negb (includes t used)) (omap Locker.lockerToken (created c db))
  = true →
  unused used (mkDb (lockers db ++ created c db) (shipments db) (trackings db)).
Proof.
  intros [Hnd Inv] Hf.
  destruct c as [c|now rnd tok plate|now rnd0 rnd id token resi];
    try (cbn [created]; rewrite app_nil_r, db_eta; by split).
  unfold created in *.
  destruct (truthy token && truthy resi);
    [|rewrite app_nil_r, db_eta; by split].
  destruct (findOne (by_lockerId id) (lockers db)) as [[i l]|] eqn:F;
    [rewrite app_nil_r, db_eta; by split|].
  cbn -[includes] in Hf. rewrite andb_true_r in Hf.
  apply negb_true_iff, includes_false in Hf.
  split.
  - unfold distinct_ids. cbn [lockers]. rewrite fmap_app. cbn.
    apply NoDup_app. split; [done|]. split; [|apply NoDup_singleton].
    intros x Hx ->%list_elem_of_singleton.
    apply list_elem_of_fmap in Hx as (l & Hid & Hl).
    pose proof (proj1 (findOne_None _ _) F l Hl) as Hq.
    unfold by_lockerId in Hq. apply String.eqb_neq in Hq. by symmetry in Hid.
  - intros k l t. cbn [lockers]. intros Hk Ht.
    apply lookup_app_Some in Hk as [Hk|[_ Hk]]; [by apply (Inv k)|].
    apply list_lookup_singleton_Some in Hk as [_ <-]. cbn in Ht.
    injection Ht as <-. split; [done|]. cbn. apply generated_for_randomToken.
Qed.

(** A rotation keeps the invariant once the consumed token joins the
    used ones, when the token written is fresh. *)
Lemma unused_rotated used db i locker locker' ss T t' :
  unused used db →
  lockers db !! i = Some locker →
  Locker.lockerToken locker = Some T →
  Locker.lockerId locker' = Locker.lockerId locker →
  Locker.lockerToken locker' = Some t' →
  generated_for (Locker.lockerId locker) t' = true →
  t' ∉ T :: used →
  unused (T :: used) (mkDb (<[i := locker']> (lockers db)) ss (trackings db)).
Proof.
  intros [Hnd Inv] Hi HT Hid Hnew Hgen Hfresh. split.
  - unfold distinct_ids in *. cbn [lockers].
    rewrite list_fmap_insert, Hid, list_insert_id; [done|].
    by rewrite list_lookup_fmap, Hi.
  - intros k l t. cbn [lockers]. intros Hk Ht.
    apply list_lookup_insert_Some in Hk as [(<- & <- & _)|[Hne Hk]].
    + rewrite Hnew in Ht. injection Ht as <-. by rewrite Hid.
    + destruct (Inv k l t Hk Ht) as [Hu Hg]. split; [|done].
      apply not_elem_of_cons. split; [|done]. intros ->.
      destruct (Inv i locker T Hi HT) as [_ HgT].
      pose proof (generated_for_inj _ _ _ Hg HgT) as Hsame.
      destruct Hne.
      apply (NoDup_lookup (Locker.lockerId <$> lockers db) i k
               (Locker.lockerId locker)); [done|..].
      * by rewrite list_lookup_fmap, Hi.
      * rewrite list_lookup_fmap, Hk. cbn. by rewrite Hsame.
Qed.

Lemma consumed_fresh calls : ∀ used db,
  unused used db → fresh used calls db = true →
  NoDup (consumed calls db) ∧ ∀ t, t ∈ consumed calls db → t ∉ used.
Proof.
  induction calls as [|c calls IH]; intros used db Inv Hf;
    cbn [consumed fresh] in *.
  { split; [constructor|]. intros t Ht. by apply elem_of_nil in Ht. }
  unfold written in Hf.
  destruct (step_cases c db) as [(Hfail & Hdb & Hrot)|
    (i & locker & locker' & ss & t' & Hok & Hi & HT & Hdb & Hid & Hnew & Hrot
       & Hgen & Hcr)].
  - destruct (step c db) as [r db'] eqn:Hstep. cbn [fst snd] in Hfail, Hdb.
    subst db'. rewrite Hfail in *. rewrite Hrot in Hf. cbn [option_list app] in Hf.
    apply andb_true_iff in Hf as [Hnew Hf].
    apply IH; [|done]. by apply unused_created.
  - destruct (step c db) as [r db'] eqn:Hstep. cbn [fst snd] in Hok, Hdb.
    subst db'. rewrite Hok in *. rewrite Hrot, Hcr in Hf. cbn -[includes] in Hf.
    rewrite andb_true_r in Hf.
    apply andb_true_iff in Hf as [Hfresh%negb_true_iff%includes_false Hf].
    destruct Inv as [Hnd Inv]. destruct (Inv i locker _ Hi HT) as [Hu _].
    pose proof (unused_rotated used db i locker locker' ss (presented c) t'
                  (conj Hnd Inv) Hi HT Hid Hnew Hgen Hfresh) as Inv'.
    destruct (IH _ _ Inv' Hf) as [Hnodup Hout]. split.
    + constructor; [|done]. intros Hin. apply (Hout _ Hin). by left.
    + intros t [->|Hin]%elem_of_cons; [done|].
      intros Hused. apply (Hout _ Hin). by right.
Qed.

(** C2 (as the code has it), for the four deposit operations.  A failed
    deposit changes no locker document, and so no token; the only thing
    it can add is the locker that the legacy deposit creates for an id
    the store does not have.  A successful deposit replaces one locker
    document, whose token was the presented one, and gives it the token
    drawn for this call, of the generated shape for that locker.  Along
    any run of deposits from a store with distinct locker ids whose
    tokens were generated, in which no call writes a token that was
    consumed before, no token is consumed by two successful deposits,
    whatever lockers they name. *)
Theorem token_rotated_once_and_consumed_once :
  (∀ c db,
     is_ok (step c db).1 = false →
     lockers (step c db).2 = (lockers db ++ created c db)%list
     ∧ shipments (step c db).2 = shipments db
     ∧ trackings (step c db).2 = trackings db
     ∧ (∀ c', c = Courier c' → created c db = [])
     ∧ (∀ now rnd tok plate, c = Plate now rnd tok plate → created c db = []))
  ∧ (∀ c db,
       is_ok (step c db).1 = true →
       ∃ i locker locker' t',
         lockers db !! i = Some locker
         ∧ Locker.lockerToken locker = Some (presented c)
         ∧ lockers (step c db).2 = <[i := locker']> (lockers db)
         ∧ Locker.lockerId locker' = Locker.lockerId locker
         ∧ Locker.lockerToken locker' = Some t'
         ∧ rotation c db = Some t'
         ∧ generated_for (Locker.lockerId locker) t' = true)
  ∧ (∀ calls db,
       distinct_ids db → tokens_generated db = true →
       fresh [] calls db = true →
       NoDup (consumed calls db)).
Proof.
  split; [|split].
  - intros c db Hfail. destruct (step_cases c db) as [(_ & Hdb & _)|
      (i & locker & locker' & ss & t' & Hok & _)]; [|congruence].
    rewrite Hdb. repeat split; try done; by intros; subst c.
  - intros c db Hsucc. destruct (step_cases c db) as [(Hfail & _)|
      (i & locker & locker' & ss & t' & _ & Hi & HT & Hdb & Hid & Hnew & Hrot
         & Hgen & _)]; [congruence|].
    exists i, locker, locker', t'. by rewrite Hdb.
  - intros calls db Hnd G Hf.
    by apply (consumed_fresh calls [] db (unused_initially db Hnd G) Hf).
Qed.

Lemma token_consumed_once_witness :
  NoDup (consumed
           [ Courier (ViaResi 0%Z Fixture.rnd1
                        (Fixture.resi_req "A1" Fixture.tokenA "RESI00000001"));
             Courier (ViaToken 1%Z Fixture.rnd2
                        (Fixture.token_req "A1" Fixture.tokenA "RESI00000002"));
             Legacy 2%Z Fixture.rnd1 Fixture.rnd2 "Z9" "guess" "RESI00000002";
             Plate 3%Z Fixture.rnd2 " LK-A1-010203040506 " "b1234xy" ]
           Fixture.db0).
Proof.
  destruct token_rotated_once_and_consumed_once as (_ & _ & H).
  apply H.
  - by apply (bool_decide_unpack (NoDup _)).
  - vm_compute. reflexivity.
  - vm_compute. reflexivity.
Defined.

(** C2, counterexample.  A token that passes the check in a call that
    fails for another reason is accepted again by the next call; and
    when the rotation draws the six bytes of the token it replaces, the
    token consumed by one successful deposit is consumed by the next. *)
Lemma token_accepted_twice :
  deposit_resi 0%Z Fixture.rnd1
    (Fixture.resi_req "A1" Fixture.tokenA "RESI00000009") Fixture.db0
  = (ShipmentNotFound, Fixture.db0)
  ∧ is_ok (deposit_resi 1%Z Fixture.rnd1
             (Fixture.resi_req "A1" Fixture.tokenA "RESI00000001")
             Fixture.db0).1 = true
  ∧ randomToken "LK-A1" Scenario.rnd_again = Fixture.tokenA
  ∧ consumed
      [ Courier (ViaResi 0%Z Scenario.rnd_again
                   (Fixture.resi_req "A1" Fixture.tokenA "RESI00000001"));
        Courier (ViaToken 1%Z Fixture.rnd2
                   (Fixture.token_req "A1" Fixture.tokenA "RESI00000002")) ]
      Fixture.db0
    = [Fixture.tokenA; Fixture.tokenA].
Proof. repeat split; vm_compute; reflexivity. Qed.

End TokenUse.
